(** * xls_merger: the cell-level table differ and the key-joined combiner

    A shallow embedding of the data transformations of
    [excel_compare.py], [combine_data.py], [simple_excel_combine.py],
    [create_excel_output.py], [excel_reader.py] and
    [generate_lookup_table.py], with the properties the specification
    states about them and further properties read off the code.

    Spreadsheet I/O, console output and cell styling are outside the
    embedding: every function below starts from tables already read into
    memory, as the scripts do after [pd.read_excel]. *)

From Stdlib Require Import ZArith String DecimalString.
From Stdlib Require QArith.
From stdpp Require Import gmap strings list fin_maps sorting.

Local Open Scope string_scope.
Local Open Scope nat_scope.
Local Open Scope list_scope.

(** * Cell values

    A cell read from a sheet is empty ([NaN], what [pd.isna] recognises),
    text, or an integer.  Floating-point cells other than the empty
    marker are not part of the embedding. *)

Inductive value :=
  | NaN
  | Str (s : string)
  | Int (z : Z).

#[global] Instance value_eq_dec : EqDecision value.
Proof. solve_decision. Defined.

Definition value_encode (v : value) : unit + (string + Z) :=
  match v with
  | NaN => inl tt
  | Str s => inr (inl s)
  | Int z => inr (inr z)
  end.

Definition value_decode (x : unit + (string + Z)) : value :=
  match x with
  | inl _ => NaN
  | inr (inl s) => Str s
  | inr (inr z) => Int z
  end.

#[global] Instance value_countable : Countable value.
Proof.
  refine (inj_countable' value_encode value_decode _).
  by intros [].
Defined.

(** [pd.isna] / [pd.notna]. *)
Definition isna (v : value) : bool :=
  match v with NaN => true | _ => false end.

Definition notna (v : value) : bool := negb (isna v).

(** Python's [str]: text is itself, an integer is its decimal numeral,
    the empty marker prints as [nan]. *)
Definition str (v : value) : string :=
  match v with
  | NaN => "nan"
  | Str s => s
  | Int z => NilZero.string_of_int (Z.to_int z)
  end.

(** Elementwise [==] of pandas and Python: the empty marker equals
    nothing, not even itself; text never equals a number. *)
Definition py_eq (a b : value) : bool :=
  match a, b with
  | Str s, Str t => bool_decide (s = t)
  | Int x, Int y => bool_decide (x = y)
  | _, _ => false
  end.

(** Tabulating a function over a list of keys: the row that holds [f c]
    under every key [c] of [cols]. *)
Definition tabulate (f : string → value) (cols : list string)
  : gmap string value :=
  list_to_map ((λ c, (c, f c)) <$> cols).

(** A loop whose body may raise: the state is threaded through the
    elements in order and the first failure aborts the loop. *)
Fixpoint for_each {A S : Type} (xs : list A) (body : A → S → option S)
  (s : S) : option S :=
  match xs with
  | [] => Some s
  | x :: xs' => s' ← body x s; for_each xs' body s'
  end.

(** * The differ ([excel_compare.py]) *)

Module Differ.

(** A table: its column names in order and its rows in index order
    (a [RangeIndex] from 0), each row mapping a column name to a cell. *)
Record DataFrame := mkFrame {
  columns : list string;
  rows : list (gmap string value)
}.

(** The representation invariant of a frame: column names are distinct
    (as [read_excel] delivers them) and every row has a cell under each
    column and nowhere else. *)
Definition wf_frame (df : DataFrame) : Prop :=
  NoDup (columns df) ∧
  Forall (λ row : gmap string value, dom row = list_to_set (columns df))
    (rows df).

(** [len(df)] *)
Definition len (df : DataFrame) : nat := length (rows df).

(** [df.size] *)
Definition size (df : DataFrame) : Z :=
  (Z.of_nat (len df) * Z.of_nat (length (columns df)))%Z.

(** [df.loc[row, col]] as a read: a label outside the frame is a
    [KeyError], here [None]. *)
Definition loc (df : DataFrame) (row : nat) (col : string) : option value :=
  r ← rows df !! row; r !! col.

(** [df.loc[row, col] = v] at a label of the frame.  (pandas would
    enlarge the frame at a label outside it; the loops below only visit
    the frame's own index and columns.) *)
Definition set_loc (df : DataFrame) (row : nat) (col : string) (v : value)
  : DataFrame :=
  mkFrame (columns df) (alter (<[col := v]>) row (rows df)).

(** [pd.DataFrame(index=range(a, a + n), columns=cols)]: [n] rows of
    empty cells. *)
Definition empty_frame (n : nat) (cols : list string) : DataFrame :=
  mkFrame cols (replicate n (tabulate (λ _, NaN) cols)).

(** One row re-laid on the columns [cols]; a column the row lacks is
    empty. *)
Definition reindex_row (cols : list string) (row : gmap string value)
  : gmap string value :=
  tabulate (λ c, default NaN (row !! c)) cols.

(** [df.reindex(columns=cols)] *)
Definition reindex (df : DataFrame) (cols : list string) : DataFrame :=
  mkFrame cols (reindex_row cols <$> rows df).

(** [pd.concat([df1, df2], ignore_index=True)]: the rows of [df1] then
    those of [df2], on the columns of [df1] followed by the columns only
    [df2] has. *)
Definition concat (df1 df2 : DataFrame) : DataFrame :=
  let cols :=
    columns df1 ++ filter (λ c, c ∉ columns df1) (columns df2) in
  mkFrame cols (reindex_row cols <$> (rows df1 ++ rows df2)).

(** [df[col] = v] with a scalar [v]: the whole column is set; a new
    column goes last. *)
Definition set_column (df : DataFrame) (col : string) (v : value)
  : DataFrame :=
  mkFrame
    (if decide (col ∈ columns df) then columns df else columns df ++ [col])
    (<[col := v]> <$> rows df).

(** "Extend df if needed" (lines 42-50). *)
Definition extend_rows (df : DataFrame) (max_rows : nat) : DataFrame :=
  if decide (len df < max_rows) then
    let empty_rows := empty_frame (max_rows - len df) (columns df) in
    concat df empty_rows
  else df.

(** [if col not in df.columns: df[col] = np.nan] *)
Definition ensure_column (col : string) (df : DataFrame) : DataFrame :=
  if decide (col ∉ columns df) then set_column df col NaN else df.

(** The body of the column-alignment loop (lines 55-59). *)
Definition add_missing (col : string) (dfs : DataFrame * DataFrame)
  : DataFrame * DataFrame :=
  (ensure_column col dfs.1, ensure_column col dfs.2).

(** The verdict on one pair of cells (lines 73-81). *)
Definition SAME : string := "SAME".
Definition DIFFERENT : string := "DIFFERENT".

Definition classify (val1 val2 : value) : string :=
  if isna val1 && isna val2 then SAME
  else if isna val1 || isna val2 then DIFFERENT
  else if bool_decide (str val1 = str val2) then SAME
  else DIFFERENT.

(** The two nested loops that fill the difference matrix (lines 68-81). *)
Definition classify_cell (df1 df2 : DataFrame) (col : string) (row : nat)
  (differences : DataFrame) : option DataFrame :=
  val1 ← loc df1 row col;
  val2 ← loc df2 row col;
  Some (set_loc differences row col (Str (classify val1 val2))).

Definition classify_column (df1 df2 : DataFrame) (col : string)
  (differences : DataFrame) : option DataFrame :=
  for_each (seq 0 (len df1)) (classify_cell df1 df2 col) differences.

Definition classify_all (df1 df2 differences : DataFrame)
  : option DataFrame :=
  for_each (columns df1) (classify_column df1 df2) differences.

(** [(differences == 'DIFFERENT').sum().sum()]: the matches are counted
    per column, then the column counts are added up. *)
Definition is_different (cell : option value) : Z :=
  if decide (cell = Some (Str DIFFERENT)) then 1%Z else 0%Z.

Definition sum_Z (l : list Z) : Z := foldr Z.add 0%Z l.

Definition column_count (df : DataFrame) (col : string) : Z :=
  sum_Z ((λ row : gmap string value, is_different (row !! col)) <$> rows df).

Definition count_different (df : DataFrame) : Z :=
  sum_Z (column_count df <$> columns df).

(** The positions of a frame, column by column as the loops visit them. *)
Definition positions (df : DataFrame) : list (nat * string) :=
  col ← columns df; (λ row, (row, col)) <$> seq 0 (len df).

(** [different_cells / total_cells * 100].  The quotient is taken as an
    exact rational (binary rounding is not modelled).  With a zero
    divisor there is no number to report: the division of the counter by
    zero yields not-a-number under a runtime warning (and raises
    [ZeroDivisionError] on plain integers); [None] stands for that. *)
Definition percentage (different_cells total_cells : Z)
  : option QArith_base.Q :=
  if decide (total_cells = 0%Z) then None
  else Some (QArith_base.Qmult
               (QArith_base.Qdiv (QArith_base.inject_Z different_cells)
                                 (QArith_base.inject_Z total_cells))
               (QArith_base.inject_Z 100%Z)).

(** What one comparison produces: the two aligned tables, the
    difference matrix, and the figures printed under "Results". *)
Record comparison := mkComparison {
  aligned1 : DataFrame;
  aligned2 : DataFrame;
  differences : DataFrame;
  total_cells : Z;
  same_cells : Z;
  different_cells : Z;
  difference_percentage : option QArith_base.Q
}.

(** [compare_excel_files], from the two tables as loaded.

    [all_columns] is the order in which Python lists the set
    [set(df1.columns) | set(df2.columns)] (line 53).  That order is not
    determined by the program, so it is an argument here; [listing]
    says that it is some listing of the union. *)
Definition column_union (df1 df2 : DataFrame) : gset string :=
  list_to_set (columns df1) ∪ list_to_set (columns df2).

Definition listing (all_columns : list string) (df1 df2 : DataFrame) : Prop :=
  all_columns ≡ₚ elements (column_union df1 df2).

(** Lines 38-63: both tables brought to the same rows and columns. *)
Definition align_frames (all_columns : list string) (df1 df2 : DataFrame)
  : DataFrame * DataFrame :=
  let max_rows := len df1 `max` len df2 in
  let df1 := extend_rows df1 max_rows in
  let df2 := extend_rows df2 max_rows in
  let '(df1, df2) := foldl (λ dfs col, add_missing col dfs) (df1, df2)
                       all_columns in
  let df1 := reindex df1 all_columns in
  let df2 := reindex df2 all_columns in
  (df1, df2).

Definition compare_excel_files (all_columns : list string)
  (df1 df2 : DataFrame) : option comparison :=
  let '(df1, df2) := align_frames all_columns df1 df2 in
  let differences := empty_frame (len df1) (columns df1) in
  differences ← classify_all df1 df2 differences;
  let total_cells := size differences in
  let different_cells := count_different differences in
  let same_cells := (total_cells - different_cells)%Z in
  Some (mkComparison df1 df2 differences total_cells same_cells
          different_cells (percentage different_cells total_cells)).

(** Two small tables used in the examples: [id, val] with one and with
    two rows. *)
Definition table_a : DataFrame :=
  mkFrame ["id"; "val"] [ {[ "id" := Int 1; "val" := Str "x" ]} ].

Definition table_b : DataFrame :=
  mkFrame ["id"; "val"]
    [ {[ "id" := Int 1; "val" := Str "x" ]};
      {[ "id" := Int 2; "val" := Str "y" ]} ].

(** A sheet with a header row and no data, and a sheet with nothing. *)
Definition header_only : DataFrame := mkFrame ["id"; "val"] [].

Definition empty_sheet : DataFrame := mkFrame [] [].

End Differ.

(** * The combiner ([combine_data.py], [simple_excel_combine.py],
      [create_excel_output.py]) *)

Module Combiner.

(** The three sheets of [inputs/data.xlsx], one record per row, with
    the columns the scripts read. *)
Record definition_row := mkDefinition {
  FDIRs : value;
  def_id : value
}.

Record monitor_row := mkMonitor {
  mon_id : value;
  mons : value;
  thresholds : value
}.

Record condition_row := mkCondition {
  cond_id : value;
  condition_mons : value;
  counts : value;
  response : value
}.

(** [monitors[monitors['id'] == fdir_id]] *)
Definition select_monitors (monitors : list monitor_row) (fdir_id : value)
  : list monitor_row :=
  filter (λ mon_row, py_eq (mon_id mon_row) fdir_id) monitors.

(** [.dropna(subset=['condition_mons'])] *)
Definition dropna_condition_mons (conditions : list condition_row)
  : list condition_row :=
  filter (λ cond_row, notna (condition_mons cond_row)) conditions.

(** [conditions[conditions['id'] == fdir_id].dropna(subset=['condition_mons'])],
    the selection that all three scripts make. *)
Definition select_conditions (conditions : list condition_row) (fdir_id : value)
  : list condition_row :=
  dropna_condition_mons
    (filter (λ cond_row, py_eq (cond_id cond_row) fdir_id) conditions).

(** ** [combine_data.py] *)

Record monitor_entry := mkMonitorEntry {
  monitor : value;
  threshold : value
}.

Record condition_entry := mkConditionEntry {
  condition : value;
  count : value;
  entry_response : value
}.

Record fdir_data := mkFdirData {
  fdir_id : value;
  fdir_monitors : list monitor_entry;
  fdir_conditions : list condition_entry
}.

(** A Python [dict] keeps its keys in insertion order; assigning to a
    key already present replaces the value where the key stands. *)
Fixpoint dict_set {V : Type} (k : value) (v : V) (d : list (value * V))
  : list (value * V) :=
  match d with
  | [] => [(k, v)]
  | (k', v') :: d' =>
      if decide (k' = k) then (k, v) :: d' else (k', v') :: dict_set k v d'
  end.

Fixpoint dict_get {V : Type} (k : value) (d : list (value * V)) : option V :=
  match d with
  | [] => None
  | (k', v') :: d' => if decide (k' = k) then Some v' else dict_get k d'
  end.

Definition monitor_list (monitors : list monitor_row) : list monitor_entry :=
  (λ mon_row, mkMonitorEntry (mons mon_row) (thresholds mon_row))
    <$> monitors.

Definition condition_list (conditions : list condition_row)
  : list condition_entry :=
  (λ cond_row, mkConditionEntry (condition_mons cond_row) (counts cond_row)
                 (response cond_row)) <$> conditions.

(** The record stored for one row of the definitions (lines 35-59). *)
Definition fdir_record (monitors : list monitor_row)
  (conditions : list condition_row) (row : definition_row) : fdir_data :=
  let fdir_id := def_id row in
  let fdir_monitors := select_monitors monitors fdir_id in
  let fdir_conditions := select_conditions conditions fdir_id in
  mkFdirData fdir_id (monitor_list fdir_monitors)
    (condition_list fdir_conditions).

(** The body of the loop over the definitions (lines 29-59). *)
Definition process_fdir (monitors : list monitor_row)
  (conditions : list condition_row)
  (combined_data : list (value * fdir_data)) (row : definition_row)
  : list (value * fdir_data) :=
  let fdir_name := FDIRs row in
  dict_set fdir_name (fdir_record monitors conditions row) combined_data.

Definition combine_excel_data (definitions : list definition_row)
  (monitors : list monitor_row) (conditions : list condition_row)
  : list (value * fdir_data) :=
  foldl (process_fdir monitors conditions) [] definitions.

(** The rows of [outputs/combined_data.csv]. *)
Record csv_row := mkCsvRow {
  csv_FDIR : value;
  csv_ID : value;
  csv_Monitor : value;
  csv_Threshold : value;
  csv_Condition : value;
  csv_Count : value;
  csv_Response : value
}.

(** Python's truth value of a list. *)
Definition truthy {A : Type} (l : list A) : bool :=
  match l with [] => false | _ => true end.

(** [l[i][field] if i < len(l) else ''] *)
Definition item_or_blank {A : Type} (l : list A) (i : nat)
  (field : A → value) : value :=
  match l !! i with
  | Some x => field x
  | None => Str ""
  end.

(** The rows one entity contributes (lines 136-156). *)
Definition csv_rows_of (fdir_name : value) (data : fdir_data)
  : list csv_row :=
  if truthy (fdir_monitors data) || truthy (fdir_conditions data) then
    let max_items :=
      length (fdir_monitors data) `max` length (fdir_conditions data) in
    (λ i, mkCsvRow fdir_name (fdir_id data)
            (item_or_blank (fdir_monitors data) i monitor)
            (item_or_blank (fdir_monitors data) i threshold)
            (item_or_blank (fdir_conditions data) i condition)
            (item_or_blank (fdir_conditions data) i count)
            (item_or_blank (fdir_conditions data) i entry_response))
      <$> seq 0 max_items
  else
    [mkCsvRow fdir_name (fdir_id data) (Str "") (Str "") (Str "") (Str "")
       (Str "")].

(** The flattening loop of [save_combined_data] (lines 133-156): the
    rows [csv_rows] that it builds once the function gets there.
    Whether it gets there is [combined_data_csv] below. *)
Definition save_combined_data (data : list (value * fdir_data))
  : list csv_row :=
  foldl (λ csv_rows item, csv_rows ++ csv_rows_of item.1 item.2) [] data.



(** ** [simple_excel_combine.py] *)

Record flat_row := mkFlatRow {
  row_FDIRs : value;
  row_id : value;
  row_mons : value;
  row_thresholds : value;
  row_condition_mons : value;
  row_counts : value;
  row_response : value
}.

(** [set(monitors['id'].unique()) | set(conditions['id'].dropna().unique())]
    (line 21): the monitor keys as they are, the condition keys without
    the empty ones. *)
Definition all_ids (monitors : list monitor_row) (conditions : list condition_row)
  : gset value :=
  list_to_set (mon_id <$> monitors) ∪
  list_to_set (filter (λ v, notna v) (cond_id <$> conditions)).

(** Lines 25-27: later definitions overwrite earlier ones. *)
Definition id_to_fdir_of (definitions : list definition_row)
  : gmap value value :=
  foldl (λ id_to_fdir def_row, <[def_id def_row := FDIRs def_row]> id_to_fdir)
    ∅ definitions.

(** Lines 29-36: the two hard-coded entries. *)
Definition fix_mismatches (all_ids : gset value)
  (id_to_fdir : gmap value value) : gmap value value :=
  let id_to_fdir :=
    if decide (Str "fpu_bat" ∈ all_ids ∧ is_Some (id_to_fdir !! Str "fpu_batt"))
    then <[Str "fpu_bat" := Str "Battery"]> id_to_fdir
    else id_to_fdir in
  let id_to_fdir :=
    if decide (Str "fpu_tracker" ∈ all_ids)
    then <[Str "fpu_tracker" := Str "Tracker"]> id_to_fdir
    else id_to_fdir in
  id_to_fdir.

(** [id_to_fdir.get(fdir_id, f"Unknown_{fdir_id}")] (line 42). *)
Definition fdir_name_of (id_to_fdir : gmap value value) (fdir_id : value)
  : value :=
  default (Str (String.append "Unknown_" (str fdir_id)))
    (id_to_fdir !! fdir_id).

(** Python's order on text: by code point, which on UTF-8 text is the
    order of the bytes. *)
Definition str_le (s t : string) : Prop := String.leb s t = true.

#[global] Instance str_le_dec s t : Decision (str_le s t).
Proof. unfold str_le. apply _. Defined.

Definition as_text (v : value) : option string :=
  match v with Str s => Some s | _ => None end.

Definition as_int (v : value) : option Z :=
  match v with Int z => Some z | _ => None end.

(** [sorted] on a list of distinct cell values.  Nothing is compared in
    a list of at most one element.  Text is ordered among text and
    integers among integers; text next to a number or to the empty
    marker raises [TypeError], which is [None] here.  [None] also
    stands for the one mixture Python does not reject, the empty marker
    among integers, where the result depends on the comparisons the
    sorting algorithm happens to make. *)
Definition py_sorted (l : list value) : option (list value) :=
  match l with
  | [] | [_] => Some l
  | _ =>
    match mapM as_text l with
    | Some texts => Some (Str <$> merge_sort str_le texts)
    | None =>
      match mapM as_int l with
      | Some ints => Some (Int <$> merge_sort Z.le ints)
      | None => None
      end
    end
  end.

(** The rows one key contributes (lines 42-65). *)
Definition rows_of_id (id_to_fdir : gmap value value)
  (monitors : list monitor_row) (conditions : list condition_row) (fdir_id : value)
  : list flat_row :=
  let fdir_name := fdir_name_of id_to_fdir fdir_id in
  let fdir_monitors := select_monitors monitors fdir_id in
  let fdir_conditions := select_conditions conditions fdir_id in
  let max_items :=
    (length fdir_monitors `max` length fdir_conditions) `max` 1 in
  (λ i, mkFlatRow fdir_name fdir_id
          (item_or_blank fdir_monitors i mons)
          (item_or_blank fdir_monitors i thresholds)
          (item_or_blank fdir_conditions i condition_mons)
          (item_or_blank fdir_conditions i counts)
          (item_or_blank fdir_conditions i response))
    <$> seq 0 max_items.

(** [create_simple_combined_excel] up to the table [combined_rows]
    (lines 20-65), from the three sheets as loaded.  The later merge
    with the response lookup file adds columns to these rows. *)
Definition create_simple_combined_excel (definitions : list definition_row)
  (monitors : list monitor_row) (conditions : list condition_row)
  : option (list flat_row) :=
  let all_ids := all_ids monitors conditions in
  let id_to_fdir := fix_mismatches all_ids (id_to_fdir_of definitions) in
  sorted_ids ← py_sorted (elements all_ids);
  Some (foldl (λ combined_rows fdir_id,
                 combined_rows ++
                 rows_of_id id_to_fdir monitors conditions fdir_id)
          [] sorted_ids).

(** ** The vocabulary of the claims about the union mode *)

(** A key appears in a child table: some monitor or condition row
    carries it (the empty marker is not a key). *)
Definition key_in_children (k : value) (monitors : list monitor_row)
  (conditions : list condition_row) : Prop :=
  notna k ∧ (k ∈ mon_id <$> monitors ∨ k ∈ cond_id <$> conditions).

Definition key_in_parent (k : value) (definitions : list definition_row)
  : Prop :=
  k ∈ def_id <$> definitions.

(** The keys of the children can be compared with one another: there is
    at most one, or all are text, or all are integers. *)
Definition comparable_keys (monitors : list monitor_row)
  (conditions : list condition_row) : Prop :=
  let ids := all_ids monitors conditions in
  size ids ≤ 1 ∨
  (∀ k, k ∈ ids → is_Some (as_text k)) ∨
  (∀ k, k ∈ ids → is_Some (as_int k)).

(** The flattened output has rows for the key [k], all labelled [name]. *)
Definition labelled (definitions : list definition_row)
  (monitors : list monitor_row) (conditions : list condition_row)
  (k name : value) : Prop :=
  ∃ combined_rows,
    create_simple_combined_excel definitions monitors conditions
      = Some combined_rows ∧
    (∃ row, row ∈ combined_rows ∧ row_id row = k) ∧
    (∀ row, row ∈ combined_rows → row_id row = k → row_FDIRs row = name).

(** The placeholder rule read for every child key without exception:
    a key of the children that the parent lacks is labelled
    [Unknown_<key>]. *)
Definition unknown_label_rule (definitions : list definition_row)
  (monitors : list monitor_row) (conditions : list condition_row)
  (k : value) : Prop :=
  key_in_children k monitors conditions →
  ¬ key_in_parent k definitions →
  labelled definitions monitors conditions k
    (Str (String.append "Unknown_" (str k))).

(** The keys the two hard-coded entries take out of that rule. *)
Definition hardcoded_key (k : value) (definitions : list definition_row)
  : Prop :=
  k = Str "fpu_tracker" ∨
  (k = Str "fpu_bat" ∧ key_in_parent (Str "fpu_batt") definitions).


(** Example sheets. *)
Definition example_definitions : list definition_row :=
  [ mkDefinition (Str "Battery") (Str "fpu_batt");
    mkDefinition (Str "Star") (Str "fpu_star") ].

Definition example_monitors : list monitor_row :=
  [ mkMonitor (Str "fpu_star") (Str "s1") (Int 3);
    mkMonitor (Str "fpu_bat") (Str "volt") (Int 28);
    mkMonitor (Str "fpu_star") (Str "s2") (Int 4);
    mkMonitor (Str "fpu_tracker") (Str "trk") (Int 1);
    mkMonitor (Str "fpu_gyro") (Str "rate") (Int 9) ].

Definition example_conditions : list condition_row :=
  [ mkCondition (Str "fpu_star") (Str "s1 > 3") (Int 2) (Str "R1");
    mkCondition (Str "fpu_star") NaN NaN NaN;
    mkCondition NaN NaN NaN NaN;
    mkCondition (Str "fpu_gyro") (Str "rate > 9") (Int 1) (Str "R2") ].

End Combiner.

(** * The comparison workbook ([excel_compare.py], [create_comparison_excel]) *)

Module Workbook.
Import Differ.

(** A worksheet cell: its value and its fill.  Fonts, wrapping and
    column widths are styling and are left out. *)
Inductive fill := no_fill | header_fill | diff_fill.

Record cell := mkCell {
  cell_value : value;
  cell_fill : fill
}.

(** [ws.cell(row=r, column=c, value=v)]: the value is set; a cell
    that exists keeps its fill, a new one has none.  Rows and columns
    count from 1. *)
Definition write_cell (ws : gmap (nat * nat) cell) (r c : nat) (v : value)
  : gmap (nat * nat) cell :=
  <[(r, c) := mkCell v (from_option cell_fill no_fill (ws !! (r, c)))]> ws.

(** [cell.fill = f] on the cell at [(r, c)]. *)
Definition set_fill (ws : gmap (nat * nat) cell) (r c : nat) (f : fill)
  : gmap (nat * nat) cell :=
  alter (λ x, mkCell (cell_value x) f) (r, c) ws.

(** [enumerate(l, 1)] *)
Definition enumerate {A : Type} (l : list A) : list (nat * A) :=
  zip (seq 1 (length l)) l.

(** The header row (lines 119-122). *)
Definition write_headers (headers : list string)
  (ws : gmap (nat * nat) cell) : gmap (nat * nat) cell :=
  foldl (λ ws item, set_fill (write_cell ws 1 item.1 (Str item.2))
                      1 item.1 header_fill)
    ws (enumerate headers).

(** One data cell (lines 126-140): an empty cell is written as the
    empty text; the cell is filled when the matrix reads [DIFFERENT]. *)
Definition write_data_cell (df differences : DataFrame) (row : nat)
  (item : nat * string) (ws : gmap (nat * nat) cell)
  : option (gmap (nat * nat) cell) :=
  let col := item.1 in
  let col_name := item.2 in
  value ← loc df row col_name;
  let cell_value := if notna value then value else Str "" in
  let ws := write_cell ws (row + 2) col cell_value in
  verdict ← loc differences row col_name;
  Some (if decide (verdict = Str DIFFERENT)
        then set_fill ws (row + 2) col diff_fill else ws).

(** The sheets [Original_File1] and [Original_File2] (lines 115-167),
    each from its aligned table and the matrix. *)
Definition original_sheet (df differences : DataFrame)
  : option (gmap (nat * nat) cell) :=
  let ws := write_headers (columns df) ∅ in
  for_each (seq 0 (len df))
    (λ row ws, for_each (enumerate (columns df))
                 (write_data_cell df differences row) ws)
    ws.

(** A row of the sheet [Differences_Summary]; the rows are kept in the
    order in which [row_num] hands out sheet rows 2, 3, ... *)
Record summary_row := mkSummaryRow {
  summary_Row : value;
  summary_Column : value;
  summary_File1 : value;
  summary_File2 : value
}.

(** [str(val) if pd.notna(val) else ""] *)
Definition shown (val : value) : value :=
  Str (if notna val then str val else "").

(** The body of the two loops over the summary (lines 185-198). *)
Definition summarise_cell (df1 df2 differences : DataFrame) (df_row : nat)
  (col_name : string) (rows : list summary_row)
  : option (list summary_row) :=
  verdict ← loc differences df_row col_name;
  if decide (verdict = Str DIFFERENT) then
    val1 ← loc df1 df_row col_name;
    val2 ← loc df2 df_row col_name;
    Some (rows ++ [mkSummaryRow (Int (Z.of_nat df_row + 1)) (Str col_name)
                     (shown val1) (shown val2)])
  else Some rows.

(** The third sheet (lines 169-198): written only if some cell
    differs ([None] inside: no such sheet). *)
Definition differences_summary (df1 df2 differences : DataFrame)
  : option (option (list summary_row)) :=
  let different_cells := count_different differences in
  if decide (0 < different_cells)%Z then
    rows ← for_each (seq 0 (len df1))
              (λ df_row rows,
                 for_each (columns df1)
                   (summarise_cell df1 df2 differences df_row) rows)
              [];
    Some (Some rows)
  else Some None.

(** No cell of the table holds the empty text ([read_excel] turns such
    cells into empty cells). *)
Definition no_empty_text (df : DataFrame) : Prop :=
  Forall (map_Forall (λ (_ : string) (v : value), v ≠ Str "")) (rows df).

(** The cell a data position of an original sheet ends up with. *)
Definition data_cell (df differences : DataFrame) (row : nat)
  (col_name : string) : cell :=
  let value := default NaN (loc df row col_name) in
  mkCell (if notna value then value else Str "")
    (if decide (loc differences row col_name = Some (Str DIFFERENT))
     then diff_fill else no_fill).

(** The positions of a grid row by row, as the summary visits them. *)
Definition row_major (n : nat) (cols : list string) : list (nat * string) :=
  r ← seq 0 n; (λ c, (r, c)) <$> cols.

End Workbook.

(** * The order of the keys in the union table *)

Module Keys.
Import Combiner.

(** Python's [<=] between two cells that can be compared. *)
Definition py_le (a b : value) : Prop :=
  match a, b with
  | Str s, Str t => str_le s t
  | Int x, Int y => (x ≤ y)%Z
  | _, _ => False
  end.

(** The keys of a dict in its order. *)
Definition keys {V : Type} (d : list (value * V)) : list value := d.*1.

(** A monitors sheet with a row that has no key. *)
Definition monitors_with_empty_key : list monitor_row :=
  [ mkMonitor NaN (Str "s0") (Int 1);
    mkMonitor (Str "fpu_star") (Str "s1") (Int 3) ].

End Keys.

(** * The formatted workbook ([create_excel_output.py]) *)

Module Formatted.
Import Combiner.

Definition blank_row (fdir_name fdir_id : value) : flat_row :=
  mkFlatRow fdir_name fdir_id (Str "") (Str "") (Str "") (Str "") (Str "").

(** [if i < len(fdir_monitors): mon_row = fdir_monitors.iloc[i]; ...] *)
Definition fill_monitor (fdir_monitors : list monitor_row) (i : nat)
  (row_data : flat_row) : flat_row :=
  if decide (i < length fdir_monitors) then
    match fdir_monitors !! i with
    | Some mon_row =>
        mkFlatRow (row_FDIRs row_data) (row_id row_data)
          (mons mon_row) (thresholds mon_row)
          (row_condition_mons row_data) (row_counts row_data)
          (row_response row_data)
    | None => row_data
    end
  else row_data.

Definition fill_condition (fdir_conditions : list condition_row) (i : nat)
  (row_data : flat_row) : flat_row :=
  if decide (i < length fdir_conditions) then
    match fdir_conditions !! i with
    | Some cond_row =>
        mkFlatRow (row_FDIRs row_data) (row_id row_data)
          (row_mons row_data) (row_thresholds row_data)
          (condition_mons cond_row) (counts cond_row) (response cond_row)
    | None => row_data
    end
  else row_data.

(** [df.empty] for a table that has its columns. *)
Definition is_empty {A : Type} (l : list A) : bool :=
  match l with [] => true | _ => false end.

(** The rows of [Combined_Flat] for one definition (lines 108-179). *)
Definition flat_rows_of (monitors : list monitor_row)
  (conditions : list condition_row) (def_row : definition_row)
  : list flat_row :=
  let fdir_name := FDIRs def_row in
  let fdir_id := def_id def_row in
  let fdir_monitors := select_monitors monitors fdir_id in
  let fdir_conditions := select_conditions conditions fdir_id in
  if is_empty fdir_monitors && is_empty fdir_conditions then
    [blank_row fdir_name fdir_id]
  else if is_empty fdir_monitors then
    (λ cond_row, mkFlatRow fdir_name fdir_id (Str "") (Str "")
                   (condition_mons cond_row) (counts cond_row)
                   (response cond_row)) <$> fdir_conditions
  else if is_empty fdir_conditions then
    (λ mon_row, mkFlatRow fdir_name fdir_id (mons mon_row)
                  (thresholds mon_row) (Str "") (Str "") (Str ""))
      <$> fdir_monitors
  else
    let max_items := length fdir_monitors `max` length fdir_conditions in
    (λ i, fill_condition fdir_conditions i
            (fill_monitor fdir_monitors i (blank_row fdir_name fdir_id)))
      <$> seq 0 max_items.

Definition flat_data (definitions : list definition_row)
  (monitors : list monitor_row) (conditions : list condition_row)
  : list flat_row :=
  foldl (λ flat_data def_row,
           flat_data ++ flat_rows_of monitors conditions def_row)
    [] definitions.

(** The same row under the headers of [combined_data.csv]. *)
Definition csv_of_flat (row : flat_row) : csv_row :=
  mkCsvRow (row_FDIRs row) (row_id row) (row_mons row) (row_thresholds row)
    (row_condition_mons row) (row_counts row) (row_response row).

Section holistic.

(** Python's [str.upper], which the embedding takes as given. *)
Variable upper : string → string.

(** [fdir_name.upper()]: only text has the method; on an empty or
    numeric name the call raises [AttributeError], here [None]. *)
Definition upper_name (fdir_name : value) : option value :=
  match fdir_name with
  | Str s => Some (Str (upper s))
  | _ => None
  end.

(** One data row of the holistic view (lines 55-71). *)
Definition holistic_row (fdir_monitors : list monitor_row)
  (fdir_conditions : list condition_row) (i : nat) : list value :=
  let row := replicate 7 (Str "") in
  let row :=
    if decide (i < length fdir_monitors) then
      match fdir_monitors !! i with
      | Some mon_row => <[1 := thresholds mon_row]> (<[0 := mons mon_row]> row)
      | None => row
      end
    else row in
  let row :=
    if decide (i < length fdir_conditions) then
      match fdir_conditions !! i with
      | Some cond_row =>
          <[5 := response cond_row]>
            (<[4 := counts cond_row]> (<[3 := condition_mons cond_row]> row))
      | None => row
      end
    else row in
  row.

(** The block of the holistic view for one definition (lines 37-74). *)
Definition holistic_rows_of (monitors : list monitor_row)
  (conditions : list condition_row) (def_row : definition_row)
  : option (list (list value)) :=
  let fdir_name := FDIRs def_row in
  let fdir_id := def_id def_row in
  let fdir_monitors := select_monitors monitors fdir_id in
  let fdir_conditions := select_conditions conditions fdir_id in
  title ← upper_name fdir_name;
  let max_rows := length fdir_monitors `max` length fdir_conditions in
  Some ([ [title; fdir_id; Str ""; Str ""; Str ""; Str ""; Str ""];
          [Str "MONITORS"; Str ""; Str ""; Str ""; Str ""; Str ""; Str ""];
          [Str "Monitor Name"; Str "Threshold"; Str ""; Str "CONDITIONS";
           Str ""; Str ""; Str ""];
          [Str "Condition"; Str "Count"; Str "Response"; Str ""; Str "";
           Str ""; Str ""] ]
        ++ (holistic_row fdir_monitors fdir_conditions <$> seq 0 max_rows)
        ++ [ replicate 7 (Str "") ]).

Definition holistic_data (definitions : list definition_row)
  (monitors : list monitor_row) (conditions : list condition_row)
  : option (list (list value)) :=
  for_each definitions
    (λ def_row holistic_data,
       block ← holistic_rows_of monitors conditions def_row;
       Some (holistic_data ++ block))
    [].

(** [create_formatted_excel] up to the two tables it lays out: the
    holistic view is built first, so a failure there leaves no
    workbook. *)
Definition create_formatted_excel (definitions : list definition_row)
  (monitors : list monitor_row) (conditions : list condition_row)
  : option (list (list value) * list flat_row) :=
  holistic ← holistic_data definitions monitors conditions;
  Some (holistic, flat_data definitions monitors conditions).

End holistic.

End Formatted.

(** * The sheet reader ([excel_reader.py]) *)

Module Reader.
Import Differ Combiner.

(** What a call does: it returns, or an exception leaves it. *)
Inductive outcome (A : Type) :=
  | Returns (a : A)
  | Raises (exception : string).
Arguments Returns {A} a.
Arguments Raises {A} exception.

(** [df[col]] on a table that has the column. *)
Definition column (df : DataFrame) (col : string) : list value :=
  (λ row : gmap string value, default NaN (row !! col)) <$> rows df.

(** [dict(zip(keys, values))] *)
Definition dict_of_zip (keys values : list value) : list (value * value) :=
  foldl (λ d item, dict_set item.1 item.2 d) [] (zip keys values).

(** [get_definitions_mapping] (lines 114-129), on the sheets read so
    far. *)
Definition get_definitions_mapping (sheets_data : gmap string DataFrame)
  : option (list (value * value)) :=
  match sheets_data !! "definitions" with
  | None => None
  | Some df =>
      if decide ("FDIRs" ∈ columns df ∧ "id" ∈ columns df) then
        Some (dict_of_zip (column df "FDIRs") (column df "id"))
      else None
  end.

(** [df[df['id'] == target_id]]: the rows are kept in order (their
    index labels, which nothing here reads, are not modelled). *)
Definition rows_with_id (df : DataFrame) (target_id : value) : DataFrame :=
  mkFrame (columns df)
    (filter (λ row : gmap string value,
               py_eq (default NaN (row !! "id")) target_id) (rows df)).

(** [get_monitors_for_id] (lines 131-144). *)
Definition get_monitors_for_id (sheets_data : gmap string DataFrame)
  (target_id : value) : option DataFrame :=
  match sheets_data !! "monitors" with
  | None => None
  | Some df =>
      if decide ("id" ∉ columns df) then None
      else Some (rows_with_id df target_id)
  end.

(** [df.dropna(subset=[col])]: a column the table lacks is a
    [KeyError]. *)
Definition dropna (df : DataFrame) (col : string) : outcome DataFrame :=
  if decide (col ∈ columns df) then
    Returns (mkFrame (columns df)
               (filter (λ row : gmap string value,
                          notna (default NaN (row !! col))) (rows df)))
  else Raises "KeyError".

(** [get_conditions_for_id] (lines 146-160). *)
Definition get_conditions_for_id (sheets_data : gmap string DataFrame)
  (target_id : value) : outcome (option DataFrame) :=
  match sheets_data !! "conditions" with
  | None => Returns None
  | Some df =>
      if decide ("id" ∉ columns df) then Returns None
      else
        match dropna (rows_with_id df target_id) "condition_mons" with
        | Returns filtered_df => Returns (Some filtered_df)
        | Raises e => Raises e
        end
  end.

(** The rows of a sheet as the combiner scripts read them. *)
Definition cell_of (row : gmap string value) (col : string) : value :=
  default NaN (row !! col).

Definition definition_rows (df : DataFrame) : list definition_row :=
  (λ row, mkDefinition (cell_of row "FDIRs") (cell_of row "id")) <$> rows df.

Definition monitor_rows (df : DataFrame) : list monitor_row :=
  (λ row, mkMonitor (cell_of row "id") (cell_of row "mons")
            (cell_of row "thresholds")) <$> rows df.

Definition condition_rows (df : DataFrame) : list condition_row :=
  (λ row, mkCondition (cell_of row "id") (cell_of row "condition_mons")
            (cell_of row "counts") (cell_of row "response")) <$> rows df.

(** A small workbook with the three sheets. *)
Definition example_definitions_sheet : DataFrame :=
  mkFrame ["FDIRs"; "id"]
    [ {[ "FDIRs" := Str "Star"; "id" := Str "fpu_star" ]} ].

Definition example_monitors_sheet : DataFrame :=
  mkFrame ["id"; "mons"; "thresholds"]
    [ {[ "id" := Str "fpu_star"; "mons" := Str "s1"; "thresholds" := Int 3 ]};
      {[ "id" := Str "fpu_gyro"; "mons" := Str "rate"; "thresholds" := Int 9 ]} ].

Definition example_conditions_sheet : DataFrame :=
  mkFrame ["id"; "condition_mons"; "counts"; "response"]
    [ {[ "id" := Str "fpu_star"; "condition_mons" := Str "s1 > 3";
         "counts" := Int 2; "response" := Str "R1" ]};
      {[ "id" := Str "fpu_star"; "condition_mons" := NaN;
         "counts" := NaN; "response" := NaN ]} ].

Definition example_sheets : gmap string DataFrame :=
  {[ "definitions" := example_definitions_sheet;
     "monitors" := example_monitors_sheet;
     "conditions" := example_conditions_sheet ]}.

End Reader.

(** * The response lookup table ([generate_lookup_table.py]) *)

Module Lookup.
Import Stdlib.Strings.Ascii.
Import Combiner.

(** A row of [response_text.xlsx] with the three columns the script
    reads. *)
Record response_row := mkResponseRow {
  resp_response : value;
  resp_response_text : value;
  resp_recovery_text : value
}.

#[global] Instance response_row_eq_dec : EqDecision response_row.
Proof. solve_decision. Defined.

(** [df.dropna(subset=['response'])] *)
Definition dropna_response (df : list response_row) : list response_row :=
  filter (λ row, notna (resp_response row)) df.

(** [drop_duplicates()]: of equal rows the first is kept. *)
Fixpoint drop_duplicates (df : list response_row) : list response_row :=
  match df with
  | [] => []
  | row :: df' => row :: filter (λ other, other ≠ row) (drop_duplicates df')
  end.

Definition newline : Ascii.ascii := Ascii.ascii_of_nat 10.

(** [.replace('\\n', '\n')]: each backslash followed by [n] becomes a
    line break, scanning from the left. *)
Fixpoint unescape (s : string) : string :=
  match s with
  | EmptyString => EmptyString
  | String c rest =>
      match rest with
      | String c' rest' =>
          if Ascii.eqb c "\"%char && Ascii.eqb c' "n"%char
          then String newline (unescape rest')
          else String c (unescape rest)
      | EmptyString => String c EmptyString
      end
  end.

(** [.split('\n')] *)
Fixpoint split_lines (s : string) : list string :=
  match s with
  | EmptyString => [EmptyString]
  | String c rest =>
      if Ascii.eqb c newline then EmptyString :: split_lines rest
      else match split_lines rest with
           | line :: lines => String c line :: lines
           | [] => [String c EmptyString]
           end
  end.

(** Python's truth value of a cell, after [pd.notna]: the empty text
    and the number zero count as false. *)
Definition has_content (v : value) : bool :=
  match v with
  | NaN => false
  | Str s => negb (bool_decide (s = ""))
  | Int z => negb (bool_decide (z = 0%Z))
  end.

Record response_entry := mkResponseEntry {
  response_text : option string;
  response_text_lines : option (list string);
  recovery_steps : option (list string)
}.

(** The rows of the formatted Excel and CSV tables. *)
Record lookup_row := mkLookupRow {
  lookup_response : value;
  lookup_response_text : string;
  lookup_recovery_steps : string
}.

Section strip.

(** Python's [str.strip], which the embedding takes as given. *)
Variable strip : string → string.

(** [[line.strip() for line in lines if line.strip()]] on the lines of
    the unescaped text (lines 71-72 and 83-84). *)
Definition clean_lines (v : value) : list string :=
  let lines := split_lines (unescape (str v)) in
  strip <$> filter (λ line, strip line ≠ "") lines.

(** The entry built for one row (lines 66-87). *)
Definition entry_of (row : response_row) : response_entry :=
  let text_entry :=
    if has_content (resp_response_text row) then
      let response_text_lines := clean_lines (resp_response_text row) in
      match response_text_lines with
      | [] => (None, None)
      | [line] => (Some line, None)
      | _ => (None, Some response_text_lines)
      end
    else (None, None) in
  let steps_entry :=
    if has_content (resp_recovery_text row) then
      let recovery_steps := clean_lines (resp_recovery_text row) in
      match recovery_steps with
      | [] => None
      | _ => Some recovery_steps
      end
    else None in
  mkResponseEntry text_entry.1 text_entry.2 steps_entry.

(** [clean_lookup_dict] (lines 47-89). *)
Definition clean_lookup_dict (df : list response_row)
  : list (value * response_entry) :=
  let df_clean := dropna_response df in
  let lookup_df := drop_duplicates df_clean in
  foldl (λ d row, dict_set (resp_response row) (entry_of row) d) [] lookup_df.

(** One row of a formatted table, its lines joined by [sep]
    (lines 122-141 with a line break, lines 188-205 with [" | "]). *)
Definition format_row (sep : string) (item : value * response_entry)
  : lookup_row :=
  let response := item.1 in
  let details := item.2 in
  let text :=
    match response_text details with
    | Some text => text
    | None =>
        match response_text_lines details with
        | Some lines => String.concat sep lines
        | None => ""
        end
    end in
  let steps :=
    match recovery_steps details with
    | Some steps => String.concat sep steps
    | None => ""
    end in
  mkLookupRow response text steps.

Definition formatted_rows (df : list response_row) : list lookup_row :=
  format_row (String newline "") <$> clean_lookup_dict df.

Definition csv_rows (df : list response_row) : list lookup_row :=
  format_row " | " <$> clean_lookup_dict df.

(** The cleaned lines of a cell, none for a cell without content. *)
Definition lines_of (v : value) : list string :=
  if has_content v then clean_lines v else [].

End strip.

(** A small response sheet: a response with two lines of text and two
    recovery steps, a row without a response, and a response with one
    line. *)
Definition example_responses : list response_row :=
  [ mkResponseRow (Str "R1") (Str "Safe mode\nentered") (Str "Check power\nReset");
    mkResponseRow NaN (Str "ignored") NaN;
    mkResponseRow (Str "R2") (Str "Gyro off") NaN ].

End Lookup.

(** * Generic facts *)

Lemma lookup_tabulate (f : string → value) (cols : list string) (c : string) :
  tabulate f cols !! c = if decide (c ∈ cols) then Some (f c) else None.
Proof.
  unfold tabulate. induction cols as [|c' cols IH].
  - rewrite fmap_nil, list_to_map_nil, lookup_empty.
    rewrite decide_False; [done|]. by intros ?%elem_of_nil.
  - rewrite fmap_cons, list_to_map_cons.
    destruct (decide (c' = c)) as [->|Hne].
    + rewrite lookup_insert_eq. rewrite decide_True; [done|]. by left.
    + rewrite lookup_insert_ne by done. rewrite IH.
      destruct (decide (c ∈ cols)) as [Hin|Hout].
      * rewrite decide_True; [done|]. by right.
      * rewrite decide_False; [done|].
        intros [->|?]%elem_of_cons; [by apply Hne | by apply Hout].
Qed.

Lemma for_each_from {A S : Type} (I : list A → S → Prop)
    (body : A → S → option S) (xs done : list A) (s : S) :
  I done s →
  (∀ seen x s0, I seen s0 → x ∈ xs →
     ∃ s1, body x s0 = Some s1 ∧ I (seen ++ [x]) s1) →
  ∃ s', for_each xs body s = Some s' ∧ I (done ++ xs) s'.
Proof.
  revert done s. induction xs as [|x xs IH]; intros done s Hs Hstep; simpl.
  - exists s. by rewrite app_nil_r.
  - destruct (Hstep done x s Hs) as (s1 & -> & Hs1); [set_solver|]. simpl.
    destruct (IH (done ++ [x]) s1 Hs1) as (s' & Hrun & Hs').
    { intros seen y s0 H0 Hy. apply Hstep; [done | set_solver]. }
    exists s'. split; [done|]. by rewrite <- app_assoc in Hs'.
Qed.

Lemma for_each_invariant {A S : Type} (I : list A → S → Prop)
    (body : A → S → option S) (xs : list A) (s : S) :
  I [] s →
  (∀ seen x s0, I seen s0 → x ∈ xs →
     ∃ s1, body x s0 = Some s1 ∧ I (seen ++ [x]) s1) →
  ∃ s', for_each xs body s = Some s' ∧ I xs s'.
Proof. intros Hs Hstep. by apply (for_each_from I body xs [] s). Qed.

Lemma filter_none {A : Type} (P : A → Prop) `{∀ x, Decision (P x)}
    (l : list A) :
  (∀ x, x ∈ l → ¬ P x) → filter P l = [].
Proof.
  induction l as [|x l IH]; intros Hno; [done|].
  rewrite filter_cons, decide_False.
  - apply IH. intros y Hy. apply Hno. by right.
  - apply Hno. by left.
Qed.

(** A loop that appends a batch per element builds the concatenation of
    the batches. *)
Lemma foldl_append_bind {A B : Type} (f : A → list B) (l : list A)
    (acc : list B) :
  foldl (λ out x, out ++ f x) acc l = acc ++ (l ≫= f).
Proof.
  revert acc. induction l as [|x l IH]; intros acc; simpl.
  - by rewrite app_nil_r.
  - rewrite IH. by rewrite <- app_assoc.
Qed.

(** * Facts about the differ *)

Module DifferFacts.
Import Differ.

Section frames.
Implicit Types (df : DataFrame) (cols : list string) (r : nat) (c : string).

Lemma loc_lookup df r c (row : gmap string value) :
  rows df !! r = Some row → loc df r c = row !! c.
Proof. unfold loc. by intros ->. Qed.

Lemma loc_beyond df r c : len df ≤ r → loc df r c = None.
Proof.
  unfold loc, len. intros Hr. by rewrite (lookup_ge_None_2 _ _ Hr).
Qed.

Lemma wf_loc_None df r c : wf_frame df → c ∉ columns df → loc df r c = None.
Proof.
  intros [_ Hrows] Hc. unfold loc.
  destruct (rows df !! r) as [row|] eqn:Hr; [simpl|done].
  apply not_elem_of_dom.
  rewrite (proj1 (Forall_lookup _ _) Hrows r row Hr). set_solver.
Qed.

Lemma wf_loc_is_Some df r c :
  wf_frame df → r < len df → c ∈ columns df → is_Some (loc df r c).
Proof.
  intros [_ Hrows] Hr Hc. unfold loc.
  destruct (lookup_lt_is_Some_2 (rows df) r Hr) as [row Hrow].
  rewrite Hrow. simpl. apply elem_of_dom.
  rewrite (proj1 (Forall_lookup _ _) Hrows r row Hrow). set_solver.
Qed.

(** Writing one cell: that cell holds the value, all others are kept. *)
Lemma loc_set_loc df r c v r' c' :
  loc (set_loc df r c v) r' c' =
    if decide (r' = r ∧ c' = c ∧ r < len df) then Some v else loc df r' c'.
Proof.
  unfold loc, set_loc, len. simpl.
  destruct (decide (r' = r)) as [->|Hr].
  - rewrite list_lookup_alter_eq.
    destruct (rows df !! r) as [row|] eqn:Hrow; simpl.
    + apply lookup_lt_Some in Hrow as Hlt.
      destruct (decide (c' = c)) as [->|Hc].
      * rewrite lookup_insert_eq. by rewrite decide_True.
      * rewrite lookup_insert_ne by done. rewrite decide_False; [done|].
        by intros (_ & ? & _).
    + apply lookup_ge_None in Hrow. rewrite decide_False; [done|]. lia.
  - rewrite list_lookup_alter_ne by done. rewrite decide_False; [done|].
    by intros (? & _).
Qed.

Lemma len_set_loc df r c v : len (set_loc df r c v) = len df.
Proof. unfold len, set_loc. simpl. apply length_alter. Qed.

Lemma loc_empty_frame n cols r c :
  loc (empty_frame n cols) r c =
    if decide (r < n ∧ c ∈ cols) then Some NaN else None.
Proof.
  unfold loc, empty_frame. simpl.
  destruct (decide (r < n)) as [Hr|Hr].
  - rewrite lookup_replicate_2 by done. simpl. rewrite lookup_tabulate.
    destruct (decide (c ∈ cols)).
    + by rewrite decide_True.
    + rewrite decide_False; [done|]. by intros [_ ?].
  - rewrite (proj1 (lookup_replicate_None n _ r)) by lia. simpl.
    rewrite decide_False; [done|]. by intros [? _].
Qed.

Lemma len_empty_frame n cols : len (empty_frame n cols) = n.
Proof. unfold len, empty_frame. simpl. apply length_replicate. Qed.

Lemma loc_reindex df cols r c :
  loc (reindex df cols) r c =
    if decide (r < len df ∧ c ∈ cols) then Some (default NaN (loc df r c))
    else None.
Proof.
  unfold loc, reindex, len. simpl. rewrite list_lookup_fmap.
  destruct (rows df !! r) as [row|] eqn:Hrow; simpl.
  - apply lookup_lt_Some in Hrow as Hlt. unfold reindex_row.
    rewrite lookup_tabulate. destruct (decide (c ∈ cols)).
    + by rewrite decide_True.
    + rewrite decide_False; [done|]. by intros [_ ?].
  - apply lookup_ge_None in Hrow. rewrite decide_False; [done|]. lia.
Qed.

Lemma len_reindex df cols : len (reindex df cols) = len df.
Proof. unfold len, reindex. simpl. apply length_fmap. Qed.


Lemma filter_not_elem_self (l : list string) : filter (λ c, c ∉ l) l = [].
Proof.
  assert (∀ k, k ⊆ l → filter (λ c, c ∉ l) k = []) as H.
  { induction k as [|c k IH]; intros Hk; [done|].
    rewrite filter_cons, decide_False.
    - apply IH. intros x Hx. apply Hk. by right.
    - intros Hc. apply Hc, Hk. by left. }
  by apply H.
Qed.

Lemma columns_extend_rows df m : columns (extend_rows df m) = columns df.
Proof.
  unfold extend_rows. case_decide; [|done].
  unfold concat. simpl. rewrite filter_not_elem_self. apply app_nil_r.
Qed.

Lemma len_extend_rows df m : len (extend_rows df m) = len df `max` m.
Proof.
  unfold extend_rows. case_decide; [|lia].
  unfold concat, len in *. simpl.
  rewrite length_fmap, length_app, length_replicate. lia.
Qed.

Lemma loc_extend_rows df m r c :
  wf_frame df →
  loc (extend_rows df m) r c =
    if decide (r < len df `max` m ∧ c ∈ columns df)
    then Some (default NaN (loc df r c)) else None.
Proof.
  intros Hwf. unfold extend_rows. case_decide as Hlt.
  - unfold concat, loc at 1. simpl. rewrite filter_not_elem_self, app_nil_r.
    rewrite list_lookup_fmap. unfold reindex_row.
    destruct (decide (r < len df)) as [Hr|Hr].
    + destruct (lookup_lt_is_Some_2 (rows df) r Hr) as [row Hrow].
      rewrite lookup_app_l by done. rewrite Hrow. simpl.
      rewrite lookup_tabulate, (loc_lookup df r c row Hrow).
      destruct (decide (c ∈ columns df)).
      * rewrite decide_True; [done|]. split; [lia|done].
      * rewrite decide_False; [done|]. by intros [_ ?].
    + rewrite lookup_app_r by (unfold len in Hr; lia).
      rewrite (loc_beyond df r c) by lia. simpl.
      destruct (decide (r < m)) as [Hm|Hm].
      * rewrite lookup_replicate_2 by (unfold len in *; lia). simpl.
        rewrite !lookup_tabulate. destruct (decide (c ∈ columns df)).
        -- rewrite decide_True; [done|]. split; [lia|done].
        -- rewrite decide_False; [done|]. by intros [_ ?].
      * rewrite (proj1 (lookup_replicate_None _ _ _))
          by (unfold len in *; lia).
        simpl. rewrite decide_False; [done|]. lia.
  - destruct (decide (r < len df `max` m ∧ c ∈ columns df)) as [[Hr Hc]|Hno].
    + destruct (wf_loc_is_Some df r c Hwf) as [v Hv]; [lia|done|].
      by rewrite Hv.
    + destruct (decide (c ∈ columns df)).
      * apply loc_beyond. assert (¬ r < len df `max` m) by tauto. lia.
      * by apply wf_loc_None.
Qed.

(** Adding the missing columns one by one. *)

Lemma foldl_add_missing cols df1 df2 :
  foldl (λ dfs col, add_missing col dfs) (df1, df2) cols =
    (foldl (λ d col, ensure_column col d) df1 cols,
     foldl (λ d col, ensure_column col d) df2 cols).
Proof.
  revert df1 df2. induction cols as [|col cols IH]; intros df1 df2; [done|].
  simpl. apply IH.
Qed.

Lemma len_ensure_column col df : len (ensure_column col df) = len df.
Proof.
  unfold ensure_column. case_decide; [|done].
  unfold len, set_column. simpl. apply length_fmap.
Qed.

Lemma elem_of_columns_ensure col df c :
  c ∈ columns (ensure_column col df) ↔ c ∈ columns df ∨ c = col.
Proof.
  unfold ensure_column. case_decide as Hcol.
  - unfold set_column. simpl. rewrite decide_False by done.
    rewrite elem_of_app, list_elem_of_singleton. done.
  - split; [by left|]. by intros [?| ->].
Qed.

Lemma loc_ensure_column col df r c :
  loc (ensure_column col df) r c =
    if decide (r < len df ∧ c = col ∧ col ∉ columns df) then Some NaN
    else loc df r c.
Proof.
  unfold ensure_column. case_decide as Hcol.
  - unfold loc, set_column, len. simpl. rewrite list_lookup_fmap.
    destruct (rows df !! r) as [row|] eqn:Hrow; simpl.
    + apply lookup_lt_Some in Hrow as Hlt.
      destruct (decide (c = col)) as [->|Hc].
      * rewrite lookup_insert_eq. by rewrite decide_True.
      * rewrite lookup_insert_ne by done. rewrite decide_False; [done|].
        by intros (_ & ? & _).
    + apply lookup_ge_None in Hrow. rewrite decide_False; [done|]. lia.
  - rewrite decide_False; [done|]. by intros (_ & _ & ?).
Qed.

Lemma len_foldl_ensure cols df :
  len (foldl (λ d col, ensure_column col d) df cols) = len df.
Proof.
  revert df. induction cols as [|col cols IH]; intros df; [done|].
  simpl. by rewrite IH, len_ensure_column.
Qed.

Lemma loc_foldl_ensure cols df r c :
  loc (foldl (λ d col, ensure_column col d) df cols) r c =
    if decide (r < len df ∧ c ∈ cols ∧ c ∉ columns df) then Some NaN
    else loc df r c.
Proof.
  revert df. induction cols as [|col cols IH]; intros df; simpl.
  - rewrite decide_False; [done|]. intros (_ & Hc & _). by inversion Hc.
  - rewrite IH, len_ensure_column, loc_ensure_column.
    pose proof (elem_of_columns_ensure col df c) as Hcols.
    repeat case_decide; try done; exfalso;
      rewrite ?elem_of_cons in *; intuition (subst; tauto).
Qed.

(** ** Alignment (lines 38-63) *)

(** The cell an aligned table shows at a position of the common grid:
    the source cell where the source has one, the empty marker elsewhere. *)
Lemma loc_align_one df cols m r c :
  wf_frame df →
  loc (reindex (foldl (λ d col, ensure_column col d) (extend_rows df m) cols)
         cols) r c =
    if decide (r < len df `max` m ∧ c ∈ cols)
    then Some (default NaN (loc df r c)) else None.
Proof.
  intros Hwf.
  rewrite loc_reindex, len_foldl_ensure, len_extend_rows.
  destruct (decide (r < len df `max` m ∧ c ∈ cols)) as [[Hr Hc]|]; [|done].
  f_equal. rewrite loc_foldl_ensure, len_extend_rows, columns_extend_rows.
  rewrite loc_extend_rows by done.
  destruct (decide (c ∈ columns df)) as [Hin|Hout].
  - rewrite decide_False by (by intros (_ & _ & ?)).
    by rewrite decide_True.
  - rewrite decide_True by done. simpl.
    by rewrite (wf_loc_None df r c).
Qed.

Lemma align_frames_spec cols df1 df2 :
  wf_frame df1 → wf_frame df2 →
  let n := len df1 `max` len df2 in
  let a := (align_frames cols df1 df2).1 in
  let b := (align_frames cols df1 df2).2 in
  (columns a = cols ∧ len a = n ∧
   ∀ r c, loc a r c =
     if decide (r < n ∧ c ∈ cols) then Some (default NaN (loc df1 r c))
     else None) ∧
  (columns b = cols ∧ len b = n ∧
   ∀ r c, loc b r c =
     if decide (r < n ∧ c ∈ cols) then Some (default NaN (loc df2 r c))
     else None).
Proof.
  intros Hwf1 Hwf2 n a b. subst a b. unfold align_frames.
  rewrite foldl_add_missing. simpl. split.
  - split; [done|]. split.
    + rewrite len_reindex, len_foldl_ensure, len_extend_rows. lia.
    + intros r c. rewrite loc_align_one by done.
      replace (len df1 `max` (len df1 `max` len df2)) with n by lia. done.
  - split; [done|]. split.
    + rewrite len_reindex, len_foldl_ensure, len_extend_rows. lia.
    + intros r c. rewrite loc_align_one by done.
      replace (len df2 `max` (len df1 `max` len df2)) with n by lia. done.
Qed.

(** ** The classification loops (lines 66-81) *)

Lemma classify_column_spec df1 df2 col d0 :
  len d0 = len df1 →
  (∀ r, r < len df1 → is_Some (loc df1 r col) ∧ is_Some (loc df2 r col)) →
  ∃ d, classify_column df1 df2 col d0 = Some d ∧
       columns d = columns d0 ∧ len d = len d0 ∧
       ∀ r c, loc d r c =
         if decide (r < len df1 ∧ c = col)
         then Some (Str (classify (default NaN (loc df1 r col))
                                  (default NaN (loc df2 r col))))
         else loc d0 r c.
Proof.
  intros Hlen Hcells. unfold classify_column.
  pose (I := λ (seen : list nat) (d : DataFrame),
    columns d = columns d0 ∧ len d = len d0 ∧
    ∀ r c, loc d r c =
      if decide (r ∈ seen ∧ c = col)
      then Some (Str (classify (default NaN (loc df1 r col))
                               (default NaN (loc df2 r col))))
      else loc d0 r c).
  destruct (for_each_invariant I (classify_cell df1 df2 col)
              (seq 0 (len df1)) d0) as (d & Hrun & Hcols & Hlend & Hloc).
  - split; [done|]. split; [done|]. intros r c.
    rewrite decide_False; [done|]. intros [Hr _]. by inversion Hr.
  - intros seen r d (Hc & Hl & Hlocs) Hr.
    apply elem_of_seq in Hr as [_ Hr]. simpl in Hr.
    destruct (Hcells r Hr) as [[v1 Hv1] [v2 Hv2]].
    unfold classify_cell. rewrite Hv1, Hv2. simpl. eexists. split; [done|].
    split; [done|]. split; [by rewrite len_set_loc|].
    intros r' c'. rewrite loc_set_loc, Hlocs, Hl, Hlen.
    destruct (decide (r' = r ∧ c' = col ∧ r < len df1)) as [(-> & -> & _)|Hno].
    + rewrite Hv1, Hv2. simpl. rewrite decide_True; [done|].
      split; [|done]. apply elem_of_app. right. by left.
    + destruct (decide (r' ∈ seen ∧ c' = col)) as [[Hin ->]|Hout].
      * rewrite decide_True; [done|]. split; [|done].
        apply elem_of_app. by left.
      * rewrite decide_False; [done|]. intros [Hin ->]. apply Hout.
        split; [|done]. apply elem_of_app in Hin as [?|Hin]; [done|].
        apply list_elem_of_singleton in Hin as ->. exfalso. by apply Hno.
  - exists d. split; [done|]. split; [done|]. split; [done|].
    intros r c. rewrite Hloc.
    destruct (decide (r < len df1 ∧ c = col)) as [[Hr ->]|Hno].
    + rewrite decide_True; [done|]. split; [|done].
      apply elem_of_seq. lia.
    + rewrite decide_False; [done|]. intros [Hr ->]. apply Hno.
      split; [|done]. apply elem_of_seq in Hr. lia.
Qed.

Lemma classify_all_spec df1 df2 d0 :
  len d0 = len df1 →
  (∀ r c, r < len df1 → c ∈ columns df1 →
     is_Some (loc df1 r c) ∧ is_Some (loc df2 r c)) →
  ∃ d, classify_all df1 df2 d0 = Some d ∧
       columns d = columns d0 ∧ len d = len d0 ∧
       ∀ r c, loc d r c =
         if decide (r < len df1 ∧ c ∈ columns df1)
         then Some (Str (classify (default NaN (loc df1 r c))
                                  (default NaN (loc df2 r c))))
         else loc d0 r c.
Proof.
  intros Hlen Hcells. unfold classify_all.
  pose (I := λ (seen : list string) (d : DataFrame),
    columns d = columns d0 ∧ len d = len d0 ∧
    ∀ r c, loc d r c =
      if decide (r < len df1 ∧ c ∈ seen)
      then Some (Str (classify (default NaN (loc df1 r c))
                               (default NaN (loc df2 r c))))
      else loc d0 r c).
  apply (for_each_invariant I).
  - split; [done|]. split; [done|]. intros r c.
    rewrite decide_False; [done|]. intros [_ Hc]. by inversion Hc.
  - intros seen col d (Hc & Hl & Hlocs) Hcol.
    destruct (classify_column_spec df1 df2 col d) as (d' & -> & Hc' & Hl' & Hloc').
    { by rewrite Hl. }
    { intros r Hr. by apply Hcells. }
    exists d'. split; [done|]. split; [congruence|]. split; [congruence|].
    intros r c. rewrite Hloc', Hlocs.
    destruct (decide (r < len df1 ∧ c = col)) as [[Hr ->]|Hno].
    + rewrite decide_True; [done|]. split; [done|].
      apply elem_of_app. right. by left.
    + destruct (decide (r < len df1 ∧ c ∈ seen)) as [[Hr Hin]|Hout].
      * rewrite decide_True; [done|]. split; [done|].
        apply elem_of_app. by left.
      * rewrite decide_False; [done|]. intros [Hr Hin]. apply Hout.
        split; [done|]. apply elem_of_app in Hin as [?|Hin]; [done|].
        apply list_elem_of_singleton in Hin as ->. exfalso. by apply Hno.
Qed.

(** ** The figures (lines 86-94) *)

Lemma sum_Z_app (l k : list Z) : sum_Z (l ++ k) = (sum_Z l + sum_Z k)%Z.
Proof.
  unfold sum_Z. induction l as [|x l IH]; simpl; [done|]. rewrite IH. lia.
Qed.

Lemma sum_Z_indicator {A : Type} (P : A → Prop) `{∀ x, Decision (P x)}
    (l : list A) :
  sum_Z ((λ x, if decide (P x) then 1%Z else 0%Z) <$> l) =
    Z.of_nat (length (filter P l)).
Proof.
  unfold sum_Z. induction l as [|x l IH]; [done|].
  rewrite fmap_cons, filter_cons. simpl. rewrite IH.
  destruct (decide (P x)); simpl; lia.
Qed.

Lemma fmap_rows_seq {B : Type} df (f : gmap string value → B) (g : nat → B) :
  (∀ r row, rows df !! r = Some row → f row = g r) →
  f <$> rows df = g <$> seq 0 (len df).
Proof.
  intros Hfg. apply list_eq. intros r. rewrite !list_lookup_fmap.
  destruct (rows df !! r) as [row|] eqn:Hrow; simpl.
  - apply lookup_lt_Some in Hrow as Hlt.
    rewrite lookup_seq_lt by done. simpl. f_equal. by apply Hfg.
  - apply lookup_ge_None in Hrow. by rewrite lookup_seq_ge.
Qed.

Lemma column_count_loc df c :
  column_count df c =
    Z.of_nat (length (filter (λ r, loc df r c = Some (Str DIFFERENT))
                        (seq 0 (len df)))).
Proof.
  unfold column_count.
  rewrite (fmap_rows_seq df _ (λ r, is_different (loc df r c))).
  - unfold is_different. apply (sum_Z_indicator (λ r, loc df r c = _)).
  - intros r row Hrow. by rewrite (loc_lookup df r c row Hrow).
Qed.

(** The counter is the number of positions that read [DIFFERENT]. *)
Lemma count_different_positions df :
  count_different df =
    Z.of_nat (length (filter (λ p, loc df p.1 p.2 = Some (Str DIFFERENT))
                        (positions df))).
Proof.
  unfold count_different, positions.
  induction (columns df) as [|c cols IH]; [done|].
  rewrite fmap_cons. change (sum_Z (?x :: ?l)) with (x + sum_Z l)%Z.
  rewrite IH, column_count_loc, bind_cons, filter_app, length_app.
  rewrite Nat2Z.inj_add. f_equal. f_equal.
  clear IH. generalize (seq 0 (len df)). intros l.
  induction l as [|r l IHl]; [done|].
  rewrite fmap_cons, !filter_cons. simpl.
  destruct (decide (loc df r c = Some (Str DIFFERENT))); simpl; by rewrite IHl.
Qed.

Lemma length_positions df :
  Z.of_nat (length (positions df)) = size df.
Proof.
  unfold positions, size.
  induction (columns df) as [|c cols IH]; [simpl; lia|].
  rewrite bind_cons, length_app, length_fmap, length_seq.
  rewrite Nat2Z.inj_add, IH. cbn [length]. lia.
Qed.

Lemma count_different_bounds df : (0 ≤ count_different df ≤ size df)%Z.
Proof.
  rewrite count_different_positions, <- length_positions.
  pose proof (length_filter (λ p, loc df p.1 p.2 = Some (Str DIFFERENT))
                (positions df)).
  lia.
Qed.

Lemma elem_of_positions df r c :
  (r, c) ∈ positions df ↔ r < len df ∧ c ∈ columns df.
Proof.
  unfold positions. rewrite list_elem_of_bind. split.
  - intros (col & Hin & Hcol). apply list_elem_of_fmap in Hin as (r' & Heq & Hr).
    inversion Heq; subst. apply elem_of_seq in Hr. split; [lia|done].
  - intros [Hr Hc]. exists c. split; [|done].
    apply list_elem_of_fmap. exists r. split; [done|]. apply elem_of_seq. lia.
Qed.

(** ** [compare_excel_files] as a whole *)

Lemma compare_excel_files_spec cols df1 df2 :
  wf_frame df1 → wf_frame df2 →
  ∃ res, compare_excel_files cols df1 df2 = Some res ∧
    aligned1 res = (align_frames cols df1 df2).1 ∧
    aligned2 res = (align_frames cols df1 df2).2 ∧
    columns (differences res) = cols ∧
    len (differences res) = len df1 `max` len df2 ∧
    (∀ r c, loc (differences res) r c =
       if decide (r < len df1 `max` len df2 ∧ c ∈ cols)
       then Some (Str (classify (default NaN (loc df1 r c))
                                (default NaN (loc df2 r c))))
       else None) ∧
    total_cells res = size (differences res) ∧
    different_cells res = count_different (differences res) ∧
    same_cells res = (total_cells res - different_cells res)%Z ∧
    difference_percentage res =
      percentage (different_cells res) (total_cells res).
Proof.
  intros Hwf1 Hwf2.
  destruct (align_frames_spec cols df1 df2 Hwf1 Hwf2)
    as [(Hca & Hla & Ha) (Hcb & Hlb & Hb)].
  unfold compare_excel_files.
  destruct (align_frames cols df1 df2) as [a b]. simpl in *.
  destruct (classify_all_spec a b (empty_frame (len a) (columns a)))
    as (d & Hrun & Hcd & Hld & Hd).
  - apply len_empty_frame.
  - intros r c Hr Hc. rewrite Hla in Hr. rewrite Hca in Hc.
    rewrite Ha, Hb. rewrite !decide_True by done. by split.
  - rewrite Hrun. simpl. eexists. split; [done|]. simpl.
    split; [done|]. split; [done|]. split; [by rewrite Hcd|].
    split; [by rewrite Hld, len_empty_frame|].
    split; [|done].
    intros r c. rewrite Hd, loc_empty_frame, Hla, Hca.
    destruct (decide (r < len df1 `max` len df2 ∧ c ∈ cols)); [|done].
    by rewrite Ha, Hb, !decide_True.
Qed.

Lemma classify_comm v1 v2 : classify v1 v2 = classify v2 v1.
Proof.
  unfold classify. destruct (isna v1), (isna v2); simpl; try done.
  destruct (decide (str v1 = str v2)) as [Heq|Hne].
  - by rewrite !bool_decide_eq_true_2.
  - by rewrite !bool_decide_eq_false_2.
Qed.

Lemma classify_refl v : classify v v = SAME.
Proof.
  unfold classify. destruct (isna v); simpl; [done|].
  by rewrite bool_decide_eq_true_2.
Qed.

Lemma listing_NoDup cols df1 df2 : listing cols df1 df2 → NoDup cols.
Proof. unfold listing. intros ->. apply NoDup_elements. Qed.

Lemma listing_elem_of cols df1 df2 c :
  listing cols df1 df2 → c ∈ cols ↔ c ∈ columns df1 ∨ c ∈ columns df2.
Proof.
  unfold listing, column_union. intros ->.
  rewrite elem_of_elements, elem_of_union, !elem_of_list_to_set. done.
Qed.

Lemma NoDup_positions df : NoDup (columns df) → NoDup (positions df).
Proof.
  unfold positions. intros Hnd. apply NoDup_bind; [| |done].
  - intros c1 c2 p _ _ Hp1 Hp2.
    apply list_elem_of_fmap in Hp1 as (? & -> & _).
    apply list_elem_of_fmap in Hp2 as (? & Heq & _). by inversion Heq.
  - intros c _. apply NoDup_fmap_2; [|apply NoDup_seq].
    intros r1 r2 Heq. by inversion Heq.
Qed.

(** The figures in terms of the matrix, and what the percentage is. *)
Lemma figures_spec cols df1 df2 res :
  compare_excel_files cols df1 df2 = Some res →
  total_cells res =
    (Z.of_nat (len (differences res)) *
     Z.of_nat (length (columns (differences res))))%Z ∧
  different_cells res =
    Z.of_nat (length (filter
                (λ p, loc (differences res) p.1 p.2 = Some (Str DIFFERENT))
                (positions (differences res)))) ∧
  same_cells res = (total_cells res - different_cells res)%Z ∧
  (0 ≤ different_cells res ≤ total_cells res)%Z ∧
  difference_percentage res =
    if decide (total_cells res = 0%Z) then None
    else Some (QArith_base.Qmult
                 (QArith_base.Qdiv
                    (QArith_base.inject_Z (different_cells res))
                    (QArith_base.inject_Z (total_cells res)))
                 (QArith_base.inject_Z 100)).
Proof.
  unfold compare_excel_files. destruct (align_frames cols df1 df2) as [a b].
  destruct (classify_all a b _) as [d|]; [|done]. simpl.
  intros [= <-]. simpl. split; [done|].
  split; [apply count_different_positions|]. split; [done|].
  split; [apply count_different_bounds|done].
Qed.

(** The percentage has no guard: whenever the grid has no cell, no
    number is reported. *)
Lemma no_cells_no_percentage cols df1 df2 res :
  compare_excel_files cols df1 df2 = Some res →
  total_cells res = 0%Z → difference_percentage res = None.
Proof.
  intros Hrun Hzero.
  destruct (figures_spec cols df1 df2 res Hrun) as (_ & _ & _ & _ & ->).
  by rewrite decide_True.
Qed.

(** ** The properties of the differ *)

(** C1: for every two tables, the comparison returns, and at every
    position of the aligned grid (the larger row count by the listed
    columns) the two aligned tables hold cells
    [value_a] and [value_b] and the matrix holds a verdict that is [SAME]
    when both cells are empty, [DIFFERENT] when exactly one is empty, and,
    when neither is empty, [SAME] exactly when [str value_a = str value_b]
    and [DIFFERENT] otherwise. *)
Theorem cell_classification cols df1 df2 :
  wf_frame df1 → wf_frame df2 →
  ∃ res, compare_excel_files cols df1 df2 = Some res ∧
    len (aligned1 res) = len df1 `max` len df2 ∧
    columns (aligned1 res) = cols ∧
    ∀ r c, r < len (aligned1 res) → c ∈ columns (aligned1 res) →
      ∃ value_a value_b verdict,
        loc (aligned1 res) r c = Some value_a ∧
        loc (aligned2 res) r c = Some value_b ∧
        loc (differences res) r c = Some (Str verdict) ∧
        (isna value_a = true → isna value_b = true → verdict = SAME) ∧
        (isna value_a ≠ isna value_b → verdict = DIFFERENT) ∧
        (isna value_a = false → isna value_b = false →
           (verdict = SAME ↔ str value_a = str value_b) ∧
           (verdict = DIFFERENT ↔ str value_a ≠ str value_b)).
Proof.
  intros Hwf1 Hwf2.
  destruct (compare_excel_files_spec cols df1 df2 Hwf1 Hwf2)
    as (res & Hrun & Ha1 & Ha2 & _ & _ & Hd & _).
  destruct (align_frames_spec cols df1 df2 Hwf1 Hwf2)
    as [(Hca & Hla & Ha) (Hcb & Hlb & Hb)].
  exists res. split; [done|]. rewrite Ha1, Ha2, Hca, Hla.
  split; [done|]. split; [done|]. intros r c Hr Hc.
  exists (default NaN (loc df1 r c)), (default NaN (loc df2 r c)).
  eexists. rewrite Ha, Hb, Hd, !decide_True by done.
  split; [done|]. split; [done|]. split; [done|].
  generalize (default NaN (loc df1 r c)) (default NaN (loc df2 r c)).
  intros va vb. unfold classify.
  destruct (isna va), (isna vb); simpl; try done.
  split; [done|]. split; [done|]. intros _ _.
  destruct (decide (str va = str vb)) as [Heq|Hne].
  - rewrite bool_decide_eq_true_2 by done. by split.
  - rewrite bool_decide_eq_false_2 by done. by split.
Qed.

(** The text "5" against the number 5: the same. *)
Example text_against_number : classify (Str "5") (Int 5) = SAME.
Proof. reflexivity. Qed.

Example empty_against_empty : classify NaN NaN = SAME.
Proof. reflexivity. Qed.

Example empty_against_text : classify NaN (Str "y") = DIFFERENT.
Proof. reflexivity. Qed.

(** C2: the aligned tables and the matrix all have
    [max (len A) (len B)] rows and the columns [cols], a duplicate-free
    listing of the union of the two column sets; an aligned table shows
    the source cell wherever the source has one and an empty cell at
    every other position (the rows past the source's end, and the columns
    the source lacks); the matrix has a cell exactly at the positions of
    that grid, each position once. *)
Theorem alignment_shape cols df1 df2 :
  wf_frame df1 → wf_frame df2 → listing cols df1 df2 →
  ∃ res, compare_excel_files cols df1 df2 = Some res ∧
    let n := len df1 `max` len df2 in
    (len (aligned1 res) = n ∧ len (aligned2 res) = n ∧
     len (differences res) = n) ∧
    (columns (aligned1 res) = cols ∧ columns (aligned2 res) = cols ∧
     columns (differences res) = cols ∧ NoDup cols ∧
     ∀ c, c ∈ cols ↔ c ∈ columns df1 ∨ c ∈ columns df2) ∧
    (∀ r c, r < len df1 → c ∈ columns df1 →
       is_Some (loc df1 r c) ∧ loc (aligned1 res) r c = loc df1 r c) ∧
    (∀ r c, r < len df2 → c ∈ columns df2 →
       is_Some (loc df2 r c) ∧ loc (aligned2 res) r c = loc df2 r c) ∧
    (∀ r c, r < n → c ∈ cols → len df1 ≤ r ∨ c ∉ columns df1 →
       loc (aligned1 res) r c = Some NaN) ∧
    (∀ r c, r < n → c ∈ cols → len df2 ≤ r ∨ c ∉ columns df2 →
       loc (aligned2 res) r c = Some NaN) ∧
    (∀ r c, is_Some (loc (differences res) r c) ↔ r < n ∧ c ∈ cols) ∧
    NoDup (positions (differences res)) ∧
    (∀ r c, (r, c) ∈ positions (differences res) ↔ r < n ∧ c ∈ cols) ∧
    total_cells res = (Z.of_nat n * Z.of_nat (length cols))%Z.
Proof.
  intros Hwf1 Hwf2 Hcols.
  destruct (compare_excel_files_spec cols df1 df2 Hwf1 Hwf2)
    as (res & Hrun & Ha1 & Ha2 & Hcd & Hld & Hd & Htot & _).
  destruct (align_frames_spec cols df1 df2 Hwf1 Hwf2)
    as [(Hca & Hla & Ha) (Hcb & Hlb & Hb)].
  pose proof (listing_NoDup _ _ _ Hcols) as Hnd.
  pose proof (λ c, listing_elem_of cols df1 df2 c Hcols) as Hin.
  exists res. split; [done|]. rewrite Ha1, Ha2. simpl.
  split; [done|]. split; [done|].
  assert (∀ df r c (a : DataFrame),
    wf_frame df → (c ∈ columns df → c ∈ cols) →
    len df ≤ len df1 `max` len df2 →
    (∀ r c, loc a r c =
       if decide (r < len df1 `max` len df2 ∧ c ∈ cols)
       then Some (default NaN (loc df r c)) else None) →
    r < len df → c ∈ columns df →
    is_Some (loc df r c) ∧ loc a r c = loc df r c) as Hkeep.
  { intros df r c a Hwf Hsub Hle Hloc Hr Hc.
    destruct (wf_loc_is_Some df r c Hwf Hr Hc) as [v Hv].
    split; [by exists v|]. rewrite Hloc, Hv, decide_True; [done|].
    split; [lia|by apply Hsub]. }
  assert (∀ df r c (a : DataFrame),
    wf_frame df →
    (∀ r c, loc a r c =
       if decide (r < len df1 `max` len df2 ∧ c ∈ cols)
       then Some (default NaN (loc df r c)) else None) →
    r < len df1 `max` len df2 → c ∈ cols →
    len df ≤ r ∨ c ∉ columns df → loc a r c = Some NaN) as Hpad.
  { intros df r c a Hwf Hloc Hr Hc Hout.
    rewrite Hloc, decide_True by done. f_equal.
    destruct Hout as [Hge|Hno].
    - by rewrite loc_beyond.
    - by rewrite wf_loc_None. }
  split. { intros r c. apply Hkeep; [done| |lia|done].
           intros ?. apply Hin. by left. }
  split. { intros r c. apply Hkeep; [done| |lia|done].
           intros ?. apply Hin. by right. }
  split. { intros r c. by apply Hpad. }
  split. { intros r c. by apply Hpad. }
  split.
  { intros r c. rewrite Hd.
    destruct (decide (r < len df1 `max` len df2 ∧ c ∈ cols)) as [|Hno].
    - split; [done|]. by eexists.
    - split; [by intros [? ?]|done]. }
  split. { apply NoDup_positions. by rewrite Hcd. }
  split. { intros r c. by rewrite elem_of_positions, Hld, Hcd. }
  rewrite Htot. unfold size. by rewrite Hld, Hcd.
Qed.

(** C5: the matrix of [B] against [A] reads the same as the matrix of
    [A] against [B] at every row index and column name, whatever the
    order in which each run lists the columns. *)
Theorem matrix_symmetric cols cols' df1 df2 :
  wf_frame df1 → wf_frame df2 →
  listing cols df1 df2 → listing cols' df2 df1 →
  ∃ ab ba,
    compare_excel_files cols df1 df2 = Some ab ∧
    compare_excel_files cols' df2 df1 = Some ba ∧
    ∀ r c, loc (differences ab) r c = loc (differences ba) r c.
Proof.
  intros Hwf1 Hwf2 Hcols Hcols'.
  destruct (compare_excel_files_spec cols df1 df2 Hwf1 Hwf2)
    as (ab & Hab & _ & _ & _ & _ & Hdab & _).
  destruct (compare_excel_files_spec cols' df2 df1 Hwf2 Hwf1)
    as (ba & Hba & _ & _ & _ & _ & Hdba & _).
  exists ab, ba. split; [done|]. split; [done|].
  intros r c. rewrite Hdab, Hdba, (classify_comm _ (default NaN (loc df1 r c))).
  pose proof (listing_elem_of cols df1 df2 c Hcols) as H1.
  pose proof (listing_elem_of cols' df2 df1 c Hcols') as H2.
  replace (len df2 `max` len df1) with (len df1 `max` len df2) by lia.
  repeat case_decide; try done; exfalso; tauto.
Qed.

(** C3: two sheets without data rows give a grid of no cells; the
    counts are all zero and the percentage is then no number: the
    division by the zero total is not guarded, where the specification
    asks for 0. *)
Theorem percentage_without_cells :
  ∃ res,
    compare_excel_files ["id"; "val"] header_only empty_sheet = Some res ∧
    total_cells res = 0%Z ∧ different_cells res = 0%Z ∧
    same_cells res = 0%Z ∧
    difference_percentage res = None ∧
    difference_percentage res ≠ Some (QArith_base.inject_Z 0).
Proof. eexists. split; [by vm_compute|]. by vm_compute. Qed.

(** A table against itself: every cell of the matrix is [SAME], nothing
    is counted as different, and the percentage is 0 as soon as the
    table has a cell. *)
Lemma self_comparison cols df :
  wf_frame df →
  ∃ res, compare_excel_files cols df df = Some res ∧
    (∀ r c v, loc (differences res) r c = Some v → v = Str SAME) ∧
    different_cells res = 0%Z ∧
    (total_cells res ≠ 0%Z →
       ∃ q, difference_percentage res = Some q ∧
            QArith_base.Qeq q (QArith_base.inject_Z 0)) ∧
    (total_cells res = 0%Z → difference_percentage res = None).
Proof.
  intros Hwf.
  destruct (compare_excel_files_spec cols df df Hwf Hwf)
    as (res & Hrun & _ & _ & _ & _ & Hd & _).
  destruct (figures_spec cols df df res Hrun) as (_ & Hdiff & _ & _ & Hpct).
  assert (∀ r c v, loc (differences res) r c = Some v → v = Str SAME) as Hsame.
  { intros r c v. rewrite Hd, classify_refl.
    destruct (decide (r < len df `max` len df ∧ c ∈ cols)); [|done].
    by intros [= <-]. }
  assert (different_cells res = 0%Z) as Hzero.
  { rewrite Hdiff.
    rewrite filter_none; [done|].
    intros [r c] _ Hdifferent. simpl in Hdifferent.
    by apply Hsame in Hdifferent. }
  exists res. split; [done|]. split; [done|]. split; [done|].
  rewrite Hpct, Hzero. split.
  - intros Hne. rewrite decide_False by done. eexists. split; [done|].
    unfold QArith_base.Qeq, QArith_base.Qdiv, QArith_base.Qmult. simpl. lia.
  - intros ->. by rewrite decide_True.
Qed.

(** C4: a header-only sheet against itself: no cell of the matrix
    differs, and the percentage is no number, where the specification
    asks for 0. *)
Theorem self_comparison_without_cells :
  ∃ res,
    compare_excel_files ["id"; "val"] header_only header_only = Some res ∧
    (∀ r c v, loc (differences res) r c = Some v → v = Str SAME) ∧
    total_cells res = 0%Z ∧
    difference_percentage res = None ∧
    difference_percentage res ≠ Some (QArith_base.inject_Z 0).
Proof.
  eexists. split; [by vm_compute|]. split; [|by vm_compute].
  intros r c v Hv. by vm_compute in Hv.
Qed.

(** ** The properties at the tables of the specification's example *)

Lemma wf_table_a : wf_frame table_a.
Proof.
  split; [apply (bool_decide_unpack _); by vm_compute|].
  repeat constructor; apply (bool_decide_unpack _); by vm_compute.
Qed.

Lemma wf_table_b : wf_frame table_b.
Proof.
  split; [apply (bool_decide_unpack _); by vm_compute|].
  repeat constructor; apply (bool_decide_unpack _); by vm_compute.
Qed.

Lemma listing_a_b : listing ["id"; "val"] table_a table_b.
Proof. unfold listing. vm_compute. first [reflexivity | apply perm_swap]. Qed.

Lemma listing_b_a : listing ["val"; "id"] table_b table_a.
Proof. unfold listing. vm_compute. first [reflexivity | apply perm_swap]. Qed.

(** One row against two: the second row's [val] cell has a verdict. *)
Lemma cell_classification_witness :
  wf_frame table_a ∧ wf_frame table_b ∧
  ∃ res verdict,
    compare_excel_files ["id"; "val"] table_a table_b = Some res ∧
    loc (differences res) 1 "val" = Some (Str verdict).
Proof.
  split; [exact wf_table_a|]. split; [exact wf_table_b|].
  destruct (cell_classification ["id"; "val"] table_a table_b
              wf_table_a wf_table_b) as (res & Hrun & Hlen & Hcols & Hcells).
  destruct (Hcells 1 "val") as (va & vb & verdict & _ & _ & Hd & _).
  - rewrite Hlen. vm_compute. lia.
  - rewrite Hcols. apply list_elem_of_further, list_elem_of_here.
  - exists res, verdict. split; [exact Hrun|exact Hd].
Defined.

(** The second row's [val] cell is empty on one side and "y" on the
    other, so it is [DIFFERENT]. *)
Example second_row_differs :
  ∃ res, compare_excel_files ["id"; "val"] table_a table_b = Some res ∧
         len (aligned1 res) = 2 ∧
         loc (aligned1 res) 1 "val" = Some NaN ∧
         loc (aligned2 res) 1 "val" = Some (Str "y") ∧
         loc (differences res) 1 "val" = Some (Str DIFFERENT).
Proof. eexists. split; [by vm_compute|]. by vm_compute. Qed.

Lemma alignment_shape_witness :
  wf_frame table_a ∧ wf_frame table_b ∧
  listing ["id"; "val"] table_a table_b ∧
  ∃ res, compare_excel_files ["id"; "val"] table_a table_b = Some res ∧
         len (aligned1 res) = 2 ∧
         loc (aligned1 res) 0 "val" = Some (Str "x") ∧
         loc (aligned1 res) 1 "val" = Some NaN.
Proof.
  split; [exact wf_table_a|]. split; [exact wf_table_b|].
  split; [exact listing_a_b|].
  destruct (alignment_shape ["id"; "val"] table_a table_b
              wf_table_a wf_table_b listing_a_b)
    as (res & Hrun & (Hlen & _) & _ & Hkeep & _ & Hpad & _).
  exists res. split; [exact Hrun|]. split; [exact Hlen|]. split.
  - destruct (Hkeep 0 "val") as [_ ->]; [vm_compute; lia| |reflexivity].
    apply list_elem_of_further, list_elem_of_here.
  - apply Hpad; [vm_compute; lia| |left; vm_compute; lia].
    apply list_elem_of_further, list_elem_of_here.
Defined.

Lemma matrix_symmetric_witness :
  wf_frame table_a ∧ wf_frame table_b ∧
  listing ["id"; "val"] table_a table_b ∧
  listing ["val"; "id"] table_b table_a ∧
  ∃ ab ba,
    compare_excel_files ["id"; "val"] table_a table_b = Some ab ∧
    compare_excel_files ["val"; "id"] table_b table_a = Some ba ∧
    loc (differences ab) 1 "val" = loc (differences ba) 1 "val".
Proof.
  split; [exact wf_table_a|]. split; [exact wf_table_b|].
  split; [exact listing_a_b|]. split; [exact listing_b_a|].
  destruct (matrix_symmetric ["id"; "val"] ["val"; "id"] table_a table_b
              wf_table_a wf_table_b listing_a_b listing_b_a)
    as (ab & ba & Hab & Hba & Hsym).
  exists ab, ba. split; [exact Hab|]. split; [exact Hba|]. apply Hsym.
Defined.
End frames.
End DifferFacts.

(** * Facts about the combiner *)

Module CombinerFacts.
Import Combiner.

Section selection.
Implicit Types (monitors : list monitor_row) (conditions : list condition_row).
Implicit Types (k : value).

Lemma elem_of_select_monitors monitors k m :
  m ∈ select_monitors monitors k ↔ m ∈ monitors ∧ py_eq (mon_id m) k = true.
Proof.
  unfold select_monitors. rewrite list_elem_of_filter, Is_true_true. tauto.
Qed.


Lemma select_conditions_sublist conditions k :
  select_conditions conditions k `sublist_of` conditions.
Proof.
  unfold select_conditions, dropna_condition_mons.
  etrans; apply sublist_filter.
Qed.

Lemma elem_of_select_conditions conditions k c :
  c ∈ select_conditions conditions k ↔
    c ∈ conditions ∧ py_eq (cond_id c) k = true ∧
    isna (condition_mons c) = false.
Proof.
  unfold select_conditions, dropna_condition_mons, notna.
  rewrite !list_elem_of_filter, Is_true_true, Is_true_true, negb_true_iff.
  tauto.
Qed.

(** Dropping the rows without a condition text after the selection by
    key gives what dropping them before it gives. *)
Lemma select_conditions_dropna_first conditions k :
  select_conditions conditions k =
    filter (λ cond_row, py_eq (cond_id cond_row) k)
      (dropna_condition_mons conditions).
Proof.
  unfold select_conditions, dropna_condition_mons.
  induction conditions as [|c l IH]; [done|].
  rewrite !filter_cons.
  destruct (decide (py_eq (cond_id c) k)),
           (decide (notna (condition_mons c)));
    rewrite ?filter_cons, ?decide_True, ?decide_False by done;
    by rewrite IH.
Qed.

End selection.

(** ** [combine_excel_data] *)

Section combine.
Context {V : Type}.
Implicit Types (d : list (value * V)) (k : value) (v : V).

Lemma dict_get_dict_set d k v k' :
  dict_get k' (dict_set k v d) =
    if decide (k = k') then Some v else dict_get k' d.
Proof.
  induction d as [|[k0 v0] d IH]; simpl.
  - by destruct (decide (k = k')).
  - destruct (decide (k0 = k)) as [->|Hne]; simpl.
    + by destruct (decide (k = k')).
    + destruct (decide (k0 = k')) as [->|Hne'].
      * by rewrite decide_False by done.
      * done.
Qed.

Lemma elem_of_dict_set d k v (item : value * V) :
  item ∈ dict_set k v d → item = (k, v) ∨ item ∈ d.
Proof.
  induction d as [|[k0 v0] d IH]; simpl.
  - intros ->%list_elem_of_singleton. by left.
  - destruct (decide (k0 = k)) as [->|Hne].
    + intros [->|Hin]%elem_of_cons; [by left|right; by right].
    + intros [->|Hin]%elem_of_cons; [right; by left|].
      destruct (IH Hin) as [->|?]; [by left|right; by right].
Qed.

End combine.

Lemma combine_excel_data_snoc definitions row monitors conditions :
  combine_excel_data (definitions ++ [row]) monitors conditions =
    process_fdir monitors conditions
      (combine_excel_data definitions monitors conditions) row.
Proof. unfold combine_excel_data. by rewrite foldl_app. Qed.


Lemma elem_of_combine definitions monitors conditions name data :
  (name, data) ∈ combine_excel_data definitions monitors conditions →
  ∃ row, row ∈ definitions ∧ FDIRs row = name ∧
         data = fdir_record monitors conditions row.
Proof.
  induction definitions as [|row definitions IH] using rev_ind.
  - by intros ?%elem_of_nil.
  - rewrite combine_excel_data_snoc. unfold process_fdir.
    intros [[= -> ->]|Hin]%elem_of_dict_set.
    + exists row. split; [|done]. apply elem_of_app. right. by left.
    + destruct (IH Hin) as (r & Hr & Hname & Hdata).
      exists r. split; [|done]. apply elem_of_app. by left.
Qed.


(** ** Flattening *)

Lemma save_combined_data_bind data :
  save_combined_data data = data ≫= (λ item, csv_rows_of item.1 item.2).
Proof. unfold save_combined_data. by rewrite foldl_append_bind. Qed.

Lemma item_or_blank_nil {A : Type} (i : nat) (field : A → value) :
  item_or_blank [] i field = Str "".
Proof. unfold item_or_blank. by rewrite lookup_nil. Qed.



Lemma length_rows_of_id id_to_fdir monitors conditions k :
  length (rows_of_id id_to_fdir monitors conditions k) =
    (length (select_monitors monitors k)
       `max` length (select_conditions conditions k)) `max` 1.
Proof. unfold rows_of_id. by rewrite length_fmap, length_seq. Qed.

Lemma rows_of_id_labels id_to_fdir monitors conditions k row :
  row ∈ rows_of_id id_to_fdir monitors conditions k →
  row_id row = k ∧ row_FDIRs row = fdir_name_of id_to_fdir k.
Proof. unfold rows_of_id. by intros (i & -> & _)%list_elem_of_fmap. Qed.

Lemma rows_of_id_inhabited id_to_fdir monitors conditions k :
  ∃ row, row ∈ rows_of_id id_to_fdir monitors conditions k.
Proof.
  pose proof (length_rows_of_id id_to_fdir monitors conditions k) as Hlen.
  destruct (rows_of_id id_to_fdir monitors conditions k) as [|row rows].
  - simpl in Hlen. lia.
  - exists row. by left.
Qed.

(** ** Sorting the keys *)

Lemma py_sorted_perm (l sorted_ids : list value) :
  py_sorted l = Some sorted_ids → sorted_ids ≡ₚ l.
Proof.
  unfold py_sorted. destruct l as [|x [|y l]]; try by intros [= <-].
  destruct (mapM as_text (x :: y :: l)) as [texts|] eqn:Htexts.
  - intros [= <-].
    rewrite merge_sort_Permutation.
    rewrite (mapM_fmap_Some_inv as_text Str _ _ Htexts); [done|].
    intros v t Hv. destruct v; simpl in Hv; congruence.
  - destruct (mapM as_int (x :: y :: l)) as [ints|] eqn:Hints; [|done].
    intros [= <-].
    rewrite merge_sort_Permutation.
    rewrite (mapM_fmap_Some_inv as_int Int _ _ Hints); [done|].
    intros v t Hv. destruct v; simpl in Hv; congruence.
Qed.

Lemma py_sorted_text (l : list value) :
  Forall (λ v, is_Some (as_text v)) l → is_Some (py_sorted l).
Proof.
  intros Htext. unfold py_sorted. destruct l as [|x [|y l]]; [done..|].
  destruct (mapM_is_Some_2 as_text (x :: y :: l) Htext) as [texts ->].
  done.
Qed.

Lemma py_sorted_int (l : list value) :
  Forall (λ v, is_Some (as_int v)) l → is_Some (py_sorted l).
Proof.
  intros Hint. unfold py_sorted. destruct l as [|x [|y l]]; [done..|].
  destruct (mapM as_text (x :: y :: l)); [done|].
  destruct (mapM_is_Some_2 as_int (x :: y :: l) Hint) as [ints ->].
  done.
Qed.

Lemma py_sorted_short (l : list value) :
  length l ≤ 1 → is_Some (py_sorted l).
Proof. destruct l as [|x [|y l]]; [done..|]. simpl. lia. Qed.

(** ** [create_simple_combined_excel] *)

Lemma create_simple_combined_excel_bind definitions monitors conditions :
  create_simple_combined_excel definitions monitors conditions =
    sorted_ids ← py_sorted (elements (all_ids monitors conditions));
    Some (sorted_ids ≫=
            rows_of_id
              (fix_mismatches (all_ids monitors conditions)
                 (id_to_fdir_of definitions))
              monitors conditions).
Proof.
  unfold create_simple_combined_excel.
  destruct (py_sorted _) as [ids|]; [|done]. simpl.
  by rewrite foldl_append_bind.
Qed.

Lemma elem_of_all_ids monitors conditions k :
  k ∈ all_ids monitors conditions ↔
    k ∈ mon_id <$> monitors ∨ (notna k ∧ k ∈ cond_id <$> conditions).
Proof.
  unfold all_ids.
  rewrite elem_of_union, !elem_of_list_to_set, list_elem_of_filter. tauto.
Qed.

Lemma key_in_children_all_ids k monitors conditions :
  key_in_children k monitors conditions → k ∈ all_ids monitors conditions.
Proof.
  intros [Hk Hin]. apply elem_of_all_ids. tauto.
Qed.

Lemma comparable_keys_returns definitions monitors conditions :
  comparable_keys monitors conditions →
  is_Some (create_simple_combined_excel definitions monitors conditions).
Proof.
  intros Hkeys. rewrite create_simple_combined_excel_bind.
  assert (is_Some (py_sorted (elements (all_ids monitors conditions))))
    as [ids ->]; [|done].
  destruct Hkeys as [Hone|[Htext|Hint]].
  - by apply py_sorted_short.
  - apply py_sorted_text, Forall_forall. intros k Hk.
    apply Htext. by apply elem_of_elements.
  - apply py_sorted_int, Forall_forall. intros k Hk.
    apply Hint. by apply elem_of_elements.
Qed.

(** Whatever the run returns has rows for every key of the children, and
    every row bears the label the mapping gives its key. *)
Lemma combined_rows_labels definitions monitors conditions combined_rows :
  create_simple_combined_excel definitions monitors conditions
    = Some combined_rows →
  let id_to_fdir :=
    fix_mismatches (all_ids monitors conditions) (id_to_fdir_of definitions) in
  (∀ k, k ∈ all_ids monitors conditions →
        ∃ row, row ∈ combined_rows ∧ row_id row = k) ∧
  (∀ row, row ∈ combined_rows →
          row_id row ∈ all_ids monitors conditions ∧
          row_FDIRs row = fdir_name_of id_to_fdir (row_id row)).
Proof.
  rewrite create_simple_combined_excel_bind.
  destruct (py_sorted _) as [ids|] eqn:Hsorted; [|done].
  apply py_sorted_perm in Hsorted. simpl. intros [= <-]. split.
  - intros k Hk.
    destruct (rows_of_id_inhabited
                (fix_mismatches (all_ids monitors conditions)
                   (id_to_fdir_of definitions)) monitors conditions k)
      as [row Hrow].
    exists row. split.
    + apply list_elem_of_bind. exists k. split; [done|].
      rewrite Hsorted. by apply elem_of_elements.
    + by apply rows_of_id_labels in Hrow as [? _].
  - intros row (k & Hrow & Hk)%list_elem_of_bind.
    rewrite Hsorted in Hk. apply elem_of_elements in Hk.
    by apply rows_of_id_labels in Hrow as [-> ->].
Qed.

(** ** The key-to-name mapping *)

Lemma lookup_foldl_id_to_fdir definitions (m : gmap value value) k :
  is_Some (foldl (λ id_to_fdir def_row,
                    <[def_id def_row := FDIRs def_row]> id_to_fdir)
             m definitions !! k) ↔
    is_Some (m !! k) ∨ k ∈ def_id <$> definitions.
Proof.
  revert m. induction definitions as [|row definitions IH]; intros m; simpl.
  - split; [by left|]. intros [?|Hin]; [done|]. by apply elem_of_nil in Hin.
  - rewrite IH, lookup_insert_is_Some', elem_of_cons. split.
    + intros [[Heq|?]|?]; [right; left; by symmetry|by left|right; by right].
    + intros [?|[Heq|?]]; [left; by right|left; left; by symmetry|by right].
Qed.

Lemma id_to_fdir_of_is_Some definitions k :
  is_Some (id_to_fdir_of definitions !! k) ↔ key_in_parent k definitions.
Proof.
  unfold id_to_fdir_of, key_in_parent.
  rewrite lookup_foldl_id_to_fdir, lookup_empty, is_Some_alt. tauto.
Qed.

Lemma lookup_fix_mismatches (ids : gset value) (m : gmap value value) k :
  fix_mismatches ids m !! k =
    if decide (k = Str "fpu_tracker" ∧ Str "fpu_tracker" ∈ ids)
    then Some (Str "Tracker")
    else if decide (k = Str "fpu_bat" ∧ Str "fpu_bat" ∈ ids ∧
                    is_Some (m !! Str "fpu_batt"))
         then Some (Str "Battery")
         else m !! k.
Proof.
  unfold fix_mismatches.
  destruct (decide (k = Str "fpu_tracker")) as [Htracker|Htracker],
           (decide (k = Str "fpu_bat")) as [Hbat|Hbat];
    subst; try discriminate;
    repeat case_decide;
    repeat (rewrite lookup_insert_eq || rewrite lookup_insert_ne by congruence);
    try done; exfalso; tauto.
Qed.

(** ** The properties of the combiner *)




(** The names of a dict after an assignment. *)
Lemma dict_set_names {V : Type} (d : list (value * V)) k v :
  (dict_set k v d).*1 = if decide (k ∈ d.*1) then d.*1 else d.*1 ++ [k].
Proof.
  induction d as [|[k0 v0] d IH]; [done|].
  cbn [dict_set]. destruct (decide (k0 = k)) as [->|Hne].
  - rewrite !fmap_cons. cbn [fst]. rewrite decide_True; [done|]. by left.
  - rewrite !fmap_cons, IH. cbn [fst].
    destruct (decide (k ∈ d.*1)) as [Hin|Hout].
    + rewrite decide_True; [done|]. by right.
    + rewrite decide_False; [done|].
      intros [->|?]%elem_of_cons; [by apply Hne|by apply Hout].
Qed.






(** C7: the condition rows selected for a key are the rows of the
    conditions sheet that carry the key and a condition text, each as
    often and in the order it stands there; selecting after dropping the
    rows without a condition text gives the same list; no combined
    record and no flattened row holds an empty condition text. *)
Theorem conditions_without_text_dropped conditions k :
  (∀ c, c ∈ select_conditions conditions k ↔
        c ∈ conditions ∧ py_eq (cond_id c) k = true ∧
        isna (condition_mons c) = false) ∧
  select_conditions conditions k `sublist_of` conditions ∧
  select_conditions conditions k =
    filter (λ c, py_eq (cond_id c) k = true ∧ isna (condition_mons c) = false)
      conditions ∧
  select_conditions conditions k =
    filter (λ c, py_eq (cond_id c) k) (dropna_condition_mons conditions) ∧
  (∀ definitions monitors name data entry,
     (name, data) ∈ combine_excel_data definitions monitors conditions →
     entry ∈ fdir_conditions data → isna (condition entry) = false) ∧
  (∀ definitions monitors row,
     row ∈ save_combined_data
             (combine_excel_data definitions monitors conditions) →
     isna (csv_Condition row) = false) ∧
  (∀ definitions monitors combined_rows row,
     create_simple_combined_excel definitions monitors conditions
       = Some combined_rows →
     row ∈ combined_rows → isna (row_condition_mons row) = false).
Proof.
  assert (∀ (l : list condition_row) i,
    (∀ c, c ∈ l → isna (condition_mons c) = false) →
    isna (item_or_blank l i condition_mons) = false) as Hblank.
  { intros l i Hl. unfold item_or_blank.
    destruct (l !! i) as [c|] eqn:Hc; [|done].
    apply Hl. by eapply list_elem_of_lookup_2. }
  assert (∀ definitions monitors name data entry,
     (name, data) ∈ combine_excel_data definitions monitors conditions →
     entry ∈ fdir_conditions data → isna (condition entry) = false) as Hrec.
  { intros definitions monitors name data entry Hin Hentry.
    apply elem_of_combine in Hin as (row & _ & _ & ->). simpl in Hentry.
    apply list_elem_of_fmap in Hentry as (c & -> & Hc). simpl.
    by apply elem_of_select_conditions in Hc as (_ & _ & ?). }
  split; [intros c; apply elem_of_select_conditions|].
  split; [apply select_conditions_sublist|]. split.
  { unfold select_conditions, dropna_condition_mons.
    rewrite list_filter_filter. apply list_filter_iff. intros c.
    unfold notna. rewrite !Is_true_true, negb_true_iff. tauto. }
  split; [apply select_conditions_dropna_first|].
  split; [done|]. split.
  - intros definitions monitors row.
    rewrite save_combined_data_bind.
    intros ([name data] & Hrow & Hin)%list_elem_of_bind. simpl in Hrow.
    unfold csv_rows_of in Hrow.
    destruct (truthy (fdir_monitors data) || truthy (fdir_conditions data)).
    + apply list_elem_of_fmap in Hrow as (i & -> & _). simpl.
      unfold item_or_blank.
      destruct (fdir_conditions data !! i) as [entry|] eqn:Hentry; [|done].
      eapply Hrec; [done|]. by eapply list_elem_of_lookup_2.
    + by apply list_elem_of_singleton in Hrow as ->.
  - intros definitions monitors combined_rows row.
    rewrite create_simple_combined_excel_bind.
    destruct (py_sorted _) as [ids|]; [|done]. simpl. intros [= <-].
    intros (key & Hrow & _)%list_elem_of_bind. unfold rows_of_id in Hrow.
    apply list_elem_of_fmap in Hrow as (i & -> & _). simpl.
    apply Hblank. intros c Hc.
    by apply elem_of_select_conditions in Hc as (_ & _ & ?).
Qed.

(** The label of a key that neither the parent nor a hard-coded entry
    names is the placeholder. *)
Lemma fdir_name_of_unknown definitions monitors conditions k :
  ¬ key_in_parent k definitions → ¬ hardcoded_key k definitions →
  fdir_name_of
    (fix_mismatches (all_ids monitors conditions) (id_to_fdir_of definitions))
    k = Str (String.append "Unknown_" (str k)).
Proof.
  intros Hparent Hhard. unfold fdir_name_of.
  rewrite lookup_fix_mismatches.
  rewrite decide_False.
  - rewrite decide_False.
    + rewrite <- id_to_fdir_of_is_Some, <- eq_None_not_Some in Hparent.
      by rewrite Hparent.
    + intros (-> & _ & Hbatt). apply Hhard. right. split; [done|].
      by apply id_to_fdir_of_is_Some.
  - intros [-> _]. apply Hhard. by left.
Qed.

(** C8, as the code has it: when the keys of the children can be
    compared with one another, a key of the children that the parent
    lacks and that is neither [fpu_tracker] nor ([fpu_bat] while the
    parent has [fpu_batt]) has rows in the flattened output, all labelled
    [Unknown_<key>]. *)
Theorem unknown_label_unless_hardcoded definitions monitors conditions k :
  comparable_keys monitors conditions →
  ¬ hardcoded_key k definitions →
  unknown_label_rule definitions monitors conditions k.
Proof.
  intros Htext Hhard Hchild Hparent. unfold labelled.
  destruct (comparable_keys_returns definitions monitors conditions Htext)
    as [combined_rows Hrun].
  destruct (combined_rows_labels _ _ _ _ Hrun) as [Hrows Hlabels].
  exists combined_rows. split; [done|]. split.
  - apply Hrows. by apply key_in_children_all_ids.
  - intros row Hrow <-. destruct (Hlabels row Hrow) as [_ ->].
    by apply fdir_name_of_unknown.
Qed.

(** C8 read without exception fails: a monitor with the key
    [fpu_tracker], which no definition has, is labelled [Tracker]. *)
Lemma unknown_label_rule_fails :
  ¬ unknown_label_rule []
      [mkMonitor (Str "fpu_tracker") (Str "trk") (Int 1)] []
      (Str "fpu_tracker").
Proof.
  intros Hrule. destruct Hrule as (combined_rows & Hrun & _ & Hlabel).
  - split; [done|]. left. by left.
  - by intros ?%elem_of_nil.
  - vm_compute in Hrun. injection Hrun as <-.
    specialize (Hlabel _ (list_elem_of_here _ _) eq_refl). discriminate Hlabel.
Qed.

(** C10: a child key [fpu_bat], when the parent has [fpu_batt], is
    looked up as [Battery], and a child key [fpu_tracker] is looked up as
    [Tracker] whatever the parent holds; every table the script returns
    has rows for the key and labels them so, and it returns one whenever
    the child keys can be compared with one another. *)
Theorem hardcoded_labels definitions monitors conditions :
  let id_to_fdir :=
    fix_mismatches (all_ids monitors conditions) (id_to_fdir_of definitions) in
  (key_in_children (Str "fpu_bat") monitors conditions →
   key_in_parent (Str "fpu_batt") definitions →
   fdir_name_of id_to_fdir (Str "fpu_bat") = Str "Battery" ∧
   (∀ combined_rows,
      create_simple_combined_excel definitions monitors conditions
        = Some combined_rows →
      (∃ row, row ∈ combined_rows ∧ row_id row = Str "fpu_bat") ∧
      (∀ row, row ∈ combined_rows → row_id row = Str "fpu_bat" →
              row_FDIRs row = Str "Battery")) ∧
   (comparable_keys monitors conditions →
      labelled definitions monitors conditions (Str "fpu_bat")
        (Str "Battery"))) ∧
  (key_in_children (Str "fpu_tracker") monitors conditions →
   fdir_name_of id_to_fdir (Str "fpu_tracker") = Str "Tracker" ∧
   (∀ combined_rows,
      create_simple_combined_excel definitions monitors conditions
        = Some combined_rows →
      (∃ row, row ∈ combined_rows ∧ row_id row = Str "fpu_tracker") ∧
      (∀ row, row ∈ combined_rows → row_id row = Str "fpu_tracker" →
              row_FDIRs row = Str "Tracker")) ∧
   (comparable_keys monitors conditions →
      labelled definitions monitors conditions (Str "fpu_tracker")
        (Str "Tracker"))).
Proof.
  assert (∀ k name,
    key_in_children k monitors conditions →
    fdir_name_of
      (fix_mismatches (all_ids monitors conditions)
         (id_to_fdir_of definitions)) k = name →
    (∀ combined_rows,
       create_simple_combined_excel definitions monitors conditions
         = Some combined_rows →
       (∃ row, row ∈ combined_rows ∧ row_id row = k) ∧
       (∀ row, row ∈ combined_rows → row_id row = k →
               row_FDIRs row = name)) ∧
    (comparable_keys monitors conditions →
       labelled definitions monitors conditions k name)) as Hany.
  { intros k name Hchild Hname.
    assert (∀ combined_rows,
      create_simple_combined_excel definitions monitors conditions
        = Some combined_rows →
      (∃ row, row ∈ combined_rows ∧ row_id row = k) ∧
      (∀ row, row ∈ combined_rows → row_id row = k →
              row_FDIRs row = name)) as Hrows.
    { intros combined_rows Hrun.
      destruct (combined_rows_labels _ _ _ _ Hrun) as [Hhas Hlabels]. split.
      - apply Hhas. by apply key_in_children_all_ids.
      - intros row Hrow <-. destruct (Hlabels row Hrow) as [_ ->]. done. }
    split; [done|]. intros Htext.
    destruct (comparable_keys_returns definitions monitors conditions Htext)
      as [combined_rows Hrun].
    exists combined_rows. split; [done|]. by apply Hrows. }
  simpl. split.
  - intros Hchild Hparent.
    assert (fdir_name_of
              (fix_mismatches (all_ids monitors conditions)
                 (id_to_fdir_of definitions)) (Str "fpu_bat")
            = Str "Battery") as Hname.
    { unfold fdir_name_of. rewrite lookup_fix_mismatches.
      rewrite decide_False by (by intros [? _]).
      rewrite decide_True; [done|]. split; [done|].
      split; [by apply key_in_children_all_ids|].
      by apply id_to_fdir_of_is_Some. }
    split; [done|]. by apply Hany.
  - intros Hchild.
    assert (fdir_name_of
              (fix_mismatches (all_ids monitors conditions)
                 (id_to_fdir_of definitions)) (Str "fpu_tracker")
            = Str "Tracker") as Hname.
    { unfold fdir_name_of. rewrite lookup_fix_mismatches.
      rewrite decide_True; [done|]. split; [done|].
      by apply key_in_children_all_ids. }
    split; [done|]. by apply Hany.
Qed.

(** ** The properties at the example sheets *)

Lemma example_comparable_keys :
  comparable_keys example_monitors example_conditions.
Proof.
  right. left. intros k Hk%elem_of_elements. vm_compute in Hk.
  repeat (apply elem_of_cons in Hk as [->|Hk]; [by eexists|]).
  by apply elem_of_nil in Hk.
Qed.

Lemma example_gyro_in_children :
  key_in_children (Str "fpu_gyro") example_monitors example_conditions.
Proof.
  split; [done|]. left. simpl. do 4 apply list_elem_of_further.
  apply list_elem_of_here.
Qed.

Lemma example_gyro_not_in_parent :
  ¬ key_in_parent (Str "fpu_gyro") example_definitions.
Proof.
  unfold key_in_parent. simpl. intros H.
  repeat (apply elem_of_cons in H as [H|H]; [discriminate H|]).
  by apply elem_of_nil in H.
Qed.

Lemma example_gyro_not_hardcoded :
  ¬ hardcoded_key (Str "fpu_gyro") example_definitions.
Proof. intros [H|[H _]]; discriminate H. Qed.

Lemma example_bat_in_children :
  key_in_children (Str "fpu_bat") example_monitors example_conditions.
Proof.
  split; [done|]. left. simpl. apply list_elem_of_further, list_elem_of_here.
Qed.

Lemma example_tracker_in_children :
  key_in_children (Str "fpu_tracker") example_monitors example_conditions.
Proof.
  split; [done|]. left. simpl. do 3 apply list_elem_of_further.
  apply list_elem_of_here.
Qed.

Lemma example_batt_in_parent :
  key_in_parent (Str "fpu_batt") example_definitions.
Proof. unfold key_in_parent. simpl. apply list_elem_of_here. Qed.


Lemma example_names_text :
  Forall (λ d, is_Some (as_text (FDIRs d))) example_definitions.
Proof. repeat constructor; by eexists. Qed.



(** The [fpu_star] row without a condition text is not selected. *)
Lemma conditions_without_text_dropped_witness :
  mkCondition (Str "fpu_star") NaN NaN NaN ∈ example_conditions ∧
  mkCondition (Str "fpu_star") NaN NaN NaN
    ∉ select_conditions example_conditions (Str "fpu_star").
Proof.
  split; [apply list_elem_of_further, list_elem_of_here|].
  intros Hin.
  destruct (conditions_without_text_dropped example_conditions
              (Str "fpu_star")) as [Hiff _].
  apply Hiff in Hin as (_ & _ & Hna). discriminate Hna.
Defined.


Lemma unknown_label_unless_hardcoded_witness :
  comparable_keys example_monitors example_conditions ∧
  ¬ hardcoded_key (Str "fpu_gyro") example_definitions ∧
  key_in_children (Str "fpu_gyro") example_monitors example_conditions ∧
  ¬ key_in_parent (Str "fpu_gyro") example_definitions ∧
  labelled example_definitions example_monitors example_conditions
    (Str "fpu_gyro") (Str "Unknown_fpu_gyro").
Proof.
  split; [exact example_comparable_keys|].
  split; [exact example_gyro_not_hardcoded|].
  split; [exact example_gyro_in_children|].
  split; [exact example_gyro_not_in_parent|].
  exact (unknown_label_unless_hardcoded example_definitions example_monitors
           example_conditions (Str "fpu_gyro") example_comparable_keys
           example_gyro_not_hardcoded example_gyro_in_children
           example_gyro_not_in_parent).
Defined.

Lemma hardcoded_labels_witness :
  key_in_children (Str "fpu_bat") example_monitors example_conditions ∧
  key_in_parent (Str "fpu_batt") example_definitions ∧
  key_in_children (Str "fpu_tracker") example_monitors example_conditions ∧
  comparable_keys example_monitors example_conditions ∧
  labelled example_definitions example_monitors example_conditions
    (Str "fpu_bat") (Str "Battery") ∧
  labelled example_definitions example_monitors example_conditions
    (Str "fpu_tracker") (Str "Tracker").
Proof.
  split; [exact example_bat_in_children|].
  split; [exact example_batt_in_parent|].
  split; [exact example_tracker_in_children|].
  split; [exact example_comparable_keys|].
  destruct (hardcoded_labels example_definitions example_monitors
              example_conditions) as [Hbat Htracker].
  split.
  - apply (Hbat example_bat_in_children example_batt_in_parent).
    exact example_comparable_keys.
  - apply (Htracker example_tracker_in_children). exact example_comparable_keys.
Defined.

End CombinerFacts.

(** * Further generic facts *)

(** A loop that may raise but, on these elements, appends a batch per
    element. *)
Lemma for_each_append {A B : Type} (body : A → list B → option (list B))
    (g : A → list B) (xs : list A) (acc : list B) :
  (∀ x acc', x ∈ xs → body x acc' = Some (acc' ++ g x)) →
  for_each xs body acc = Some (acc ++ (xs ≫= g)).
Proof.
  revert acc. induction xs as [|x xs IH]; intros acc Hbody; simpl.
  - by rewrite app_nil_r.
  - rewrite (Hbody x acc) by (by left). simpl.
    rewrite IH by (intros y acc' Hy; apply Hbody; by right).
    by rewrite <- app_assoc.
Qed.

Lemma bind_cons_perm {A B : Type} (f : A → B) (g : A → list B) (l : list A) :
  l ≫= (λ x, f x :: g x) ≡ₚ (f <$> l) ++ (l ≫= g).
Proof.
  induction l as [|x l IH]; [done|].
  rewrite !bind_cons, fmap_cons, IH. simpl.
  constructor. rewrite !app_assoc. apply Permutation_app_tail.
  apply Permutation_app_comm.
Qed.

(** Visiting a grid column by column or row by row reaches the same
    positions. *)
Lemma grid_transpose_perm {A B : Type} (rs : list A) (cs : list B) :
  (cs ≫= λ c, (λ r, (r, c)) <$> rs) ≡ₚ (rs ≫= λ r, (λ c, (r, c)) <$> cs).
Proof.
  induction cs as [|c cs IH].
  - simpl. induction rs as [|r rs IHr]; [done|]. by rewrite bind_cons.
  - rewrite bind_cons, IH.
    rewrite <- (bind_cons_perm (λ r, (r, c)) (λ r, (λ c, (r, c)) <$> cs) rs).
    done.
Qed.

Lemma bind_filter_fmap {A B : Type} (P : A → Prop) `{∀ x, Decision (P x)}
    (f : A → B) (l : list A) :
  l ≫= (λ x, if decide (P x) then [f x] else []) = f <$> filter P l.
Proof.
  induction l as [|x l IH]; [done|].
  rewrite bind_cons, filter_cons, IH. by destruct (decide (P x)).
Qed.

Lemma bind_pairs {A B C : Type} (h : A → B → list C) (rs : list A)
    (cs : list B) :
  (rs ≫= λ r, cs ≫= h r) =
    (rs ≫= λ r, (λ c, (r, c)) <$> cs) ≫= (λ p, h p.1 p.2).
Proof.
  induction rs as [|r rs IH]; [done|].
  rewrite !bind_cons, bind_app, IH. f_equal.
  by rewrite list_fmap_bind.
Qed.

Lemma filter_ext_elem_of {A : Type} (P Q : A → Prop)
    `{∀ x, Decision (P x)} `{∀ x, Decision (Q x)} (l : list A) :
  (∀ x, x ∈ l → P x ↔ Q x) → filter P l = filter Q l.
Proof.
  induction l as [|x l IH]; intros Hext; [done|].
  rewrite !filter_cons, IH by (intros y Hy; apply Hext; by right).
  destruct (decide (P x)) as [HP|HP], (decide (Q x)) as [HQ|HQ]; try done;
    exfalso; apply (Hext x) in HP || apply (Hext x) in HQ; try done; by left.
Qed.

Lemma for_each_app {A S : Type} (xs ys : list A) (body : A → S → option S)
    (s : S) :
  for_each (xs ++ ys) body s = for_each xs body s ≫= for_each ys body.
Proof.
  revert s. induction xs as [|x xs IH]; intros s; simpl; [done|].
  destruct (body x s) as [s'|]; simpl; [apply IH|done].
Qed.

Lemma fmap_seq_lookup {A B : Type} (f : A → B) (g : nat → B) (l : list A) :
  (∀ i x, l !! i = Some x → g i = f x) →
  f <$> l = g <$> seq 0 (length l).
Proof.
  intros Hfg. apply list_eq. intros i. rewrite !list_lookup_fmap.
  destruct (l !! i) as [x|] eqn:Hx; simpl.
  - apply lookup_lt_Some in Hx as Hlt.
    rewrite lookup_seq_lt by done. simpl. f_equal. symmetry. by apply Hfg.
  - apply lookup_ge_None in Hx. by rewrite lookup_seq_ge.
Qed.

(** A loop that appends a block per element and stops at the first
    element without one. *)
Lemma for_each_blocks {A B : Type} (block : A → option (list B))
    (xs : list A) (acc : list B) :
  for_each xs (λ x out, b ← block x; Some (out ++ b)) acc =
    blocks ← mapM block xs; Some (acc ++ concat blocks).
Proof.
  revert acc. induction xs as [|x xs IH]; intros acc; simpl.
  - by rewrite app_nil_r.
  - destruct (block x) as [b|]; simpl; [|done]. rewrite IH.
    destruct (mapM block xs) as [blocks|]; simpl; [|done].
    by rewrite <- app_assoc.
Qed.

Lemma filter_fmap_comm {A B : Type} (f : A → B) (P : B → Prop)
    `{∀ y, Decision (P y)} (l : list A) :
  filter P (f <$> l) = f <$> filter (λ x, P (f x)) l.
Proof.
  induction l as [|x l IH]; [done|].
  rewrite fmap_cons, !filter_cons, IH. by destruct (decide (P (f x))).
Qed.

(** * Facts about the comparison workbook *)

Module WorkbookFacts.
Import Differ Workbook DifferFacts.

(** The row the summary writes for a position. *)
Lemma summary_loops df1 df2 d n cols (va vb vd : nat → string → value) :
  len df1 = n → columns df1 = cols →
  (∀ r c, r < n → c ∈ cols →
     loc df1 r c = Some (va r c) ∧ loc df2 r c = Some (vb r c) ∧
     loc d r c = Some (vd r c)) →
  for_each (seq 0 (len df1))
    (λ df_row rows,
       for_each (columns df1) (summarise_cell df1 df2 d df_row) rows) [] =
  Some ((λ p, mkSummaryRow (Int (Z.of_nat p.1 + 1)) (Str p.2)
                (shown (va p.1 p.2)) (shown (vb p.1 p.2)))
          <$> filter (λ p, vd p.1 p.2 = Str DIFFERENT) (row_major n cols)).
Proof.
  intros Hn Hc Hcells. rewrite Hn, Hc. clear Hn Hc.
  pose (h := λ (r : nat) (c : string),
    if decide (vd r c = Str DIFFERENT)
    then [mkSummaryRow (Int (Z.of_nat r + 1)) (Str c)
            (shown (va r c)) (shown (vb r c))]
    else []).
  rewrite (for_each_append _ (λ r, cols ≫= h r)).
  - simpl. f_equal. rewrite bind_pairs. unfold row_major.
    rewrite <- (bind_filter_fmap (λ p, vd p.1 p.2 = Str DIFFERENT)).
    subst h. reflexivity.
  - intros r acc Hr. apply elem_of_seq in Hr as [_ Hr]. simpl in Hr.
    apply for_each_append. intros c acc' Hc.
    destruct (Hcells r c Hr Hc) as (Ha & Hb & Hd).
    unfold summarise_cell, h. rewrite Hd. simpl.
    destruct (decide (vd r c = Str DIFFERENT)).
    + by rewrite Ha, Hb.
    + by rewrite app_nil_r.
Qed.

Lemma row_major_perm d : positions d ≡ₚ row_major (len d) (columns d).
Proof. unfold positions, row_major. apply grid_transpose_perm. Qed.

Lemma elem_of_row_major n cols r c :
  (r, c) ∈ row_major n cols ↔ r < n ∧ c ∈ cols.
Proof.
  unfold row_major. rewrite list_elem_of_bind. split.
  - intros (r' & Hin & Hr). apply list_elem_of_fmap in Hin as (c' & Heq & Hc).
    inversion Heq; subst. apply elem_of_seq in Hr. split; [lia|done].
  - intros [Hr Hc]. exists r. split; [|apply elem_of_seq; lia].
    apply list_elem_of_fmap. by exists c.
Qed.


Lemma differences_summary_closed a b d :
  len d = len a → columns d = columns a →
  (∀ r c, r < len a → c ∈ columns a →
     is_Some (loc a r c) ∧ is_Some (loc b r c) ∧ is_Some (loc d r c)) →
  differences_summary a b d =
    Some (if decide (0 < count_different d)%Z
          then Some
            ((λ p, mkSummaryRow (Int (Z.of_nat p.1 + 1)) (Str p.2)
                     (shown (default NaN (loc a p.1 p.2)))
                     (shown (default NaN (loc b p.1 p.2))))
               <$> filter (λ p, loc d p.1 p.2 = Some (Str DIFFERENT))
                     (row_major (len d) (columns d)))
          else None).
Proof.
  intros Hlen Hcols Hcells. unfold differences_summary.
  destruct (decide (0 < count_different d)%Z); [|done].
  rewrite (summary_loops a b d (len a) (columns a)
             (λ r c, default NaN (loc a r c))
             (λ r c, default NaN (loc b r c))
             (λ r c, default NaN (loc d r c))); [|done|done|].
  - simpl. do 3 f_equal. rewrite Hlen, Hcols. apply filter_ext_elem_of.
    intros [r c] [Hr Hc]%elem_of_row_major. simpl.
    destruct (Hcells r c Hr Hc) as (_ & _ & [v ->]). simpl.
    split; [by intros ->|by intros [= ->]].
  - intros r c Hr Hc.
    destruct (Hcells r c Hr Hc) as ([va ->] & [vb ->] & [vd ->]). done.
Qed.

Lemma str_Int_nonempty z : str (Int z) ≠ "".
Proof.
  simpl. unfold NilZero.string_of_int.
  destruct (Z.to_int z) as [d|d]; [|done].
  unfold NilZero.string_of_uint. by destruct d.
Qed.

Lemma shown_differ va vb :
  classify va vb = DIFFERENT → va ≠ Str "" → vb ≠ Str "" →
  shown va ≠ shown vb.
Proof.
  unfold classify, shown, notna.
  destruct va as [|s|x], vb as [|t|y]; simpl; try done;
    repeat case_bool_decide; try done; intros _ Ha Hb [= Heq];
    try congruence.
  all: try (by eapply str_Int_nonempty).
  all: try (symmetry in Heq; by eapply str_Int_nonempty).
Qed.


(** What the comparison hands to the workbook: three tables of one
    shape, with a cell at every position. *)
Lemma comparison_total cols df1 df2 :
  wf_frame df1 → wf_frame df2 →
  ∃ res, compare_excel_files cols df1 df2 = Some res ∧
    len (differences res) = len (aligned1 res) ∧
    columns (differences res) = columns (aligned1 res) ∧
    len (aligned1 res) = len df1 `max` len df2 ∧
    columns (aligned1 res) = cols ∧
    different_cells res = count_different (differences res) ∧
    ∀ r c, r < len (aligned1 res) → c ∈ columns (aligned1 res) →
      loc (aligned1 res) r c = Some (default NaN (loc df1 r c)) ∧
      loc (aligned2 res) r c = Some (default NaN (loc df2 r c)) ∧
      loc (differences res) r c =
        Some (Str (classify (default NaN (loc df1 r c))
                            (default NaN (loc df2 r c)))).
Proof.
  intros Hwf1 Hwf2.
  destruct (compare_excel_files_spec cols df1 df2 Hwf1 Hwf2)
    as (res & Hrun & Ha1 & Ha2 & Hcd & Hld & Hd & _ & Hdiff & _).
  destruct (align_frames_spec cols df1 df2 Hwf1 Hwf2)
    as [(Hca & Hla & Ha) (Hcb & Hlb & Hb)].
  exists res. rewrite Ha1, Ha2, Hca, Hla, Hcd, Hld.
  repeat (split; [done|]).
  intros r c Hr Hc. by rewrite Ha, Hb, Hd, !decide_True.
Qed.

Lemma summary_after_comparison cols df1 df2 :
  wf_frame df1 → wf_frame df2 →
  ∃ res, compare_excel_files cols df1 df2 = Some res ∧
    differences_summary (aligned1 res) (aligned2 res) (differences res) =
      Some (if decide (0 < different_cells res)%Z
            then Some
              ((λ p, mkSummaryRow (Int (Z.of_nat p.1 + 1)) (Str p.2)
                       (shown (default NaN (loc (aligned1 res) p.1 p.2)))
                       (shown (default NaN (loc (aligned2 res) p.1 p.2))))
                 <$> filter
                       (λ p, loc (differences res) p.1 p.2
                               = Some (Str DIFFERENT))
                       (row_major (len (differences res))
                          (columns (differences res))))
            else None).
Proof.
  intros Hwf1 Hwf2.
  destruct (comparison_total cols df1 df2 Hwf1 Hwf2)
    as (res & Hrun & Hlen & Hcols & _ & _ & Hcount & Hcells).
  exists res. split; [done|]. rewrite Hcount.
  apply differences_summary_closed; [done..|].
  intros r c Hr Hc. destruct (Hcells r c Hr Hc) as (-> & -> & ->). done.
Qed.

(** X1: after a comparison, the sheet [Differences_Summary] is written
    exactly when the counter of different cells is positive, and it then
    lists, row by row and within a row in column order, the positions the
    matrix marks [DIFFERENT], each with its row number counted from 1,
    its column name and the two aligned values as text (blank for an
    empty cell). *)
Theorem summary_lists_marked_positions cols df1 df2 :
  wf_frame df1 → wf_frame df2 →
  ∃ res, compare_excel_files cols df1 df2 = Some res ∧
    differences_summary (aligned1 res) (aligned2 res) (differences res) =
      Some (if decide (0 < different_cells res)%Z
            then Some
              ((λ p, mkSummaryRow (Int (Z.of_nat p.1 + 1)) (Str p.2)
                       (shown (default NaN (loc (aligned1 res) p.1 p.2)))
                       (shown (default NaN (loc (aligned2 res) p.1 p.2))))
                 <$> filter
                       (λ p, loc (differences res) p.1 p.2
                               = Some (Str DIFFERENT))
                       (row_major (len (differences res))
                          (columns (differences res))))
            else None).
Proof. apply summary_after_comparison. Qed.

(** X2: the summary has as many rows as the comparison counted
    different cells; without a different cell there is no summary
    sheet. *)
Theorem summary_length_is_counter cols df1 df2 :
  wf_frame df1 → wf_frame df2 →
  ∃ res sheet,
    compare_excel_files cols df1 df2 = Some res ∧
    differences_summary (aligned1 res) (aligned2 res) (differences res)
      = Some sheet ∧
    match sheet with
    | Some rows =>
        (0 < different_cells res)%Z ∧
        Z.of_nat (length rows) = different_cells res
    | None => different_cells res = 0%Z
    end.
Proof.
  intros Hwf1 Hwf2.
  destruct (summary_after_comparison cols df1 df2 Hwf1 Hwf2)
    as (res & Hrun & Hsummary).
  destruct (figures_spec cols df1 df2 res Hrun) as (_ & Hdiff & _ & Hbound & _).
  exists res. eexists. split; [done|]. split; [exact Hsummary|].
  destruct (decide (0 < different_cells res)%Z) as [Hpos|Hzero]; [|lia].
  split; [done|]. rewrite length_fmap, Hdiff. f_equal.
  apply Permutation_length. by rewrite row_major_perm.
Qed.


(** X3: when no cell of the two tables holds the empty text, the two
    values a summary row shows are never the same text. *)
Theorem summary_values_differ cols df1 df2 :
  wf_frame df1 → wf_frame df2 →
  no_empty_text df1 → no_empty_text df2 →
  ∃ res sheet,
    compare_excel_files cols df1 df2 = Some res ∧
    differences_summary (aligned1 res) (aligned2 res) (differences res)
      = Some sheet ∧
    ∀ rows row, sheet = Some rows → row ∈ rows →
      summary_File1 row ≠ summary_File2 row.
Proof.
  intros Hwf1 Hwf2 Htext1 Htext2.
  assert (∀ df r c, no_empty_text df → default NaN (loc df r c) ≠ Str "")
    as Htext.
  { intros df r c Hdf. unfold loc.
    destruct (rows df !! r) as [row|] eqn:Hrow; [simpl|done].
    destruct (row !! c) as [v|] eqn:Hv; [simpl|done].
    eapply (proj1 (Forall_lookup _ _) Hdf r row Hrow). exact Hv. }
  destruct (summary_after_comparison cols df1 df2 Hwf1 Hwf2)
    as (res & Hrun & Hsummary).
  destruct (comparison_total cols df1 df2 Hwf1 Hwf2)
    as (res' & Hrun' & Hlen & Hcols & _ & _ & _ & Hcells).
  assert (res' = res) as -> by congruence.
  exists res. eexists. split; [done|]. split; [exact Hsummary|].
  intros rows row Hsheet Hrow.
  destruct (decide (0 < different_cells res)%Z); [|done].
  injection Hsheet as <-.
  apply list_elem_of_fmap in Hrow as ([r c] & -> & Hp). simpl.
  apply list_elem_of_filter in Hp as [Hmarked Hgrid]. simpl in Hmarked.
  apply elem_of_row_major in Hgrid as [Hr Hc]. rewrite Hlen in Hr.
  rewrite Hcols in Hc.
  destruct (Hcells r c Hr Hc) as (Ha & Hb & Hd).
  rewrite Ha, Hb. simpl. rewrite Hd in Hmarked. injection Hmarked as Hmarked.
  apply shown_differ; [done|by apply Htext..].
Qed.


(** ** The summary at the tables of the specification's example *)

Lemma no_empty_text_table_a : no_empty_text table_a.
Proof.
  unfold no_empty_text. simpl.
  repeat constructor; apply (bool_decide_unpack _); by vm_compute.
Qed.

Lemma no_empty_text_table_b : no_empty_text table_b.
Proof.
  unfold no_empty_text. simpl.
  repeat constructor; apply (bool_decide_unpack _); by vm_compute.
Qed.

Lemma summary_lists_marked_positions_witness :
  wf_frame table_a ∧ wf_frame table_b ∧
  ∃ res sheet,
    compare_excel_files ["id"; "val"] table_a table_b = Some res ∧
    differences_summary (aligned1 res) (aligned2 res) (differences res)
      = Some sheet.
Proof.
  split; [exact wf_table_a|]. split; [exact wf_table_b|].
  destruct (summary_lists_marked_positions ["id"; "val"] table_a table_b
              wf_table_a wf_table_b) as (res & Hrun & Hsheet).
  exists res. eexists. split; [exact Hrun|exact Hsheet].
Defined.

Lemma summary_length_is_counter_witness :
  wf_frame table_a ∧ wf_frame table_b ∧
  ∃ res sheet,
    compare_excel_files ["id"; "val"] table_a table_b = Some res ∧
    differences_summary (aligned1 res) (aligned2 res) (differences res)
      = Some sheet ∧
    (sheet = None → different_cells res = 0%Z).
Proof.
  split; [exact wf_table_a|]. split; [exact wf_table_b|].
  destruct (summary_length_is_counter ["id"; "val"] table_a table_b
              wf_table_a wf_table_b) as (res & sheet & Hrun & Hsheet & Hlen).
  exists res, sheet. split; [exact Hrun|]. split; [exact Hsheet|].
  intros ->. exact Hlen.
Defined.

Lemma summary_values_differ_witness :
  wf_frame table_a ∧ wf_frame table_b ∧
  no_empty_text table_a ∧ no_empty_text table_b ∧
  ∃ res sheet,
    compare_excel_files ["id"; "val"] table_a table_b = Some res ∧
    differences_summary (aligned1 res) (aligned2 res) (differences res)
      = Some sheet ∧
    ∀ rows row, sheet = Some rows → row ∈ rows →
      summary_File1 row ≠ summary_File2 row.
Proof.
  split; [exact wf_table_a|]. split; [exact wf_table_b|].
  split; [exact no_empty_text_table_a|]. split; [exact no_empty_text_table_b|].
  exact (summary_values_differ ["id"; "val"] table_a table_b
           wf_table_a wf_table_b no_empty_text_table_a no_empty_text_table_b).
Defined.

(** The one differing row of the example: both cells of row 2. *)
Example summary_of_example :
  ∃ res,
    compare_excel_files ["id"; "val"] table_a table_b = Some res ∧
    differences_summary (aligned1 res) (aligned2 res) (differences res) =
      Some (Some [ mkSummaryRow (Int 2) (Str "id") (Str "") (Str "2");
                   mkSummaryRow (Int 2) (Str "val") (Str "") (Str "y") ]).
Proof. eexists. split; [by vm_compute|]. by vm_compute. Qed.

End WorkbookFacts.

(** ** The original sheets *)

Module SheetFacts.
Import Differ Workbook DifferFacts.

Lemma enumerate_snoc {A : Type} (l : list A) (x : A) :
  enumerate (l ++ [x]) = enumerate l ++ [(length l + 1, x)].
Proof.
  unfold enumerate. rewrite length_app. simpl.
  replace (length l + 1) with (S (length l)) by lia. rewrite seq_S.
  by rewrite zip_with_app by (by rewrite length_seq).
Qed.

Lemma header_write (ws : gmap (nat * nat) cell) (j : nat) (h : string) :
  set_fill (write_cell ws 1 j (Str h)) 1 j header_fill =
    <[(1, j) := mkCell (Str h) header_fill]> ws.
Proof. unfold set_fill, write_cell. by rewrite alter_insert_eq. Qed.

Lemma write_headers_lookup (headers : list string)
    (ws : gmap (nat * nat) cell) (i j : nat) :
  write_headers headers ws !! (i, j) =
    if decide (i = 1 ∧ 1 ≤ j ≤ length headers)
    then (λ h, mkCell (Str h) header_fill) <$> headers !! (j - 1)
    else ws !! (i, j).
Proof.
  unfold write_headers.
  induction headers as [|h headers IH] using rev_ind.
  - simpl. rewrite decide_False; [done|]. lia.
  - rewrite enumerate_snoc, foldl_app. simpl. rewrite header_write.
    rewrite length_app. simpl.
    destruct (decide ((1, length headers + 1) = (i, j))) as [[= <- <-]|Hne].
    + rewrite lookup_insert_eq, decide_True by lia.
      replace (length headers + 1 - 1) with (length headers) by lia.
      by rewrite lookup_app_r, Nat.sub_diag by lia.
    + rewrite lookup_insert_ne by done. rewrite IH.
      destruct (decide (i = 1 ∧ 1 ≤ j ≤ length headers)) as [[-> Hj]|Hno].
      * rewrite decide_True by lia. by rewrite lookup_app_l by lia.
      * rewrite decide_False; [done|]. intros [-> Hj].
        destruct (decide (j = length headers + 1)) as [->|]; [done|lia].
Qed.

Lemma write_data_cell_fresh (df d : DataFrame) (r j : nat) (c : string)
    (ws : gmap (nat * nat) cell) :
  ws !! (r + 2, j) = None →
  is_Some (loc df r c) → is_Some (loc d r c) →
  write_data_cell df d r (j, c) ws =
    Some (<[(r + 2, j) := data_cell df d r c]> ws).
Proof.
  intros Hfresh [v Hv] [vd Hd]. unfold write_data_cell, data_cell. simpl.
  rewrite Hv, Hd. simpl. unfold write_cell. rewrite Hfresh. simpl.
  destruct (decide (vd = Str DIFFERENT)) as [->|Hne].
  - rewrite decide_True by done. unfold set_fill.
    by rewrite alter_insert_eq.
  - rewrite decide_False; [done|]. by intros [= ?].
Qed.

Lemma write_row_lookup (df d : DataFrame) (r : nat) (names : list string)
    (ws : gmap (nat * nat) cell) :
  (∀ j, ws !! (r + 2, j) = None) →
  (∀ c, c ∈ names → is_Some (loc df r c) ∧ is_Some (loc d r c)) →
  ∃ ws', for_each (enumerate names) (write_data_cell df d r) ws = Some ws' ∧
    ∀ i j, ws' !! (i, j) =
      if decide (i = r + 2 ∧ 1 ≤ j ≤ length names)
      then data_cell df d r <$> names !! (j - 1)
      else ws !! (i, j).
Proof.
  intros Hfresh. induction names as [|c names IH] using rev_ind; intros Hcells.
  - exists ws. split; [done|]. intros i j. rewrite decide_False; [done|].
    simpl. lia.
  - destruct IH as (ws1 & Hrun & Hws1).
    { intros c' Hc'. apply Hcells, elem_of_app. by left. }
    rewrite enumerate_snoc, for_each_app, Hrun. simpl.
    destruct (Hcells c) as [Hv Hd]; [apply elem_of_app; right; by left|].
    rewrite write_data_cell_fresh; [|rewrite Hws1, decide_False;
      [apply Hfresh|lia]|done|done].
    simpl. eexists. split; [done|]. intros i j. rewrite length_app. simpl.
    destruct (decide ((r + 2, length names + 1) = (i, j))) as [[= <- <-]|Hne].
    + rewrite lookup_insert_eq, decide_True by lia.
      replace (length names + 1 - 1) with (length names) by lia.
      by rewrite lookup_app_r, Nat.sub_diag by lia.
    + rewrite lookup_insert_ne by done. rewrite Hws1.
      destruct (decide (i = r + 2 ∧ 1 ≤ j ≤ length names)) as [[-> Hj]|Hno].
      * rewrite decide_True by lia. by rewrite lookup_app_l by lia.
      * rewrite decide_False; [done|]. intros [-> Hj].
        destruct (decide (j = length names + 1)) as [->|]; [done|lia].
Qed.

Lemma write_rows_lookup (df d : DataFrame) (cols : list string) (n : nat)
    (ws : gmap (nat * nat) cell) :
  (∀ i j, 2 ≤ i → ws !! (i, j) = None) →
  (∀ r c, r < n → c ∈ cols → is_Some (loc df r c) ∧ is_Some (loc d r c)) →
  ∃ ws',
    for_each (seq 0 n)
      (λ row ws, for_each (enumerate cols) (write_data_cell df d row) ws) ws
      = Some ws' ∧
    ∀ i j, ws' !! (i, j) =
      if decide (2 ≤ i < n + 2 ∧ 1 ≤ j ≤ length cols)
      then data_cell df d (i - 2) <$> cols !! (j - 1)
      else ws !! (i, j).
Proof.
  intros Hfresh. induction n as [|n IH]; intros Hcells.
  - exists ws. split; [done|]. intros i j. rewrite decide_False; [done|]. lia.
  - destruct IH as (ws1 & Hrun & Hws1).
    { intros r c Hr. apply Hcells. lia. }
    rewrite seq_S, for_each_app, Hrun. simpl.
    destruct (write_row_lookup df d n cols ws1) as (ws2 & -> & Hws2).
    { intros j. rewrite Hws1, decide_False by lia. apply Hfresh. lia. }
    { intros c Hc. apply Hcells; [lia|done]. }
    exists ws2. split; [done|]. intros i j. rewrite Hws2, Hws1.
    destruct (decide (i = n + 2 ∧ 1 ≤ j ≤ length cols)) as [[-> Hj]|Hno].
    + rewrite decide_True by lia. by replace (n + 2 - 2) with n by lia.
    + destruct (decide (2 ≤ i < n + 2 ∧ 1 ≤ j ≤ length cols)) as [Hin|Hout].
      * by rewrite decide_True by lia.
      * rewrite decide_False; [done|]. lia.
Qed.


Lemma original_sheet_closed (df d : DataFrame) :
  (∀ r c, r < len df → c ∈ columns df →
     is_Some (loc df r c) ∧ is_Some (loc d r c)) →
  ∃ ws, original_sheet df d = Some ws ∧
    ∀ i j, ws !! (i, j) =
      if decide (i = 1 ∧ 1 ≤ j ≤ length (columns df))
      then (λ h, mkCell (Str h) header_fill) <$> columns df !! (j - 1)
      else if decide (2 ≤ i < len df + 2 ∧ 1 ≤ j ≤ length (columns df))
           then data_cell df d (i - 2) <$> columns df !! (j - 1)
           else None.
Proof.
  intros Hcells. unfold original_sheet.
  destruct (write_rows_lookup df d (columns df) (len df)
              (write_headers (columns df) ∅)) as (ws & Hrun & Hws).
  - intros i j Hi. rewrite write_headers_lookup, decide_False by lia.
    apply lookup_empty.
  - done.
  - exists ws. split; [done|]. intros i j.
    rewrite Hws, write_headers_lookup, lookup_empty.
    destruct (decide (2 ≤ i < len df + 2 ∧ 1 ≤ j ≤ length (columns df)))
      as [Hin|Hout]; [|done].
    rewrite decide_False by lia. done.
Qed.

(** X4: after a comparison both original sheets come out, with cells
    exactly in rows 1 to [n + 1] and one column per listed name; row 1
    holds the names; the data cell of a position holds the aligned value,
    or the empty text for an empty cell, and is filled with the
    difference colour exactly when the matrix reads [DIFFERENT] there, so
    the two sheets are coloured at the same positions. *)
Theorem original_sheets_layout cols df1 df2 :
  wf_frame df1 → wf_frame df2 →
  ∃ res ws1 ws2,
    compare_excel_files cols df1 df2 = Some res ∧
    original_sheet (aligned1 res) (differences res) = Some ws1 ∧
    original_sheet (aligned2 res) (differences res) = Some ws2 ∧
    let n := len df1 `max` len df2 in
    (∀ i j, (is_Some (ws1 !! (i, j)) ↔ 1 ≤ i ≤ n + 1 ∧ 1 ≤ j ≤ length cols) ∧
            (is_Some (ws2 !! (i, j)) ↔ 1 ≤ i ≤ n + 1 ∧ 1 ≤ j ≤ length cols)) ∧
    (∀ j h, cols !! j = Some h →
       ws1 !! (1, j + 1) = Some (mkCell (Str h) header_fill) ∧
       ws2 !! (1, j + 1) = Some (mkCell (Str h) header_fill)) ∧
    (∀ r j c, r < n → cols !! j = Some c →
       ∃ v1 v2 f,
         loc (aligned1 res) r c = Some v1 ∧
         loc (aligned2 res) r c = Some v2 ∧
         ws1 !! (r + 2, j + 1) =
           Some (mkCell (if notna v1 then v1 else Str "") f) ∧
         ws2 !! (r + 2, j + 1) =
           Some (mkCell (if notna v2 then v2 else Str "") f) ∧
         (f = diff_fill ↔
            loc (differences res) r c = Some (Str DIFFERENT)) ∧
         (f = no_fill ↔
            loc (differences res) r c ≠ Some (Str DIFFERENT))).
Proof.
  intros Hwf1 Hwf2.
  destruct (compare_excel_files_spec cols df1 df2 Hwf1 Hwf2)
    as (res & Hrun & Ha1 & Ha2 & Hcd & Hld & Hd & _).
  destruct (align_frames_spec cols df1 df2 Hwf1 Hwf2)
    as [(Hca & Hla & Ha) (Hcb & Hlb & Hb)].
  rewrite <- Ha1 in Hca, Hla, Ha. rewrite <- Ha2 in Hcb, Hlb, Hb.
  destruct (original_sheet_closed (aligned1 res) (differences res))
    as (ws1 & Hrun1 & Hws1).
  { intros r c Hr Hc. rewrite Hla in Hr. rewrite Hca in Hc.
    by rewrite Ha, Hd, !decide_True. }
  destruct (original_sheet_closed (aligned2 res) (differences res))
    as (ws2 & Hrun2 & Hws2).
  { intros r c Hr Hc. rewrite Hlb in Hr. rewrite Hcb in Hc.
    by rewrite Hb, Hd, !decide_True. }
  rewrite Hca, Hla in Hws1. rewrite Hcb, Hlb in Hws2.
  exists res, ws1, ws2. do 3 (split; [done|]). simpl.
  assert (∀ (ws : gmap (nat * nat) cell) (g : nat → string → cell),
    (∀ i j, ws !! (i, j) =
       if decide (i = 1 ∧ 1 ≤ j ≤ length cols)
       then (λ h, mkCell (Str h) header_fill) <$> cols !! (j - 1)
       else if decide (2 ≤ i < len df1 `max` len df2 + 2
                       ∧ 1 ≤ j ≤ length cols)
            then g (i - 2) <$> cols !! (j - 1)
            else None) →
    (∀ i j, is_Some (ws !! (i, j)) ↔
            1 ≤ i ≤ len df1 `max` len df2 + 1 ∧ 1 ≤ j ≤ length cols) ∧
    (∀ j h, cols !! j = Some h →
            ws !! (1, j + 1) = Some (mkCell (Str h) header_fill)) ∧
    (∀ r j c, r < len df1 `max` len df2 → cols !! j = Some c →
              ws !! (r + 2, j + 1) = Some (g r c))) as Hshape.
  { intros ws g Hws. split; [|split].
    - intros i j. rewrite Hws.
      destruct (decide (i = 1 ∧ 1 ≤ j ≤ length cols)) as [[-> Hj]|Hno].
      + destruct (lookup_lt_is_Some_2 cols (j - 1)) as [h ->]; [lia|].
        split; [intros _; lia|by eexists].
      + destruct (decide (2 ≤ i < len df1 `max` len df2 + 2
                          ∧ 1 ≤ j ≤ length cols)) as [[Hi Hj]|Hout].
        * destruct (lookup_lt_is_Some_2 cols (j - 1)) as [h ->]; [lia|].
          split; [intros _; lia|by eexists].
        * split; [by intros [? ?]|]. intros [Hi Hj]. exfalso.
          destruct (decide (i = 1)); [apply Hno|apply Hout]; lia.
    - intros j h Hh. apply lookup_lt_Some in Hh as Hlt.
      rewrite Hws, decide_True by lia.
      replace (j + 1 - 1) with j by lia. by rewrite Hh.
    - intros r j c Hr Hc. apply lookup_lt_Some in Hc as Hlt.
      rewrite Hws, decide_False, decide_True by lia.
      replace (j + 1 - 1) with j by lia. rewrite Hc. simpl.
      by replace (r + 2 - 2) with r by lia. }
  destruct (Hshape ws1 _ Hws1) as (Hdom1 & Hhead1 & Hdata1).
  destruct (Hshape ws2 _ Hws2) as (Hdom2 & Hhead2 & Hdata2).
  split; [by intros i j|]. split; [by intros j h Hh; split; auto|].
  intros r j c Hr Hc.
  assert (c ∈ cols) as Hin by (by eapply list_elem_of_lookup_2).
  assert (loc (aligned1 res) r c = Some (default NaN (loc df1 r c))) as Ha'
    by (by rewrite Ha, decide_True).
  assert (loc (aligned2 res) r c = Some (default NaN (loc df2 r c))) as Hb'
    by (by rewrite Hb, decide_True).
  eexists _, _, _. split; [exact Ha'|]. split; [exact Hb'|].
  rewrite (Hdata1 r j c Hr Hc), (Hdata2 r j c Hr Hc). unfold data_cell.
  rewrite Ha', Hb'. simpl.
  split; [done|]. split; [done|].
  destruct (decide (loc (differences res) r c = Some (Str DIFFERENT)));
    split; by intros.
Qed.


(** ** The sheets at the tables of the specification's example *)

Lemma original_sheets_layout_witness :
  wf_frame table_a ∧ wf_frame table_b ∧
  ∃ res ws1 ws2,
    compare_excel_files ["id"; "val"] table_a table_b = Some res ∧
    original_sheet (aligned1 res) (differences res) = Some ws1 ∧
    original_sheet (aligned2 res) (differences res) = Some ws2 ∧
    ws1 !! (1, 2) = Some (mkCell (Str "val") header_fill) ∧
    ws2 !! (1, 2) = Some (mkCell (Str "val") header_fill).
Proof.
  split; [exact wf_table_a|]. split; [exact wf_table_b|].
  destruct (original_sheets_layout ["id"; "val"] table_a table_b
              wf_table_a wf_table_b)
    as (res & ws1 & ws2 & Hrun & Hws1 & Hws2 & _ & Hheaders & _).
  exists res, ws1, ws2. split; [exact Hrun|].
  split; [exact Hws1|]. split; [exact Hws2|].
  apply (Hheaders 1 "val"). reflexivity.
Defined.

End SheetFacts.

(** * Further facts about the differ *)

Module AlignmentFacts.
Import Differ DifferFacts.

Lemma frame_ext (a b : DataFrame) :
  columns a = columns b → len a = len b →
  (∀ r c, r < len a → loc a r c = loc b r c) → a = b.
Proof.
  destruct a as [ca ra], b as [cb rb]. unfold len, loc. simpl.
  intros -> Hlen Hloc. f_equal. apply list_eq_same_length with (length ra);
    [done|by symmetry|].
  intros r x y Hr Hx Hy. apply map_eq. intros c.
  specialize (Hloc r c Hr). by rewrite Hx, Hy in Hloc.
Qed.

(** A table whose cells sit exactly on its rows and columns is
    well formed. *)
Lemma wf_from_loc (df : DataFrame) :
  NoDup (columns df) →
  (∀ r c, r < len df → (is_Some (loc df r c) ↔ c ∈ columns df)) →
  wf_frame df.
Proof.
  intros Hnd Hloc. split; [done|]. apply Forall_lookup. intros r row Hrow.
  apply lookup_lt_Some in Hrow as Hr. apply set_eq. intros c.
  rewrite elem_of_dom, elem_of_list_to_set, <- (loc_lookup df r c row Hrow).
  by apply Hloc.
Qed.

Lemma comparison_well_formed cols df1 df2 res :
  wf_frame df1 → wf_frame df2 → NoDup cols →
  compare_excel_files cols df1 df2 = Some res →
  wf_frame (aligned1 res) ∧ wf_frame (aligned2 res) ∧
  wf_frame (differences res).
Proof.
  intros Hwf1 Hwf2 Hnd Hrun.
  destruct (compare_excel_files_spec cols df1 df2 Hwf1 Hwf2)
    as (res' & Hrun' & Ha1 & Ha2 & Hcd & Hld & Hd & _).
  assert (res' = res) as -> by congruence.
  destruct (align_frames_spec cols df1 df2 Hwf1 Hwf2)
    as [(Hca & Hla & Ha) (Hcb & Hlb & Hb)].
  rewrite <- Ha1 in Hca, Hla, Ha. rewrite <- Ha2 in Hcb, Hlb, Hb.
  split; [|split]; apply wf_from_loc.
  - by rewrite Hca.
  - intros r c Hr. rewrite Ha, Hca. rewrite Hla in Hr.
    destruct (decide (c ∈ cols)).
    + rewrite decide_True by done. split; [done|by eexists].
    + rewrite decide_False by tauto. split; [by intros [? ?]|done].
  - by rewrite Hcb.
  - intros r c Hr. rewrite Hb, Hcb. rewrite Hlb in Hr.
    destruct (decide (c ∈ cols)).
    + rewrite decide_True by done. split; [done|by eexists].
    + rewrite decide_False by tauto. split; [by intros [? ?]|done].
  - by rewrite Hcd.
  - intros r c Hr. rewrite Hd, Hcd. rewrite Hld in Hr.
    destruct (decide (c ∈ cols)).
    + rewrite decide_True by done. split; [done|by eexists].
    + rewrite decide_False by tauto. split; [by intros [? ?]|done].
Qed.

(** X5: the two aligned tables and the matrix are again well-formed
    tables: distinct column names and a cell under every column in every
    row. *)
Theorem outputs_well_formed cols df1 df2 :
  wf_frame df1 → wf_frame df2 → listing cols df1 df2 →
  ∃ res, compare_excel_files cols df1 df2 = Some res ∧
    wf_frame (aligned1 res) ∧ wf_frame (aligned2 res) ∧
    wf_frame (differences res).
Proof.
  intros Hwf1 Hwf2 Hcols.
  destruct (compare_excel_files_spec cols df1 df2 Hwf1 Hwf2)
    as (res & Hrun & _).
  exists res. split; [done|].
  apply (comparison_well_formed cols df1 df2); [done..| |done].
  by eapply listing_NoDup.
Qed.

(** X6: comparing the two aligned tables again, under the same column
    order, changes nothing: the same aligned tables, the same matrix and
    the same figures come out. *)
Theorem comparison_idempotent cols df1 df2 res :
  wf_frame df1 → wf_frame df2 → NoDup cols →
  compare_excel_files cols df1 df2 = Some res →
  compare_excel_files cols (aligned1 res) (aligned2 res) = Some res.
Proof.
  intros Hwf1 Hwf2 Hnd Hrun.
  destruct (comparison_well_formed cols df1 df2 res Hwf1 Hwf2 Hnd Hrun)
    as (Hwfa & Hwfb & _).
  destruct (compare_excel_files_spec cols df1 df2 Hwf1 Hwf2)
    as (res' & Hrun' & Ha1 & Ha2 & Hcd & Hld & Hd & Htot & Hdiff & Hsame & Hpct).
  assert (res' = res) as -> by congruence.
  destruct (align_frames_spec cols df1 df2 Hwf1 Hwf2)
    as [(Hca & Hla & Ha) (Hcb & Hlb & Hb)].
  rewrite <- Ha1 in Hca, Hla, Ha. rewrite <- Ha2 in Hcb, Hlb, Hb.
  destruct (compare_excel_files_spec cols (aligned1 res) (aligned2 res)
              Hwfa Hwfb)
    as (res2 & Hrun2 & Ha1' & Ha2' & Hcd' & Hld' & Hd' & Htot' & Hdiff'
        & Hsame' & Hpct').
  destruct (align_frames_spec cols (aligned1 res) (aligned2 res) Hwfa Hwfb)
    as [(Hca' & Hla' & Ha') (Hcb' & Hlb' & Hb')].
  rewrite <- Ha1' in Hca', Hla', Ha'. rewrite <- Ha2' in Hcb', Hlb', Hb'.
  rewrite Hla, Hlb, Nat.max_id in *.
  assert (aligned1 res2 = aligned1 res) as Heq1.
  { apply frame_ext; [congruence|congruence|]. intros r c Hr.
    rewrite Ha', Ha. by destruct (decide (_ ∧ _)). }
  assert (aligned2 res2 = aligned2 res) as Heq2.
  { apply frame_ext; [congruence|congruence|]. intros r c Hr.
    rewrite Hb', Hb. by destruct (decide (_ ∧ _)). }
  assert (differences res2 = differences res) as Heqd.
  { apply frame_ext; [congruence|congruence|]. intros r c Hr.
    rewrite Hd', Hd, Ha, Hb. by destruct (decide (_ ∧ _)). }
  rewrite Hrun2. f_equal.
  destruct res as [a b d t s dc p], res2 as [a2 b2 d2 t2 s2 dc2 p2].
  simpl in *. congruence.
Qed.


(** ** The outputs at the tables of the specification's example *)

Lemma outputs_well_formed_witness :
  wf_frame table_a ∧ wf_frame table_b ∧
  listing ["id"; "val"] table_a table_b ∧
  ∃ res, compare_excel_files ["id"; "val"] table_a table_b = Some res ∧
         wf_frame (aligned1 res) ∧ wf_frame (aligned2 res) ∧
         wf_frame (differences res).
Proof.
  split; [exact wf_table_a|]. split; [exact wf_table_b|].
  split; [exact listing_a_b|].
  exact (outputs_well_formed ["id"; "val"] table_a table_b
           wf_table_a wf_table_b listing_a_b).
Defined.

Lemma NoDup_id_val : NoDup ["id"; "val"].
Proof. apply (bool_decide_unpack _). by vm_compute. Qed.

Lemma comparison_idempotent_witness :
  wf_frame table_a ∧ wf_frame table_b ∧ NoDup ["id"; "val"] ∧
  ∃ res, compare_excel_files ["id"; "val"] table_a table_b = Some res ∧
         compare_excel_files ["id"; "val"] (aligned1 res) (aligned2 res)
           = Some res.
Proof.
  split; [exact wf_table_a|]. split; [exact wf_table_b|].
  split; [exact NoDup_id_val|].
  destruct (compare_excel_files_spec ["id"; "val"] table_a table_b
              wf_table_a wf_table_b) as (res & Hrun & _).
  exists res. split; [exact Hrun|].
  exact (comparison_idempotent ["id"; "val"] table_a table_b res
           wf_table_a wf_table_b NoDup_id_val Hrun).
Defined.

End AlignmentFacts.

(** * Further facts about the combiner *)

Module CombinerMore.
Import Combiner Keys CombinerFacts.

(** ** The combined data as a dict *)

Lemma keys_dict_set {V : Type} (d : list (value * V)) k v :
  keys (dict_set k v d) = if decide (k ∈ keys d) then keys d else keys d ++ [k].
Proof. apply dict_set_names. Qed.



(** ** When the union table comes out *)

Lemma py_sorted_is_Some_inv (l : list value) :
  is_Some (py_sorted l) →
  length l ≤ 1 ∨ Forall (λ v, is_Some (as_text v)) l ∨
  Forall (λ v, is_Some (as_int v)) l.
Proof.
  unfold py_sorted. destruct l as [|x [|y l]]; [left; simpl; lia..|].
  destruct (mapM as_text (x :: y :: l)) as [texts|] eqn:Htexts.
  - intros _. right. left. apply (mapM_is_Some_1 as_text). by rewrite Htexts.
  - destruct (mapM as_int (x :: y :: l)) as [ints|] eqn:Hints.
    + intros _. right. right. apply (mapM_is_Some_1 as_int). by rewrite Hints.
    + by intros [? ?].
Qed.

Lemma union_table_comparable definitions monitors conditions :
  is_Some (create_simple_combined_excel definitions monitors conditions) →
  comparable_keys monitors conditions.
Proof.
  rewrite create_simple_combined_excel_bind.
  destruct (py_sorted (elements (all_ids monitors conditions)))
    as [ids|] eqn:Hsorted; [|by intros [? ?]].
  intros _. destruct (py_sorted_is_Some_inv
    (elements (all_ids monitors conditions))) as [Hshort|[Htext|Hint]];
    [by rewrite Hsorted|..].
  - by left.
  - right. left. intros k Hk.
    apply (proj1 (Forall_forall _ _) Htext). by apply elem_of_elements.
  - right. right. intros k Hk.
    apply (proj1 (Forall_forall _ _) Hint). by apply elem_of_elements.
Qed.

(** X8: when no monitor row has an empty key, the union script
    produces its table exactly when the child keys can be compared with
    one another: at most one key, or all text, or all integers.
    Otherwise [sorted(all_ids)] raises [TypeError] and there is no
    table.  An empty key among numbers, the one mixture that Python
    sorts without an exception, is left out by the hypothesis. *)
Theorem union_table_iff_comparable definitions monitors conditions :
  NaN ∉ mon_id <$> monitors →
  (is_Some (create_simple_combined_excel definitions monitors conditions) ↔
   comparable_keys monitors conditions).
Proof.
  intros _. split; [apply union_table_comparable|apply comparable_keys_returns].
Qed.

(** X9: a monitor row with an empty key, next to any text key among
    the children, leaves the union script without a table. *)
Theorem empty_monitor_key_fails definitions monitors conditions s :
  NaN ∈ mon_id <$> monitors →
  Str s ∈ all_ids monitors conditions →
  create_simple_combined_excel definitions monitors conditions = None.
Proof.
  intros Hnan Hstr. apply eq_None_not_Some. intros Hsome.
  apply union_table_comparable in Hsome.
  assert (NaN ∈ all_ids monitors conditions) as Hnan'.
  { apply elem_of_all_ids. by left. }
  destruct Hsome as [Hshort|[Htext|Hint]].
  - apply elem_of_elements in Hnan', Hstr.
    unfold size, set_size in Hshort. simpl in Hshort.
    destruct (elements (all_ids monitors conditions)) as [|x [|y l]].
    + by apply elem_of_nil in Hstr.
    + apply list_elem_of_singleton in Hnan', Hstr. congruence.
    + simpl in Hshort. lia.
  - by destruct (Htext NaN Hnan').
  - by destruct (Hint (Str s) Hstr).
Qed.

(** ** What the union table holds *)

Lemma py_eq_refl k : notna k → py_eq k k = true.
Proof. destruct k; simpl; [done|..]; intros _; by apply bool_decide_eq_true_2. Qed.

Lemma elem_of_combined_rows definitions monitors conditions combined_rows row :
  create_simple_combined_excel definitions monitors conditions
    = Some combined_rows →
  row ∈ combined_rows ↔
    ∃ k, k ∈ all_ids monitors conditions ∧
         row ∈ rows_of_id
                 (fix_mismatches (all_ids monitors conditions)
                    (id_to_fdir_of definitions))
                 monitors conditions k.
Proof.
  rewrite create_simple_combined_excel_bind.
  destruct (py_sorted _) as [ids|] eqn:Hsorted; [|done].
  apply py_sorted_perm in Hsorted. simpl. intros [= <-].
  rewrite list_elem_of_bind. split.
  - intros (k & Hrow & Hk). exists k. split; [|done].
    rewrite Hsorted in Hk. by apply elem_of_elements.
  - intros (k & Hk & Hrow). exists k. split; [done|].
    rewrite Hsorted. by apply elem_of_elements.
Qed.

Lemma rows_of_id_monitor id_to_fdir monitors conditions k m :
  m ∈ select_monitors monitors k →
  ∃ row, row ∈ rows_of_id id_to_fdir monitors conditions k ∧
         row_mons row = mons m ∧ row_thresholds row = thresholds m.
Proof.
  intros [i Hi]%list_elem_of_lookup. apply lookup_lt_Some in Hi as Hlt.
  eexists. split.
  - unfold rows_of_id. apply list_elem_of_fmap. exists i. split; [done|].
    apply elem_of_seq. lia.
  - unfold item_or_blank. simpl. by rewrite Hi.
Qed.

Lemma rows_of_id_condition id_to_fdir monitors conditions k c :
  c ∈ select_conditions conditions k →
  ∃ row, row ∈ rows_of_id id_to_fdir monitors conditions k ∧
         row_condition_mons row = condition_mons c ∧
         row_counts row = counts c ∧ row_response row = response c.
Proof.
  intros [i Hi]%list_elem_of_lookup. apply lookup_lt_Some in Hi as Hlt.
  eexists. split.
  - unfold rows_of_id. apply list_elem_of_fmap. exists i. split; [done|].
    apply elem_of_seq. lia.
  - unfold item_or_blank. simpl. by rewrite Hi.
Qed.

(** X10: whenever the union table comes out, every one of its rows
    carries a key of the monitors sheet or a non-empty key of the
    conditions sheet (the definitions add no rows), every monitor row
    with a key stands in it under that key, and so does every condition
    row with a key and a condition text. *)
Theorem union_table_covers_children definitions monitors conditions
    combined_rows :
  create_simple_combined_excel definitions monitors conditions
    = Some combined_rows →
  (∀ row, row ∈ combined_rows →
     row_id row ∈ mon_id <$> monitors ∨
     (notna (row_id row) ∧ row_id row ∈ cond_id <$> conditions)) ∧
  (∀ m, m ∈ monitors → notna (mon_id m) →
     ∃ row, row ∈ combined_rows ∧ row_id row = mon_id m ∧
            row_mons row = mons m ∧ row_thresholds row = thresholds m) ∧
  (∀ c, c ∈ conditions → notna (cond_id c) → notna (condition_mons c) →
     ∃ row, row ∈ combined_rows ∧ row_id row = cond_id c ∧
            row_condition_mons row = condition_mons c ∧
            row_counts row = counts c ∧ row_response row = response c).
Proof.
  intros Hrun. split; [|split].
  - intros row Hrow.
    apply (elem_of_combined_rows _ _ _ _ _ Hrun) in Hrow as (k & Hk & Hrow).
    apply rows_of_id_labels in Hrow as [-> _]. by apply elem_of_all_ids.
  - intros m Hm Hkey.
    destruct (rows_of_id_monitor
                (fix_mismatches (all_ids monitors conditions)
                   (id_to_fdir_of definitions))
                monitors conditions (mon_id m) m) as (row & Hrow & Hmons & Hthr).
    { apply elem_of_select_monitors. split; [done|]. by apply py_eq_refl. }
    exists row. split; [|split; [|done]].
    + apply (elem_of_combined_rows _ _ _ _ _ Hrun). exists (mon_id m).
      split; [|done]. apply elem_of_all_ids. left.
      by apply list_elem_of_fmap_2.
    + by apply rows_of_id_labels in Hrow as [? _].
  - intros c Hc Hkey Htext.
    destruct (rows_of_id_condition
                (fix_mismatches (all_ids monitors conditions)
                   (id_to_fdir_of definitions))
                monitors conditions (cond_id c) c) as (row & Hrow & Hfields).
    { apply elem_of_select_conditions. split; [done|].
      split; [by apply py_eq_refl|]. unfold notna in Htext.
      by destruct (isna (condition_mons c)). }
    exists row. split; [|split; [|done]].
    + apply (elem_of_combined_rows _ _ _ _ _ Hrun). exists (cond_id c).
      split; [|done]. apply elem_of_all_ids. right. split; [done|].
      by apply list_elem_of_fmap_2.
    + by apply rows_of_id_labels in Hrow as [? _].
Qed.

(** ** The order of the union table *)

Lemma str_le_total : Total str_le.
Proof. intros s t. apply String.leb_total. Qed.

Lemma py_sorted_Sorted (l sorted_ids : list value) :
  py_sorted l = Some sorted_ids → Sorted py_le sorted_ids.
Proof.
  unfold py_sorted. destruct l as [|x [|y l]].
  - intros [= <-]. constructor.
  - intros [= <-]. repeat constructor.
  - destruct (mapM as_text (x :: y :: l)) as [texts|].
    + intros [= <-]. apply (Sorted_fmap _ str_le); [done|].
      pose proof str_le_total as Htotal. apply (Sorted_merge_sort str_le).
    + destruct (mapM as_int (x :: y :: l)) as [ints|]; [|done].
      intros [= <-]. apply (Sorted_fmap _ Z.le); [done|].
      apply (Sorted_merge_sort Z.le).
Qed.

(** X11: when no monitor row has an empty key, the union table is
    laid out key by key in ascending order of the keys: it is the
    concatenation, over the child keys sorted ascending, each taken
    once, of the rows of each key.  (With an empty key among numbers
    Python's order depends on the comparisons its sort happens to make;
    the hypothesis leaves that out.) *)
Theorem union_table_sorted definitions monitors conditions combined_rows :
  NaN ∉ mon_id <$> monitors →
  create_simple_combined_excel definitions monitors conditions
    = Some combined_rows →
  ∃ sorted_ids,
    Sorted py_le sorted_ids ∧ NoDup sorted_ids ∧
    (∀ k, k ∈ sorted_ids ↔ k ∈ all_ids monitors conditions) ∧
    combined_rows =
      sorted_ids ≫=
        rows_of_id
          (fix_mismatches (all_ids monitors conditions)
             (id_to_fdir_of definitions))
          monitors conditions.
Proof.
  intros _. rewrite create_simple_combined_excel_bind.
  destruct (py_sorted _) as [ids|] eqn:Hsorted; [|done].
  simpl. intros [= <-]. exists ids.
  split; [by eapply py_sorted_Sorted|].
  apply py_sorted_perm in Hsorted.
  split; [rewrite Hsorted; apply NoDup_elements|]. split; [|done].
  intros k. by rewrite Hsorted, elem_of_elements.
Qed.

(** ** Labels from the definitions *)



(** ** The parent-driven CSV *)

Lemma dict_get_elem_of {V : Type} (d : list (value * V)) k v :
  dict_get k d = Some v → (k, v) ∈ d.
Proof.
  induction d as [|[k0 v0] d IH]; simpl; [done|].
  destruct (decide (k0 = k)) as [->|Hne].
  - intros [= ->]. by left.
  - intros Hget. right. by apply IH.
Qed.

Lemma elem_of_csv_rows_of name data row :
  row ∈ csv_rows_of name data →
  csv_FDIR row = name ∧ csv_ID row = fdir_id data ∧
  ((csv_Monitor row = Str "" ∧ csv_Threshold row = Str "") ∨
   ∃ e, e ∈ fdir_monitors data ∧
        csv_Monitor row = monitor e ∧ csv_Threshold row = threshold e) ∧
  ((csv_Condition row = Str "" ∧ csv_Count row = Str "" ∧
    csv_Response row = Str "") ∨
   ∃ e, e ∈ fdir_conditions data ∧
        csv_Condition row = condition e ∧ csv_Count row = count e ∧
        csv_Response row = entry_response e).
Proof.
  unfold csv_rows_of.
  destruct (truthy (fdir_monitors data) || truthy (fdir_conditions data)).
  - intros (i & -> & _)%list_elem_of_fmap. simpl. unfold item_or_blank.
    split; [done|]. split; [done|]. split.
    + destruct (fdir_monitors data !! i) as [e|] eqn:He; [|by left].
      right. exists e. split; [by eapply list_elem_of_lookup_2|done].
    + destruct (fdir_conditions data !! i) as [e|] eqn:He; [|by left].
      right. exists e. split; [by eapply list_elem_of_lookup_2|done].
  - intros ->%list_elem_of_singleton. simpl.
    split; [done|]. split; [done|]. split; by left.
Qed.


(** X13: every row of [combined_data.csv] bears the name and key of a
    definition row; its monitor cells are blank or those of a monitor row
    with that key, and its condition cells are blank or those of a
    condition row with that key and a condition text.  Child rows whose
    key no definition has appear nowhere. *)
Theorem csv_rows_from_matching_children definitions monitors conditions row :
  row ∈ save_combined_data
          (combine_excel_data definitions monitors conditions) →
  (∃ d, d ∈ definitions ∧ csv_FDIR row = FDIRs d ∧ csv_ID row = def_id d) ∧
  ((csv_Monitor row = Str "" ∧ csv_Threshold row = Str "") ∨
   ∃ m, m ∈ monitors ∧ py_eq (mon_id m) (csv_ID row) = true ∧
        csv_Monitor row = mons m ∧ csv_Threshold row = thresholds m) ∧
  ((csv_Condition row = Str "" ∧ csv_Count row = Str "" ∧
    csv_Response row = Str "") ∨
   ∃ c, c ∈ conditions ∧ py_eq (cond_id c) (csv_ID row) = true ∧
        isna (condition_mons c) = false ∧
        csv_Condition row = condition_mons c ∧ csv_Count row = counts c ∧
        csv_Response row = response c).
Proof.
  rewrite save_combined_data_bind.
  intros ([name data] & Hrow & Hin)%list_elem_of_bind. simpl in Hrow.
  apply elem_of_combine in Hin as (d & Hd & <- & ->).
  apply elem_of_csv_rows_of in Hrow as (Hname & Hid & Hmon & Hcond).
  simpl in *. split; [by exists d|]. rewrite Hid. split.
  - destruct Hmon as [?|(e & He & Hm & Ht)]; [by left|right].
    apply list_elem_of_fmap in He as (m & -> & Hm').
    apply elem_of_select_monitors in Hm' as [? ?]. by exists m.
  - destruct Hcond as [?|(e & He & Hc)]; [by left|right].
    apply list_elem_of_fmap in He as (c & -> & Hc').
    apply elem_of_select_conditions in Hc' as (? & ? & ?). by exists c.
Qed.





(** ** The properties at the example sheets *)

Lemma example_union_table :
  ∃ combined_rows,
    create_simple_combined_excel example_definitions example_monitors
      example_conditions = Some combined_rows.
Proof. apply comparable_keys_returns, example_comparable_keys. Qed.

Lemma example_no_empty_key : NaN ∉ mon_id <$> example_monitors.
Proof.
  intros Hin. simpl in Hin.
  repeat (apply elem_of_cons in Hin as [Hin|Hin]; [discriminate Hin|]).
  by apply elem_of_nil in Hin.
Qed.

Lemma example_gyro_monitor :
  mkMonitor (Str "fpu_gyro") (Str "rate") (Int 9) ∈ example_monitors.
Proof. do 4 apply list_elem_of_further. apply list_elem_of_here. Qed.



Lemma empty_monitor_key_fails_witness :
  NaN ∈ mon_id <$> monitors_with_empty_key ∧
  Str "fpu_star" ∈ all_ids monitors_with_empty_key example_conditions ∧
  create_simple_combined_excel example_definitions monitors_with_empty_key
    example_conditions = None.
Proof.
  assert (NaN ∈ mon_id <$> monitors_with_empty_key) as Hnan
    by apply list_elem_of_here.
  assert (Str "fpu_star" ∈ all_ids monitors_with_empty_key example_conditions)
    as Hstar.
  { apply elem_of_all_ids. left. apply list_elem_of_further, list_elem_of_here. }
  split; [exact Hnan|]. split; [exact Hstar|].
  exact (empty_monitor_key_fails example_definitions monitors_with_empty_key
           example_conditions "fpu_star" Hnan Hstar).
Defined.

(** The gyro monitor, whose key no definition has, is in the union
    table. *)
Lemma union_table_covers_children_witness :
  ∃ combined_rows,
    create_simple_combined_excel example_definitions example_monitors
      example_conditions = Some combined_rows ∧
    ∃ row, row ∈ combined_rows ∧ row_id row = Str "fpu_gyro" ∧
           row_mons row = Str "rate" ∧ row_thresholds row = Int 9.
Proof.
  destruct example_union_table as [combined_rows Hrun].
  exists combined_rows. split; [exact Hrun|].
  destruct (union_table_covers_children example_definitions example_monitors
              example_conditions combined_rows Hrun) as (_ & Hmons & _).
  apply (Hmons (mkMonitor (Str "fpu_gyro") (Str "rate") (Int 9)));
    [exact example_gyro_monitor|reflexivity].
Defined.

Lemma union_table_sorted_witness :
  (NaN ∉ mon_id <$> example_monitors) ∧
  ∃ combined_rows sorted_ids,
    create_simple_combined_excel example_definitions example_monitors
      example_conditions = Some combined_rows ∧
    Sorted py_le sorted_ids ∧
    combined_rows =
      sorted_ids ≫=
        rows_of_id
          (fix_mismatches (all_ids example_monitors example_conditions)
             (id_to_fdir_of example_definitions))
          example_monitors example_conditions.
Proof.
  split; [exact example_no_empty_key|].
  destruct example_union_table as [combined_rows Hrun].
  destruct (union_table_sorted example_definitions example_monitors
              example_conditions combined_rows example_no_empty_key Hrun)
    as (sorted_ids & Hsorted & _ & _ & Hrows).
  exists combined_rows, sorted_ids.
  split; [exact Hrun|]. split; [exact Hsorted|exact Hrows].
Defined.


Lemma example_csv_battery :
  mkCsvRow (Str "Battery") (Str "fpu_batt") (Str "") (Str "") (Str "")
    (Str "") (Str "")
  ∈ save_combined_data
      (combine_excel_data example_definitions example_monitors
         example_conditions).
Proof. apply list_elem_of_here. Qed.

(** The blank row of [Battery] in the example's CSV bears the name and
    key of a definition row. *)
Lemma csv_rows_from_matching_children_witness :
  mkCsvRow (Str "Battery") (Str "fpu_batt") (Str "") (Str "") (Str "")
    (Str "") (Str "")
  ∈ save_combined_data
      (combine_excel_data example_definitions example_monitors
         example_conditions) ∧
  ∃ d, d ∈ example_definitions ∧ Str "Battery" = FDIRs d ∧
       Str "fpu_batt" = def_id d.
Proof.
  split; [exact example_csv_battery|].
  destruct (csv_rows_from_matching_children example_definitions
              example_monitors example_conditions _ example_csv_battery)
    as [Hdef _].
  exact Hdef.
Defined.


Lemma union_table_iff_comparable_witness :
  (NaN ∉ mon_id <$> example_monitors) ∧
  comparable_keys example_monitors example_conditions ∧
  is_Some (create_simple_combined_excel example_definitions example_monitors
             example_conditions).
Proof.
  split; [exact example_no_empty_key|].
  split; [exact example_comparable_keys|].
  apply (proj2 (union_table_iff_comparable example_definitions
                  example_monitors example_conditions example_no_empty_key)).
  exact example_comparable_keys.
Defined.

End CombinerMore.

(** * Facts about the formatted workbook *)

Module FormattedFacts.
Import Combiner Formatted CombinerFacts.

Lemma flat_data_bind definitions monitors conditions :
  flat_data definitions monitors conditions =
    definitions ≫= flat_rows_of monitors conditions.
Proof. unfold flat_data. by rewrite foldl_append_bind. Qed.

(** The four cases of the flat view are one layout. *)
Lemma flat_rows_of_uniform monitors conditions d :
  flat_rows_of monitors conditions d =
    (λ i, mkFlatRow (FDIRs d) (def_id d)
            (item_or_blank (select_monitors monitors (def_id d)) i mons)
            (item_or_blank (select_monitors monitors (def_id d)) i thresholds)
            (item_or_blank (select_conditions conditions (def_id d)) i
               condition_mons)
            (item_or_blank (select_conditions conditions (def_id d)) i counts)
            (item_or_blank (select_conditions conditions (def_id d)) i
               response))
      <$> seq 0 ((length (select_monitors monitors (def_id d))
                    `max` length (select_conditions conditions (def_id d)))
                   `max` 1).
Proof.
  unfold flat_rows_of.
  destruct (select_monitors monitors (def_id d)) as [|m ms] eqn:Hms,
           (select_conditions conditions (def_id d)) as [|c cs] eqn:Hcs.
  - done.
  - cbn [is_empty andb]. rewrite <- Hcs.
    replace ((length (@nil monitor_row)
                `max` length (select_conditions conditions (def_id d)))
               `max` 1)
      with (length (select_conditions conditions (def_id d)))
      by (rewrite Hcs; simpl; lia).
    apply fmap_seq_lookup. intros i x Hx. unfold item_or_blank.
    by rewrite Hx, lookup_nil.
  - cbn [is_empty andb]. rewrite <- Hms.
    replace ((length (select_monitors monitors (def_id d))
                `max` length (@nil condition_row)) `max` 1)
      with (length (select_monitors monitors (def_id d)))
      by (rewrite Hms; simpl; lia).
    apply fmap_seq_lookup. intros i x Hx. unfold item_or_blank.
    by rewrite Hx, lookup_nil.
  - cbn [is_empty andb]. rewrite <- Hms, <- Hcs.
    replace ((length (select_monitors monitors (def_id d))
                `max` length (select_conditions conditions (def_id d)))
               `max` 1)
      with (length (select_monitors monitors (def_id d))
              `max` length (select_conditions conditions (def_id d)))
      by (rewrite Hms; simpl; lia).
    apply list_fmap_ext. intros _ i _.
    unfold fill_condition, fill_monitor, item_or_blank, blank_row.
    destruct (select_monitors monitors (def_id d) !! i) as [mi|] eqn:Hmi,
             (select_conditions conditions (def_id d) !! i) as [ci|] eqn:Hci;
      repeat case_decide; simpl; try done;
      try (apply lookup_lt_Some in Hmi; lia);
      try (apply lookup_lt_Some in Hci; lia).
Qed.


(** X15: for a definition row, the flat view of the formatted workbook
    lays out the rows that the union script lays out for the row's key,
    whenever the union script labels that key with the row's name; in
    particular it has [max m n 1] rows. *)
Theorem flat_view_agrees_with_union monitors conditions d
    (id_to_fdir : gmap value value) :
  fdir_name_of id_to_fdir (def_id d) = FDIRs d →
  flat_rows_of monitors conditions d =
    rows_of_id id_to_fdir monitors conditions (def_id d) ∧
  length (flat_rows_of monitors conditions d) =
    (length (select_monitors monitors (def_id d))
       `max` length (select_conditions conditions (def_id d))) `max` 1.
Proof.
  intros Hname. rewrite flat_rows_of_uniform. split.
  - unfold rows_of_id. by rewrite Hname.
  - by rewrite length_fmap, length_seq.
Qed.

Lemma dict_set_fresh {V : Type} (d : list (value * V)) k v :
  k ∉ d.*1 → dict_set k v d = d ++ [(k, v)].
Proof.
  induction d as [|[k0 v0] d IH]; intros Hk; [done|].
  cbn [dict_set]. rewrite fmap_cons in Hk. cbn [fst] in Hk.
  apply not_elem_of_cons in Hk as [Hne Hk].
  rewrite decide_False by done. by rewrite IH.
Qed.

Lemma combine_excel_data_NoDup definitions monitors conditions :
  NoDup (FDIRs <$> definitions) →
  combine_excel_data definitions monitors conditions =
    (λ d, (FDIRs d, fdir_record monitors conditions d)) <$> definitions.
Proof.
  induction definitions as [|d definitions IH] using rev_ind; [done|].
  rewrite fmap_app. intros [Hnd [Hnew _]]%NoDup_app.
  rewrite combine_excel_data_snoc, IH by done. unfold process_fdir.
  rewrite dict_set_fresh, fmap_app; [done|].
  rewrite <- list_fmap_compose. intros Hin. apply (Hnew _ Hin). by left.
Qed.

Lemma csv_rows_of_uniform name data :
  csv_rows_of name data =
    (λ i, mkCsvRow name (fdir_id data)
            (item_or_blank (fdir_monitors data) i monitor)
            (item_or_blank (fdir_monitors data) i threshold)
            (item_or_blank (fdir_conditions data) i condition)
            (item_or_blank (fdir_conditions data) i count)
            (item_or_blank (fdir_conditions data) i entry_response))
      <$> seq 0 ((length (fdir_monitors data)
                    `max` length (fdir_conditions data)) `max` 1).
Proof.
  unfold csv_rows_of.
  destruct (fdir_monitors data) as [|e es], (fdir_conditions data) as [|c cs];
    cbn [truthy orb]; [done|..].
  - by replace ((length (@nil monitor_entry) `max` length (c :: cs)) `max` 1)
      with (length (@nil monitor_entry) `max` length (c :: cs))
      by (simpl; lia).
  - by replace ((length (e :: es) `max` length (@nil condition_entry))
                  `max` 1)
      with (length (e :: es) `max` length (@nil condition_entry))
      by (simpl; lia).
  - by replace ((length (e :: es) `max` length (c :: cs)) `max` 1)
      with (length (e :: es) `max` length (c :: cs)) by (simpl; lia).
Qed.

Lemma csv_rows_of_flat monitors conditions d :
  csv_rows_of (FDIRs d) (fdir_record monitors conditions d) =
    csv_of_flat <$> flat_rows_of monitors conditions d.
Proof.
  rewrite csv_rows_of_uniform, flat_rows_of_uniform, <- list_fmap_compose.
  unfold fdir_record, monitor_list, condition_list. simpl.
  rewrite !length_fmap. apply list_fmap_ext. intros _ i _.
  unfold item_or_blank, csv_of_flat. simpl. rewrite !list_lookup_fmap.
  by destruct (select_monitors monitors (def_id d) !! i),
              (select_conditions conditions (def_id d) !! i).
Qed.

(** X16: when no two definition rows share a name, the CSV of the
    combiner and the flat view of the formatted workbook hold the same
    rows in the same order. *)
Theorem csv_is_flat_view definitions monitors conditions :
  NoDup (FDIRs <$> definitions) →
  save_combined_data (combine_excel_data definitions monitors conditions) =
    csv_of_flat <$> flat_data definitions monitors conditions.
Proof.
  intros Hnd. rewrite save_combined_data_bind, flat_data_bind.
  rewrite combine_excel_data_NoDup by done. clear Hnd.
  induction definitions as [|d definitions IH]; [done|].
  rewrite fmap_cons, !bind_cons, fmap_app, IH. simpl.
  by rewrite csv_rows_of_flat.
Qed.

(** ** The holistic view *)

Section holistic_facts.
Variable upper : string → string.

Lemma holistic_rows_of_is_Some monitors conditions d :
  is_Some (holistic_rows_of upper monitors conditions d) ↔
  is_Some (as_text (FDIRs d)).
Proof.
  unfold holistic_rows_of, upper_name, as_text.
  destruct (FDIRs d); simpl; split; intros [? ?]; by eauto.
Qed.

Lemma length_holistic_row (ms : list monitor_row) (cs : list condition_row)
    (i : nat) :
  length (holistic_row ms cs i) = 7.
Proof.
  unfold holistic_row.
  repeat case_decide; repeat case_match;
    by rewrite ?length_insert, ?length_replicate.
Qed.

Lemma holistic_rows_of_shape monitors conditions d block :
  holistic_rows_of upper monitors conditions d = Some block →
  Forall (λ row, length row = 7) block ∧
  length block =
    5 + length (select_monitors monitors (def_id d))
          `max` length (select_conditions conditions (def_id d)).
Proof.
  unfold holistic_rows_of. destruct (upper_name upper (FDIRs d)); [|done].
  simpl. intros [= <-]. split.
  - repeat (apply Forall_cons; split; [done|]).
    apply Forall_app. split; [|by repeat constructor].
    apply Forall_fmap, Forall_forall. intros i _. apply length_holistic_row.
  - simpl. rewrite length_app, length_fmap, length_seq. simpl. lia.
Qed.

Lemma holistic_data_blocks definitions monitors conditions :
  holistic_data upper definitions monitors conditions =
    blocks ← mapM (holistic_rows_of upper monitors conditions) definitions;
    Some (concat blocks).
Proof.
  unfold holistic_data. rewrite for_each_blocks.
  by destruct (mapM _ definitions).
Qed.

(** X17: the formatted workbook is produced exactly when every
    definition row has a text name; one empty or numeric name makes the
    holistic view fail, and then nothing is laid out. *)
Theorem formatted_workbook_iff_text_names definitions monitors conditions :
  is_Some (create_formatted_excel upper definitions monitors conditions) ↔
  Forall (λ d, is_Some (as_text (FDIRs d))) definitions.
Proof.
  unfold create_formatted_excel. rewrite holistic_data_blocks.
  transitivity
    (is_Some (mapM (holistic_rows_of upper monitors conditions) definitions)).
  - destruct (mapM _ definitions); simpl; split; intros [? ?]; by eauto.
  - rewrite mapM_is_Some. apply Forall_iff. intros d.
    apply holistic_rows_of_is_Some.
Qed.

(** X18: in a formatted workbook that is produced, every row of the
    holistic view has seven cells, the view has five rows per definition
    row plus one row per monitor or condition line, and the flat view is
    the one of [flat_data]. *)
Theorem holistic_view_shape definitions monitors conditions holistic flat :
  create_formatted_excel upper definitions monitors conditions
    = Some (holistic, flat) →
  Forall (λ row, length row = 7) holistic ∧
  length holistic =
    sum_list ((λ d, 5 + length (select_monitors monitors (def_id d))
                          `max` length (select_conditions conditions
                                          (def_id d)))
                <$> definitions) ∧
  flat = flat_data definitions monitors conditions.
Proof.
  unfold create_formatted_excel. rewrite holistic_data_blocks.
  destruct (mapM _ definitions) as [blocks|] eqn:Hblocks; [|done].
  simpl. intros [= <- <-]. split; [|split; [|done]].
  - apply mapM_Some_1 in Hblocks.
    induction Hblocks as [|d block ds blocks' Hd _ IH]; [constructor|].
    simpl. apply Forall_app. split; [|done].
    by apply holistic_rows_of_shape in Hd as [? _].
  - apply mapM_Some_1 in Hblocks.
    induction Hblocks as [|d block ds blocks' Hd _ IH]; [done|].
    apply holistic_rows_of_shape in Hd as [_ Hlen].
    rewrite fmap_cons. cbn [concat sum_list_with sum_list].
    rewrite length_app, IH, Hlen. unfold sum_list. simpl. lia.
Qed.

End holistic_facts.

(** ** The properties at the example sheets *)

Lemma example_star_label :
  fdir_name_of (id_to_fdir_of example_definitions) (Str "fpu_star") =
    Str "Star".
Proof. by vm_compute. Qed.

Lemma example_definition_names : NoDup (FDIRs <$> example_definitions).
Proof. apply (bool_decide_unpack _). by vm_compute. Qed.

(** [Star] has two monitors and one condition with a text: two rows. *)
Lemma flat_view_agrees_with_union_witness :
  fdir_name_of (id_to_fdir_of example_definitions) (Str "fpu_star") =
    Str "Star" ∧
  flat_rows_of example_monitors example_conditions
    (mkDefinition (Str "Star") (Str "fpu_star")) =
    rows_of_id (id_to_fdir_of example_definitions) example_monitors
      example_conditions (Str "fpu_star") ∧
  length (flat_rows_of example_monitors example_conditions
            (mkDefinition (Str "Star") (Str "fpu_star"))) = 2.
Proof.
  split; [exact example_star_label|].
  destruct (flat_view_agrees_with_union example_monitors example_conditions
              (mkDefinition (Str "Star") (Str "fpu_star"))
              (id_to_fdir_of example_definitions) example_star_label)
    as [Hrows Hlen].
  split; [exact Hrows|]. rewrite Hlen. reflexivity.
Defined.

Lemma csv_is_flat_view_witness :
  NoDup (FDIRs <$> example_definitions) ∧
  save_combined_data
    (combine_excel_data example_definitions example_monitors
       example_conditions) =
    csv_of_flat
      <$> flat_data example_definitions example_monitors example_conditions.
Proof.
  split; [exact example_definition_names|].
  exact (csv_is_flat_view example_definitions example_monitors
           example_conditions example_definition_names).
Defined.

Lemma example_formatted_workbook :
  ∃ holistic flat,
    create_formatted_excel (λ name, name) example_definitions
      example_monitors example_conditions = Some (holistic, flat).
Proof. eexists _, _. by vm_compute. Qed.

(** The example's holistic view: five rows for [Battery], seven for
    [Star]. *)
Lemma holistic_view_shape_witness :
  ∃ holistic flat,
    create_formatted_excel (λ name, name) example_definitions
      example_monitors example_conditions = Some (holistic, flat) ∧
    Forall (λ row, length row = 7) holistic ∧
    length holistic = 12 ∧
    flat = flat_data example_definitions example_monitors example_conditions.
Proof.
  destruct example_formatted_workbook as (holistic & flat & Hrun).
  exists holistic, flat. split; [exact Hrun|].
  destruct (holistic_view_shape (λ name, name) example_definitions
              example_monitors example_conditions holistic flat Hrun)
    as (Hcells & Hlen & Hflat).
  split; [exact Hcells|]. split; [|exact Hflat].
  rewrite Hlen. reflexivity.
Defined.

Lemma formatted_workbook_iff_text_names_witness :
  Forall (λ d, is_Some (as_text (FDIRs d))) example_definitions ∧
  is_Some (create_formatted_excel (λ name, name) example_definitions
             example_monitors example_conditions).
Proof.
  split; [exact example_names_text|].
  apply (proj2 (formatted_workbook_iff_text_names (λ name, name)
                  example_definitions example_monitors example_conditions)).
  exact example_names_text.
Defined.

End FormattedFacts.

(** * Facts about the sheet reader *)

Module ReaderFacts.
Import Differ Combiner Keys Reader CombinerFacts CombinerMore.

Lemma monitor_rows_with_id df k :
  monitor_rows (rows_with_id df k) = select_monitors (monitor_rows df) k.
Proof.
  unfold monitor_rows, rows_with_id, select_monitors. simpl.
  by rewrite filter_fmap_comm.
Qed.

Lemma condition_rows_with_id df k :
  condition_rows (rows_with_id df k) =
    filter (λ c, py_eq (cond_id c) k) (condition_rows df).
Proof.
  unfold condition_rows, rows_with_id. simpl. by rewrite filter_fmap_comm.
Qed.

Lemma wf_filter_rows (df : DataFrame) (P : gmap string value → Prop)
    `{∀ row, Decision (P row)} :
  wf_frame df → wf_frame (mkFrame (columns df) (filter P (rows df))).
Proof.
  intros [Hnd Hrows]. split; [done|]. simpl.
  apply Forall_forall. intros row [_ Hrow]%list_elem_of_filter.
  by apply (proj1 (Forall_forall _ _) Hrows).
Qed.

Lemma dict_of_zip_columns df :
  dict_of_zip (column df "FDIRs") (column df "id") =
    foldl (λ d row, dict_set (FDIRs row) (def_id row) d) []
      (definition_rows df).
Proof.
  unfold dict_of_zip, column, definition_rows, cell_of.
  generalize (@nil (value * value)).
  induction (rows df) as [|row rows IH]; intros acc; [done|].
  simpl. apply IH.
Qed.

Lemma mapping_agrees definitions monitors conditions :
  let mapping :=
    foldl (λ d row, dict_set (FDIRs row) (def_id row) d) [] definitions in
  let combined := combine_excel_data definitions monitors conditions in
  keys mapping = keys combined ∧
  ∀ name, dict_get name mapping = fdir_id <$> dict_get name combined.
Proof.
  simpl. induction definitions as [|row definitions IH] using rev_ind;
    [done|].
  destruct IH as [Hkeys Hget].
  rewrite combine_excel_data_snoc, foldl_app. simpl. unfold process_fdir.
  split.
  - by rewrite !keys_dict_set, Hkeys.
  - intros name. rewrite !dict_get_dict_set.
    destruct (decide (FDIRs row = name)); [done|apply Hget].
Qed.


Lemma condition_rows_dropna df :
  condition_rows
    (mkFrame (columns df)
       (filter (λ row : gmap string value,
                  notna (default NaN (row !! "condition_mons"))) (rows df)))
  = dropna_condition_mons (condition_rows df).
Proof.
  unfold condition_rows, dropna_condition_mons. simpl.
  by rewrite filter_fmap_comm.
Qed.

(** X19: the monitors getter returns nothing when the sheet was not
    read or has no [id] column; otherwise it returns the sheet's columns
    with exactly the rows the combiner selects for the key, in sheet
    order, and a well-formed table stays well formed. *)
Theorem monitors_getter_outcomes (sheets_data : gmap string DataFrame)
    target_id :
  match get_monitors_for_id sheets_data target_id with
  | None =>
      sheets_data !! "monitors" = None ∨
      ∃ df, sheets_data !! "monitors" = Some df ∧ "id" ∉ columns df
  | Some filtered_df =>
      ∃ df, sheets_data !! "monitors" = Some df ∧ "id" ∈ columns df ∧
        columns filtered_df = columns df ∧
        rows filtered_df `sublist_of` rows df ∧
        monitor_rows filtered_df =
          select_monitors (monitor_rows df) target_id ∧
        (wf_frame df → wf_frame filtered_df)
  end.
Proof.
  unfold get_monitors_for_id.
  destruct (sheets_data !! "monitors") as [df|]; [|by left].
  destruct (decide ("id" ∉ columns df)) as [Hno|Hid].
  - right. by exists df.
  - apply dec_stable in Hid. exists df. split; [done|]. split; [done|].
    split; [done|]. split; [apply sublist_filter|].
    split; [apply monitor_rows_with_id|]. apply wf_filter_rows.
Qed.

(** X20: the conditions getter returns nothing when the sheet was not
    read or has no [id] column; on a sheet with an [id] column but
    without a [condition_mons] column it raises [KeyError]; otherwise it
    returns the sheet's columns with exactly the rows the combiner
    selects for the key: those with the key and a condition text, in
    sheet order. *)
Theorem conditions_getter_outcomes (sheets_data : gmap string DataFrame)
    target_id :
  match get_conditions_for_id sheets_data target_id with
  | Returns None =>
      sheets_data !! "conditions" = None ∨
      ∃ df, sheets_data !! "conditions" = Some df ∧ "id" ∉ columns df
  | Raises exception =>
      exception = "KeyError" ∧
      ∃ df, sheets_data !! "conditions" = Some df ∧ "id" ∈ columns df ∧
            "condition_mons" ∉ columns df
  | Returns (Some filtered_df) =>
      ∃ df, sheets_data !! "conditions" = Some df ∧ "id" ∈ columns df ∧
        "condition_mons" ∈ columns df ∧
        columns filtered_df = columns df ∧
        rows filtered_df `sublist_of` rows df ∧
        condition_rows filtered_df =
          select_conditions (condition_rows df) target_id ∧
        (wf_frame df → wf_frame filtered_df)
  end.
Proof.
  unfold get_conditions_for_id.
  destruct (sheets_data !! "conditions") as [df|]; [|by left].
  destruct (decide ("id" ∉ columns df)) as [Hno|Hid].
  - right. by exists df.
  - apply dec_stable in Hid. unfold dropna.
    change (columns (rows_with_id df target_id)) with (columns df).
    destruct (decide ("condition_mons" ∈ columns df)) as [Hcol|Hcol].
    + exists df. do 4 (split; [done|]). split; [|split].
      * simpl. etrans; apply sublist_filter.
      * unfold select_conditions.
        rewrite <- condition_rows_with_id.
        apply (condition_rows_dropna (rows_with_id df target_id)).
      * intros Hwf.
        apply (wf_filter_rows (rows_with_id df target_id)).
        by apply wf_filter_rows.
    + split; [done|]. by exists df.
Qed.

(** X21: on three sheets with the columns the scripts read, the reader
    and the combiner tell the same story: the definitions mapping has the
    combiner's entities in the combiner's order, and for each entity the
    two getters, asked for the mapped key, return the very monitor and
    condition rows that the combiner stores in the entity's record. *)
Theorem reader_agrees_with_combiner (sheets_data : gmap string DataFrame)
    defs_df mons_df conds_df :
  sheets_data !! "definitions" = Some defs_df →
  sheets_data !! "monitors" = Some mons_df →
  sheets_data !! "conditions" = Some conds_df →
  "FDIRs" ∈ columns defs_df → "id" ∈ columns defs_df →
  "id" ∈ columns mons_df →
  "id" ∈ columns conds_df → "condition_mons" ∈ columns conds_df →
  let combined :=
    combine_excel_data (definition_rows defs_df) (monitor_rows mons_df)
      (condition_rows conds_df) in
  ∃ mapping,
    get_definitions_mapping sheets_data = Some mapping ∧
    keys mapping = keys combined ∧
    ∀ name id, dict_get name mapping = Some id →
      ∃ monitors_df conditions_df data,
        get_monitors_for_id sheets_data id = Some monitors_df ∧
        get_conditions_for_id sheets_data id
          = Returns (Some conditions_df) ∧
        dict_get name combined = Some data ∧
        fdir_id data = id ∧
        fdir_monitors data = monitor_list (monitor_rows monitors_df) ∧
        fdir_conditions data =
          condition_list (condition_rows conditions_df).
Proof.
  intros Hdefs Hmons Hconds HF Hid Hmid Hcid Hctext. simpl.
  destruct (mapping_agrees (definition_rows defs_df) (monitor_rows mons_df)
              (condition_rows conds_df)) as [Hkeys Hget].
  eexists. split.
  { unfold get_definitions_mapping. rewrite Hdefs.
    rewrite decide_True by done. by rewrite dict_of_zip_columns. }
  split; [done|]. intros name id Hname.
  rewrite Hget in Hname.
  destruct (dict_get name (combine_excel_data _ _ _)) as [data|] eqn:Hdata;
    [|done].
  injection Hname as Hname.
  apply dict_get_elem_of, elem_of_combine in Hdata as (row & _ & _ & ->).
  simpl in Hname. subst id.
  eexists _, _, _. split; [|split; [|split; [done|]]].
  - unfold get_monitors_for_id. rewrite Hmons.
    by rewrite decide_False by (by intros ?).
  - unfold get_conditions_for_id, dropna. rewrite Hconds.
    rewrite decide_False by (by intros ?).
    change (columns (rows_with_id conds_df (def_id row)))
      with (columns conds_df).
    by rewrite decide_True by done.
  - split; [done|]. simpl. split.
    + by rewrite monitor_rows_with_id.
    + f_equal. unfold select_conditions.
      rewrite <- condition_rows_with_id.
      symmetry.
      apply (condition_rows_dropna (rows_with_id conds_df (def_id row))).
Qed.


(** ** The reader at the example workbook *)

Lemma reader_agrees_with_combiner_witness :
  example_sheets !! "definitions" = Some example_definitions_sheet ∧
  example_sheets !! "monitors" = Some example_monitors_sheet ∧
  example_sheets !! "conditions" = Some example_conditions_sheet ∧
  "FDIRs" ∈ columns example_definitions_sheet ∧
  "id" ∈ columns example_definitions_sheet ∧
  "id" ∈ columns example_monitors_sheet ∧
  "id" ∈ columns example_conditions_sheet ∧
  "condition_mons" ∈ columns example_conditions_sheet ∧
  ∃ mapping,
    get_definitions_mapping example_sheets = Some mapping ∧
    keys mapping =
      keys (combine_excel_data (definition_rows example_definitions_sheet)
              (monitor_rows example_monitors_sheet)
              (condition_rows example_conditions_sheet)).
Proof.
  assert (example_sheets !! "definitions" = Some example_definitions_sheet)
    as Hdefs by (by vm_compute).
  assert (example_sheets !! "monitors" = Some example_monitors_sheet)
    as Hmons by (by vm_compute).
  assert (example_sheets !! "conditions" = Some example_conditions_sheet)
    as Hconds by (by vm_compute).
  assert ("FDIRs" ∈ columns example_definitions_sheet) as H1
    by apply list_elem_of_here.
  assert ("id" ∈ columns example_definitions_sheet) as H2
    by apply list_elem_of_further, list_elem_of_here.
  assert ("id" ∈ columns example_monitors_sheet) as H3
    by apply list_elem_of_here.
  assert ("id" ∈ columns example_conditions_sheet) as H4
    by apply list_elem_of_here.
  assert ("condition_mons" ∈ columns example_conditions_sheet) as H5
    by apply list_elem_of_further, list_elem_of_here.
  repeat (split; [assumption|]).
  destruct (reader_agrees_with_combiner example_sheets
              example_definitions_sheet example_monitors_sheet
              example_conditions_sheet Hdefs Hmons Hconds H1 H2 H3 H4 H5)
    as (mapping & Hmap & Hkeys & _).
  exists mapping. split; [exact Hmap|exact Hkeys].
Defined.

(** The getters asked for [fpu_star]. *)
Lemma monitors_getter_outcomes_witness :
  ∃ filtered_df df,
    get_monitors_for_id example_sheets (Str "fpu_star") = Some filtered_df ∧
    example_sheets !! "monitors" = Some df ∧
    monitor_rows filtered_df =
      select_monitors (monitor_rows df) (Str "fpu_star").
Proof.
  pose proof (monitors_getter_outcomes example_sheets (Str "fpu_star"))
    as Hcases.
  destruct (get_monitors_for_id example_sheets (Str "fpu_star"))
    as [filtered_df|] eqn:Hget; [|by vm_compute in Hget].
  destruct Hcases as (df & Hdf & _ & _ & _ & Hrows & _).
  exists filtered_df, df. split; [reflexivity|]. split; [exact Hdf|exact Hrows].
Defined.

Lemma conditions_getter_outcomes_witness :
  ∃ filtered_df df,
    get_conditions_for_id example_sheets (Str "fpu_star")
      = Returns (Some filtered_df) ∧
    example_sheets !! "conditions" = Some df ∧
    condition_rows filtered_df =
      select_conditions (condition_rows df) (Str "fpu_star").
Proof.
  pose proof (conditions_getter_outcomes example_sheets (Str "fpu_star"))
    as Hcases.
  destruct (get_conditions_for_id example_sheets (Str "fpu_star"))
    as [[filtered_df|]|exception] eqn:Hget;
    [|by vm_compute in Hget..].
  destruct Hcases as (df & Hdf & _ & _ & _ & _ & Hrows & _).
  exists filtered_df, df. split; [reflexivity|]. split; [exact Hdf|exact Hrows].
Defined.

End ReaderFacts.

(** * Facts about the response lookup table *)

Module LookupFacts.
Import Combiner Keys Lookup CombinerFacts CombinerMore.

Lemma elem_of_drop_duplicates df row :
  row ∈ drop_duplicates df ↔ row ∈ df.
Proof.
  induction df as [|first df IH]; [done|]. cbn [drop_duplicates].
  rewrite !elem_of_cons, list_elem_of_filter, IH.
  destruct (decide (row = first)); tauto.
Qed.

Lemma NoDup_drop_duplicates df : NoDup (drop_duplicates df).
Proof.
  induction df as [|first df IH]; [constructor|]. cbn [drop_duplicates].
  constructor; [|by apply NoDup_filter].
  rewrite list_elem_of_filter. by intros [? _].
Qed.

Lemma elem_of_dropna_response df row :
  row ∈ dropna_response df ↔ resp_response row ≠ NaN ∧ row ∈ df.
Proof.
  unfold dropna_response. rewrite list_elem_of_filter.
  destruct (resp_response row); simpl; intuition congruence.
Qed.

Section loop.
Context {A V : Type} (key : A → value) (entry : A → V).

Implicit Types (l : list A) (d : list (value * V)).

Lemma keys_loop l :
  NoDup (keys (foldl (λ d x, dict_set (key x) (entry x) d) [] l)) ∧
  ∀ k, k ∈ keys (foldl (λ d x, dict_set (key x) (entry x) d) [] l) ↔ k ∈ key <$> l.
Proof.
  induction l as [|x l [IHnd IHin]] using rev_ind.
  { split; [constructor|done]. }
  rewrite foldl_app, fmap_app. cbn [foldl fmap list_fmap].
  rewrite keys_dict_set.
  destruct (decide (key x ∈ keys (foldl (λ d x, dict_set (key x) (entry x) d) [] l))) as [Hin|Hout].
  - split; [done|]. intros k. rewrite elem_of_app, list_elem_of_singleton, IHin.
    split; [tauto|]. intros [?| ->]; [done|]. by apply IHin.
  - split.
    + apply NoDup_app. split; [done|]. split; [|apply NoDup_singleton].
      intros k Hk ->%list_elem_of_singleton. by apply Hout.
    + intros k. by rewrite !elem_of_app, !list_elem_of_singleton, IHin.
Qed.

Lemma dict_get_loop l k :
  dict_get k (foldl (λ d x, dict_set (key x) (entry x) d) [] l) =
    entry <$> last (filter (λ x, key x = k) l).
Proof.
  induction l as [|x l IH] using rev_ind; [done|].
  rewrite foldl_app. cbn [foldl].
  rewrite dict_get_dict_set, filter_app, filter_cons, filter_nil, IH.
  destruct (decide (key x = k)) as [Heq|Hne].
  - by rewrite last_snoc.
  - by rewrite app_nil_r.
Qed.

Lemma elem_of_loop l (item : value * V) :
  item ∈ foldl (λ d x, dict_set (key x) (entry x) d) [] l →
  ∃ x, last (filter (λ y, key y = item.1) l) = Some x ∧ item.2 = entry x.
Proof.
  intros Hitem. destruct item as [k e]. simpl.
  assert (dict_get k (foldl (λ d x, dict_set (key x) (entry x) d) [] l) = Some e) as Hget.
  { destruct (keys_loop l) as [Hnd _]. revert Hnd Hitem.
    generalize (foldl (λ d x, dict_set (key x) (entry x) d) [] l). intros d. unfold keys.
    induction d as [|[k0 e0] d IHd]; [by intros _ ?%elem_of_nil|].
    rewrite fmap_cons. cbn [fst dict_get].
    intros [Hnew Hnd]%NoDup_cons [[= -> ->]|Hin]%elem_of_cons.
    - by rewrite decide_True.
    - rewrite decide_False; [by apply IHd|].
      intros ->. apply Hnew. apply list_elem_of_fmap. by exists (k, e). }
  rewrite dict_get_loop in Hget.
  destruct (last (filter (λ y, key y = k) l)) as [x|]; [|done].
  exists x. split; [done|]. by injection Hget.
Qed.

End loop.

Section strip_facts.
Variable strip : string → string.

Lemma clean_lookup_dict_loop df :
  clean_lookup_dict strip df =
    foldl (λ d row, dict_set (resp_response row) (entry_of strip row) d) []
      (drop_duplicates (dropna_response df)).
Proof. done. Qed.

Lemma format_row_entry_of sep row :
  format_row sep (resp_response row, entry_of strip row) =
    mkLookupRow (resp_response row)
      (String.concat sep (lines_of strip (resp_response_text row)))
      (String.concat sep (lines_of strip (resp_recovery_text row))).
Proof.
  unfold format_row, entry_of, lines_of. cbn [fst snd].
  f_equal.
  - destruct (has_content (resp_response_text row)); [|done].
    by destruct (clean_lines strip (resp_response_text row)) as [|? [|? ?]].
  - destruct (has_content (resp_recovery_text row)); [|done].
    by destruct (clean_lines strip (resp_recovery_text row)).
Qed.

Lemma clean_lines_nonempty v line :
  line ∈ clean_lines strip v → line ≠ "".
Proof.
  unfold clean_lines.
  intros (raw & -> & [Hraw _]%list_elem_of_filter)%list_elem_of_fmap. done.
Qed.

Lemma winning_row df (item : value * response_entry) :
  item ∈ clean_lookup_dict strip df →
  ∃ row,
    last (filter (λ other, resp_response other = item.1)
            (drop_duplicates (dropna_response df))) = Some row ∧
    row ∈ df ∧ resp_response row = item.1 ∧ item.1 ≠ NaN ∧
    item.2 = entry_of strip row.
Proof.
  rewrite clean_lookup_dict_loop. intros (row & Hlast & Hentry)%elem_of_loop.
  exists row. split; [done|].
  assert (row ∈ filter (λ other, resp_response other = item.1)
            (drop_duplicates (dropna_response df))) as Hin.
  { apply last_Some in Hlast as [l' ->]. apply elem_of_app. right. by left. }
  apply list_elem_of_filter in Hin as [Hkey Hin].
  apply elem_of_drop_duplicates, elem_of_dropna_response in Hin as [Hna Hin].
  repeat split; try done. by rewrite <- Hkey.
Qed.

Lemma formatted_with sep df frow :
  frow ∈ format_row sep <$> clean_lookup_dict strip df →
  ∃ row,
    last (filter (λ other, resp_response other = lookup_response frow)
            (drop_duplicates (dropna_response df))) = Some row ∧
    row ∈ df ∧
    lookup_response frow = resp_response row ∧
    lookup_response_text frow =
      String.concat sep (lines_of strip (resp_response_text row)) ∧
    lookup_recovery_steps frow =
      String.concat sep (lines_of strip (resp_recovery_text row)).
Proof.
  intros ([k e] & -> & Hitem)%list_elem_of_fmap.
  destruct (winning_row df (k, e) Hitem) as (row & Hlast & Hin & Hk & _ & He).
  simpl in Hk, He. subst k e. exists row.
  rewrite format_row_entry_of. by cbn [lookup_response lookup_response_text
    lookup_recovery_steps].
Qed.

(** X22: the lookup table has one entry per response that stands in
    the sheet, none for the empty response, and the formatted Excel and
    CSV tables list these responses in the order of the entries. *)
Theorem lookup_keys df :
  let table := clean_lookup_dict strip df in
  NoDup (keys table) ∧
  (∀ k, k ∈ keys table ↔ k ≠ NaN ∧ k ∈ resp_response <$> df) ∧
  lookup_response <$> formatted_rows strip df = keys table ∧
  lookup_response <$> csv_rows strip df = keys table.
Proof.
  simpl. rewrite clean_lookup_dict_loop.
  destruct (keys_loop resp_response (entry_of strip)
              (drop_duplicates (dropna_response df))) as [Hnd Hin].
  split; [done|]. split; [|split].
  - intros k. rewrite Hin, !list_elem_of_fmap. split.
    + intros (row & -> & Hrow).
      apply elem_of_drop_duplicates, elem_of_dropna_response in Hrow
        as [Hna Hrow].
      split; [done|]. by exists row.
    + intros [Hna (row & -> & Hrow)]. exists row. split; [done|].
      by apply elem_of_drop_duplicates, elem_of_dropna_response.
  - unfold formatted_rows, keys. rewrite <- list_fmap_compose.
    by apply list_fmap_ext.
  - unfold csv_rows, keys. rewrite <- list_fmap_compose.
    by apply list_fmap_ext.
Qed.

(** X23: a row of the formatted Excel table comes from a row of the
    sheet with that response, the last one among the distinct rows left
    after the cleaning; its text cells hold that row's cleaned lines
    joined by line breaks, whatever their number, and are blank when
    there is no line. *)
Theorem excel_cells_are_joined_lines df frow :
  frow ∈ formatted_rows strip df →
  ∃ row,
    last (filter (λ other, resp_response other = lookup_response frow)
            (drop_duplicates (dropna_response df))) = Some row ∧
    row ∈ df ∧
    lookup_response frow = resp_response row ∧
    lookup_response_text frow =
      String.concat (String newline "")
        (lines_of strip (resp_response_text row)) ∧
    lookup_recovery_steps frow =
      String.concat (String newline "")
        (lines_of strip (resp_recovery_text row)).
Proof. apply formatted_with. Qed.

(** X24: the CSV table holds the same rows with the lines joined by
    [" | "]. *)
Theorem csv_cells_are_joined_lines df frow :
  frow ∈ csv_rows strip df →
  ∃ row,
    last (filter (λ other, resp_response other = lookup_response frow)
            (drop_duplicates (dropna_response df))) = Some row ∧
    row ∈ df ∧
    lookup_response frow = resp_response row ∧
    lookup_response_text frow =
      String.concat " | " (lines_of strip (resp_response_text row)) ∧
    lookup_recovery_steps frow =
      String.concat " | " (lines_of strip (resp_recovery_text row)).
Proof. apply formatted_with. Qed.

(** X25: the shape of a lookup entry.  It never has both the one-line
    text and the list of lines; a list of lines has at least two; a list
    of recovery steps has at least one; and no stored line is empty. *)
Theorem lookup_entry_shape df k e :
  (k, e) ∈ clean_lookup_dict strip df →
  k ≠ NaN ∧
  (response_text e = None ∨ response_text_lines e = None) ∧
  (∀ line, response_text e = Some line → line ≠ "") ∧
  (∀ lines, response_text_lines e = Some lines →
     2 ≤ length lines ∧ Forall (λ line, line ≠ "") lines) ∧
  (∀ steps, recovery_steps e = Some steps →
     1 ≤ length steps ∧ Forall (λ step, step ≠ "") steps).
Proof.
  intros Hitem.
  destruct (winning_row df (k, e) Hitem) as (row & _ & _ & _ & Hna & He).
  simpl in Hna, He. subst e. split; [done|].
  unfold entry_of. cbn [response_text response_text_lines recovery_steps].
  pose proof (clean_lines_nonempty (resp_response_text row)) as Htext.
  pose proof (clean_lines_nonempty (resp_recovery_text row)) as Hsteps.
  split; [|split; [|split]].
  - destruct (has_content (resp_response_text row)); [|by left].
    destruct (clean_lines strip (resp_response_text row)) as [|? [|? ?]];
      simpl; auto.
  - intros line.
    destruct (has_content (resp_response_text row)); [|done].
    destruct (clean_lines strip (resp_response_text row)) as [|l0 [|? ?]];
      simpl; try done.
    intros [= <-]. apply Htext. by left.
  - intros lines.
    destruct (has_content (resp_response_text row)); [|done].
    destruct (clean_lines strip (resp_response_text row)) as [|l0 [|l1 rest]];
      simpl; try done.
    intros [= <-]. split; [simpl; lia|]. by apply Forall_forall.
  - intros steps.
    destruct (has_content (resp_recovery_text row)); [|done].
    destruct (clean_lines strip (resp_recovery_text row)) as [|s0 rest];
      simpl; try done.
    intros [= <-]. split; [simpl; lia|]. by apply Forall_forall.
Qed.

End strip_facts.


(** ** The lookup table of the example sheet *)

Lemma example_formatted_row :
  mkLookupRow (Str "R2") "Gyro off" ""
    ∈ formatted_rows (λ line, line) example_responses.
Proof. apply list_elem_of_further, list_elem_of_here. Qed.

Lemma example_csv_row :
  mkLookupRow (Str "R1") "Safe mode | entered" "Check power | Reset"
    ∈ csv_rows (λ line, line) example_responses.
Proof. apply list_elem_of_here. Qed.

Lemma example_entry :
  (Str "R2", mkResponseEntry (Some "Gyro off") None None)
    ∈ clean_lookup_dict (λ line, line) example_responses.
Proof. apply list_elem_of_further, list_elem_of_here. Qed.

Lemma excel_cells_are_joined_lines_witness :
  mkLookupRow (Str "R2") "Gyro off" ""
    ∈ formatted_rows (λ line, line) example_responses ∧
  ∃ row, row ∈ example_responses ∧ Str "R2" = resp_response row ∧
    "Gyro off" =
      String.concat (String newline "")
        (lines_of (λ line, line) (resp_response_text row)).
Proof.
  split; [exact example_formatted_row|].
  destruct (excel_cells_are_joined_lines (λ line, line) example_responses _
              example_formatted_row) as (row & _ & Hrow & Hkey & Htext & _).
  exists row. split; [exact Hrow|]. split; [exact Hkey|exact Htext].
Defined.

Lemma csv_cells_are_joined_lines_witness :
  mkLookupRow (Str "R1") "Safe mode | entered" "Check power | Reset"
    ∈ csv_rows (λ line, line) example_responses ∧
  ∃ row, row ∈ example_responses ∧ Str "R1" = resp_response row ∧
    "Check power | Reset" =
      String.concat " | " (lines_of (λ line, line) (resp_recovery_text row)).
Proof.
  split; [exact example_csv_row|].
  destruct (csv_cells_are_joined_lines (λ line, line) example_responses _
              example_csv_row) as (row & _ & Hrow & Hkey & _ & Hsteps).
  exists row. split; [exact Hrow|]. split; [exact Hkey|exact Hsteps].
Defined.

Lemma lookup_entry_shape_witness :
  (Str "R2", mkResponseEntry (Some "Gyro off") None None)
    ∈ clean_lookup_dict (λ line, line) example_responses ∧
  Str "R2" ≠ NaN ∧ "Gyro off" ≠ "".
Proof.
  split; [exact example_entry|].
  destruct (lookup_entry_shape (λ line, line) example_responses _ _
              example_entry) as (Hkey & _ & Hline & _).
  split; [exact Hkey|]. by apply Hline.
Defined.

End LookupFacts.
